(** * Meeting-assistant backend: persistence manager and transcript pipeline

    A shallow embedding of the parts of [backend/app/db.py] and
    [backend/app/transcript_processor.py] that carry the process bookkeeping,
    the transcript chunking, the task normalisation and the credential
    handling, followed by the properties established for them.

    Conventions of the embedding.
    - A Python [str] is a list of characters; text is modelled over the ASCII
      repertoire (code points below 128), on which [isspace], [isalpha],
      [lower] and [upper] below agree with Python.
    - A Python [int] is a [Z]; a [float] is a binary64 [float].
    - An exception is a value of [exn]; a call that may raise returns an
      [outcome].
    - A table of the SQLite store is the list of its rows in insertion order;
      the PRIMARY KEY of a table is checked by [INSERT] as SQLite checks it.
    - [datetime.utcnow().isoformat()] is the parameter [now] of an operation. *)

From Stdlib Require Import ZArith NArith List Ascii String Bool Lia.
From Stdlib Require Import Permutation Sorted Floats Uint63 DecimalString.
Import ListNotations.
Local Open Scope Z_scope.
Set Warnings "-register-all".

(** ** Python built-ins used by the two source files *)

Module Py.

Definition str := list ascii.

Definition lit (s : string) : str := list_ascii_of_string s.
Arguments lit s%_string.

Inductive exn :=
| ValueError (msg : str)
| TypeError (msg : str)
| IntegrityError (msg : str)
| ValidationError (errors : list str).

Inductive outcome (A : Type) :=
| Ok (a : A)
| Raise (e : exn).
Arguments Ok {A} a.
Arguments Raise {A} e.

Definition bind {A B : Type} (m : outcome A) (k : A -> outcome B) : outcome B :=
  match m with
  | Ok a => k a
  | Raise e => Raise e
  end.

Definition len {A : Type} (l : list A) : Z := Z.of_nat (List.length l).

(** Truthiness of a [str] and of an optional [str] ([None] is falsy). *)
Definition truthy (s : str) : bool :=
  match s with [] => false | _ :: _ => true end.

Definition truthy_opt (o : option str) : bool :=
  match o with None => false | Some s => truthy s end.

Definition LF : ascii := ascii_of_nat 10.
Definition CR : ascii := ascii_of_nat 13.
Definition DQUOTE : ascii := ascii_of_nat 34.
Definition BACKSLASH : ascii := ascii_of_nat 92.

Definition isspace (c : ascii) : bool :=
  let n := N_of_ascii c in
  (((9 <=? n) && (n <=? 13)) || ((28 <=? n) && (n <=? 32)))%N.

Definition isupper (c : ascii) : bool :=
  let n := N_of_ascii c in ((65 <=? n) && (n <=? 90))%N.

Definition islower (c : ascii) : bool :=
  let n := N_of_ascii c in ((97 <=? n) && (n <=? 122))%N.

Definition isalpha (c : ascii) : bool := isupper c || islower c.

Definition lower_char (c : ascii) : ascii :=
  if isupper c then ascii_of_N (N_of_ascii c + 32) else c.

Definition upper_char (c : ascii) : ascii :=
  if islower c then ascii_of_N (N_of_ascii c - 32) else c.

Definition lower (s : str) : str := map lower_char s.
Definition upper (s : str) : str := map upper_char s.

Fixpoint str_eqb (a b : str) : bool :=
  match a, b with
  | [], [] => true
  | x :: a', y :: b' => Ascii.eqb x y && str_eqb a' b'
  | _, _ => false
  end.

(** [x in l] for a list of strings. *)
Definition mem (x : str) (l : list str) : bool := existsb (str_eqb x) l.

Fixpoint startswith (s p : str) : bool :=
  match p, s with
  | [], _ => true
  | y :: p', x :: s' => Ascii.eqb x y && startswith s' p'
  | _ :: _, [] => false
  end.

Definition endswith (s p : str) : bool := startswith (rev s) (rev p).

(** [p in s] for strings: [p] occurs in [s] as a substring. *)
Fixpoint contains (s p : str) : bool :=
  startswith s p || match s with [] => false | _ :: s' => contains s' p end.

Fixpoint lstrip (s : str) : str :=
  match s with
  | [] => []
  | c :: s' => if isspace c then lstrip s' else s
  end.

Definition rstrip (s : str) : str := rev (lstrip (rev s)).

Definition strip (s : str) : str := rstrip (lstrip s).

(** A string that is empty or holds whitespace only. *)
Definition blank (s : str) : bool := forallb isspace s.

(** [s.split()]: the maximal runs of non-whitespace characters, in order.
    [words_from] returns the run that starts at the head of [s] (empty when
    [s] starts with whitespace) and the words after it. *)
Definition push_word (w : str) (ws : list str) : list str :=
  match w with [] => ws | _ :: _ => w :: ws end.

Fixpoint words_from (s : str) : str * list str :=
  match s with
  | [] => ([], [])
  | c :: s' =>
      let (w, ws) := words_from s' in
      if isspace c then ([], push_word w ws) else (c :: w, ws)
  end.

Definition split (s : str) : list str :=
  let (w, ws) := words_from s in push_word w ws.

(** [sep.join(l)]. *)
Fixpoint join (sep : str) (l : list str) : str :=
  match l with
  | [] => []
  | [x] => x
  | x :: l' => x ++ sep ++ join sep l'
  end.

(** [s.replace(old, new)] for a one-character [old]. *)
Definition replace (old : ascii) (new : str) (s : str) : str :=
  flat_map (fun c => if Ascii.eqb c old then new else [c]) s.

(** Slices [l[lo:hi]]; a missing bound is [None], a negative bound counts
    from the end, and bounds are clamped to the list. *)
Definition clamp_index (n i : Z) : Z :=
  if i <? 0 then Z.max 0 (i + n) else Z.min i n.

Definition slice {A : Type} (l : list A) (lo hi : option Z) : list A :=
  let n := len l in
  let a := match lo with None => 0 | Some i => clamp_index n i end in
  let b := match hi with None => n | Some j => clamp_index n j end in
  firstn (Z.to_nat (b - a)) (skipn (Z.to_nat a) l).

(** [range(start, stop, step)] as a list; a zero step raises. *)
Definition range_length (start stop step : Z) : Z :=
  if 0 <? step then
    if start <? stop then (stop - start - 1) / step + 1 else 0
  else
    if stop <? start then (start - stop - 1) / (- step) + 1 else 0.

Definition range (start stop step : Z) : outcome (list Z) :=
  if step =? 0 then Raise (ValueError (lit "range() arg 3 must not be zero"))
  else Ok (map (fun k => start + Z.of_nat k * step)
               (seq 0 (Z.to_nat (range_length start stop step)))).

(** Conversion of a non-negative [int] to [float]. *)
Definition float_of_nat (n : nat) : float :=
  PrimFloat.of_uint63 (Uint63.of_Z (Z.of_nat n)).

End Py.
Import Py.

Declare Scope py_scope.
Notation "x <- m ;; k" := (bind m (fun x => k))
  (at level 61, m at next level, right associativity) : py_scope.
Local Open Scope py_scope.

(** ** Chunking step of [TranscriptProcessor.process_transcript] *)

Module Chunking.

(** Chunk parameters after the provider dispatch: an [ollama] model replaces
    the caller's values, every other provider keeps them. *)
Definition provider_chunking (model model_name : str) (chunk_size overlap : Z)
  : Z * Z :=
  if str_eqb model (lit "ollama") then
    if startswith (lower model_name) (lit "phi4")
       || startswith (lower model_name) (lit "llama")
    then (10000, 1000) else (30000, 1000)
  else (chunk_size, overlap).

(** The value of [step] when the list of chunks is built. *)
Definition chunk_step (chunk_size overlap : Z) : Z :=
  let step := chunk_size - overlap in
  if step <=? 0 then
    let overlap := Z.max 0 (chunk_size - 100) in
    chunk_size - overlap
  else step.

(** [[text[i:i+chunk_size] for i in range(0, len(text), step)]]. *)
Definition split_chunks (text : str) (chunk_size overlap : Z)
  : outcome (list str) :=
  let step := chunk_step chunk_size overlap in
  match range 0 (len text) step with
  | Raise e => Raise e
  | Ok idx => Ok (map (fun i => slice text (Some i) (Some (i + chunk_size))) idx)
  end.

End Chunking.
Import Chunking.

(** ** [json.dumps] on the values a result or metadata dict can hold *)

Module Json.

(** Python values: the JSON-representable ones, and [PyOpaque] for an object
    of any type the encoder does not know (a set, bytes, a datetime, an
    instance of a user class), named by its class. *)
Inductive pyval :=
| PyNone
| PyBool (b : bool)
| PyInt (z : Z)
| PyStr (s : str)
| PyList (l : list pyval)
| PyDict (d : list (pyval * pyval))
| PyOpaque (type_name : str).

Definition pydict := list (pyval * pyval).

(** An optional dict argument is truthy when it is a non-empty dict. *)
Definition truthy_dict (o : option pydict) : bool :=
  match o with
  | Some (_ :: _) => true
  | _ => false
  end.

Definition int_repr (z : Z) : str :=
  list_ascii_of_string (NilZero.string_of_int (Z.to_int z)).

Definition hex_digit (n : N) : ascii :=
  if (n <? 10)%N then ascii_of_N (48 + n) else ascii_of_N (87 + n).

(** The encoder's escape of one character ([ensure_ascii] is on). *)
Definition escape_char (c : ascii) : str :=
  let n := N_of_ascii c in
  if (n =? 34)%N then [BACKSLASH; DQUOTE]
  else if (n =? 92)%N then [BACKSLASH; BACKSLASH]
  else if (n =? 10)%N then BACKSLASH :: lit "n"
  else if (n =? 13)%N then BACKSLASH :: lit "r"
  else if (n =? 9)%N then BACKSLASH :: lit "t"
  else if (n =? 12)%N then BACKSLASH :: lit "f"
  else if (n =? 8)%N then BACKSLASH :: lit "b"
  else if ((32 <=? n) && (n <=? 126))%N then [c]
  else BACKSLASH :: lit "u00" ++ [hex_digit (n / 16); hex_digit (n mod 16)].

Definition quote (s : str) : str :=
  DQUOTE :: flat_map escape_char s ++ [DQUOTE].

Definition opaque_error (type_name : str) : exn :=
  TypeError (lit "Object of type " ++ type_name
             ++ lit " is not JSON serializable").

(** A dict key is written as a string; only [str], [int], [bool] and [None]
    keys are accepted. *)
Definition dumps_key (k : pyval) : outcome str :=
  match k with
  | PyStr s => Ok (quote s)
  | PyInt z => Ok (quote (int_repr z))
  | PyBool true => Ok (quote (lit "true"))
  | PyBool false => Ok (quote (lit "false"))
  | PyNone => Ok (quote (lit "null"))
  | PyList _ =>
      Raise (TypeError
               (lit "keys must be str, int, float, bool or None, not list"))
  | PyDict _ =>
      Raise (TypeError
               (lit "keys must be str, int, float, bool or None, not dict"))
  | PyOpaque n =>
      Raise (TypeError
               (lit "keys must be str, int, float, bool or None, not " ++ n))
  end.

Fixpoint dumps (v : pyval) : outcome str :=
  match v with
  | PyNone => Ok (lit "null")
  | PyBool true => Ok (lit "true")
  | PyBool false => Ok (lit "false")
  | PyInt z => Ok (int_repr z)
  | PyStr s => Ok (quote s)
  | PyList l =>
      let items :=
        (fix items (l : list pyval) : outcome (list str) :=
           match l with
           | [] => Ok []
           | x :: l' =>
               match dumps x with
               | Raise e => Raise e
               | Ok t =>
                   match items l' with
                   | Raise e => Raise e
                   | Ok ts => Ok (t :: ts)
                   end
               end
           end) in
      match items l with
      | Raise e => Raise e
      | Ok ts => Ok (lit "[" ++ join (lit ", ") ts ++ lit "]")
      end
  | PyDict d =>
      let items :=
        (fix items (d : list (pyval * pyval)) : outcome (list str) :=
           match d with
           | [] => Ok []
           | (k, x) :: d' =>
               match dumps_key k with
               | Raise e => Raise e
               | Ok tk =>
                   match dumps x with
                   | Raise e => Raise e
                   | Ok t =>
                       match items d' with
                       | Raise e => Raise e
                       | Ok ts => Ok ((tk ++ lit ": " ++ t) :: ts)
                       end
                   end
               end
           end) in
      match items d with
      | Raise e => Raise e
      | Ok ts => Ok (lit "{" ++ join (lit ", ") ts ++ lit "}")
      end
  | PyOpaque n => Raise (opaque_error n)
  end.

End Json.
Import Json.

(** ** The store: tables, rows and the SQL statements the manager issues *)

Module Sql.

(** A value read from a row. *)
Inductive sqlval :=
| SqlNull
| SqlText (s : str)
| SqlInt (z : Z)
| SqlReal (f : float).

Definition text_or_null (o : option str) : sqlval :=
  match o with None => SqlNull | Some s => SqlText s end.

Definition int_or_null (o : option Z) : sqlval :=
  match o with None => SqlNull | Some z => SqlInt z end.

(** Truthiness of a value read from a row. *)
Definition truthy_val (v : sqlval) : bool :=
  match v with
  | SqlNull => false
  | SqlText s => truthy s
  | SqlInt z => negb (z =? 0)
  | SqlReal f => negb (PrimFloat.eqb f 0%float)
  end.

(** Table [summary_processes]; primary key [meeting_id]. *)
Record process_row := {
  p_meeting_id : str;
  p_status : str;
  p_created_at : str;
  p_updated_at : str;
  p_error : option str;
  p_result : option str;
  p_start_time : option str;
  p_end_time : option str;
  p_chunk_count : option Z;
  p_processing_time : option float;
  p_metadata : option str
}.

(** Table [transcript_chunks]; primary key [meeting_id]. *)
Record chunk_row := {
  c_meeting_id : str;
  c_meeting_name : option str;
  c_transcript_text : str;
  c_model : str;
  c_model_name : str;
  c_chunk_size : option Z;
  c_overlap : option Z;
  c_created_at : str
}.

(** Table [transcripts]: the segments of a meeting. *)
Record transcript_row := {
  t_id : option str;
  t_meeting_id : str;
  t_transcript : str;
  t_timestamp : str;
  t_summary : option str;
  t_action_items : option str;
  t_key_points : option str;
  t_audio_start_time : option float;
  t_audio_end_time : option float;
  t_duration : option float
}.

(** Table [settings]; primary key [id]. *)
Record settings_row := {
  s_id : str;
  s_provider : str;
  s_model : str;
  s_whisperModel : str;
  s_groqApiKey : option str;
  s_openaiApiKey : option str;
  s_anthropicApiKey : option str;
  s_ollamaApiKey : option str;
  s_geminiApiKey : option str
}.

(** Table [jira_settings]; primary key [id]. *)
Record jira_row := {
  j_id : str;
  j_url : str;
  j_email : str;
  j_api_token : str;
  j_default_project_key : option str;
  j_default_issue_type : option str
}.

Record db := {
  summary_processes : list process_row;
  transcript_chunks : list chunk_row;
  transcripts : list transcript_row;
  settings : list settings_row;
  jira_settings : list jira_row
}.

Definition empty_db : db :=
  {| summary_processes := []; transcript_chunks := []; transcripts := [];
     settings := []; jira_settings := [] |}.

Definition with_summary_processes (d : db) (t : list process_row) : db :=
  {| summary_processes := t; transcript_chunks := transcript_chunks d;
     transcripts := transcripts d; settings := settings d;
     jira_settings := jira_settings d |}.

Definition with_transcript_chunks (d : db) (t : list chunk_row) : db :=
  {| summary_processes := summary_processes d; transcript_chunks := t;
     transcripts := transcripts d; settings := settings d;
     jira_settings := jira_settings d |}.

Definition with_settings (d : db) (t : list settings_row) : db :=
  {| summary_processes := summary_processes d;
     transcript_chunks := transcript_chunks d;
     transcripts := transcripts d; settings := t;
     jira_settings := jira_settings d |}.

Definition with_jira_settings (d : db) (t : list jira_row) : db :=
  {| summary_processes := summary_processes d;
     transcript_chunks := transcript_chunks d;
     transcripts := transcripts d; settings := settings d;
     jira_settings := t |}.

Section Statements.
Context {row : Type}.

(** [SELECT ... WHERE]: the matching rows, in table order. *)
Definition sql_select (where_ : row -> bool) (t : list row) : list row :=
  filter where_ t.

(** [cursor.fetchone()]. *)
Definition fetchone {A : Type} (rows : list A) : option A := hd_error rows.

(** Number of rows a [WHERE] clause matches. *)
Definition sql_count (where_ : row -> bool) (t : list row) : Z :=
  len (filter where_ t).

(** [UPDATE ... SET ... WHERE]: the new table and the number of rows changed. *)
Definition sql_update (where_ : row -> bool) (set_ : row -> row) (t : list row)
  : list row * Z :=
  (map (fun r => if where_ r then set_ r else r) t, sql_count where_ t).

(** [INSERT] into a table whose primary key is [key]. *)
Definition sql_insert (key : row -> str) (r : row) (t : list row)
  : outcome (list row) :=
  if existsb (fun r' => str_eqb (key r') (key r)) t
  then Raise (IntegrityError (lit "UNIQUE constraint failed"))
  else Ok (t ++ [r]).

End Statements.

(** Order of two TEXT values under the default (byte-wise) collation. *)
Fixpoint text_leb (a b : str) : bool :=
  match a, b with
  | [], _ => true
  | _ :: _, [] => false
  | x :: a', y :: b' =>
      if (N_of_ascii x <? N_of_ascii y)%N then true
      else if (N_of_ascii y <? N_of_ascii x)%N then false
      else text_leb a' b'
  end.

(** [ORDER BY timestamp ASC] on segments: a stable insertion sort. *)
Fixpoint insert_by_timestamp (r : transcript_row) (l : list transcript_row)
  : list transcript_row :=
  match l with
  | [] => [r]
  | x :: l' =>
      if text_leb (t_timestamp r) (t_timestamp x) then r :: l
      else x :: insert_by_timestamp r l'
  end.

Definition order_by_timestamp (l : list transcript_row) : list transcript_row :=
  fold_right insert_by_timestamp [] l.

End Sql.
Import Sql.

(** ** [DatabaseManager]: the operations of [db.py]

    Every operation opens a connection of its own, so [conn.total_changes]
    read after its first [UPDATE] is the number of rows that statement
    changed.  An operation returns the store it leaves behind together with
    its outcome; when it raises inside its transaction the store is the one
    it started from (rollback). *)

Module DatabaseManager.

Definition for_meeting (meeting_id : str) (r : process_row) : bool :=
  str_eqb (p_meeting_id r) meeting_id.

(** The [SET] clause of [create_process]. *)
Definition reset_process (now : str) (r : process_row) : process_row :=
  {| p_meeting_id := p_meeting_id r;
     p_status := lit "PENDING";
     p_created_at := p_created_at r;
     p_updated_at := now;
     p_error := None;
     p_result := None;
     p_start_time := Some now;
     p_end_time := p_end_time r;
     p_chunk_count := p_chunk_count r;
     p_processing_time := p_processing_time r;
     p_metadata := p_metadata r |}.

(** The row [create_process] inserts; the columns it does not name take
    their declared defaults. *)
Definition new_process (now meeting_id : str) : process_row :=
  {| p_meeting_id := meeting_id;
     p_status := lit "PENDING";
     p_created_at := now;
     p_updated_at := now;
     p_error := None;
     p_result := None;
     p_start_time := Some now;
     p_end_time := None;
     p_chunk_count := Some 0;
     p_processing_time := Some 0%float;
     p_metadata := None |}.

Definition create_process (now meeting_id : str) (d : db) : db * outcome str :=
  let (t, total_changes) :=
    sql_update (for_meeting meeting_id) (reset_process now)
               (summary_processes d) in
  if total_changes =? 0 then
    match sql_insert p_meeting_id (new_process now meeting_id) t with
    | Raise e => (d, Raise e)
    | Ok t' => (with_summary_processes d t', Ok meeting_id)
    end
  else (with_summary_processes d t, Ok meeting_id).

(** One entry of [update_fields] together with its parameter. *)
Inductive assignment :=
| SetStatus (v : str)
| SetUpdatedAt (v : str)
| SetResult (v : str)
| SetError (v : str)
| SetChunkCount (v : Z)
| SetProcessingTime (v : float)
| SetMetadata (v : str)
| SetEndTime (v : str).

Definition assign (r : process_row) (a : assignment) : process_row :=
  {| p_meeting_id := p_meeting_id r;
     p_status := match a with SetStatus v => v | _ => p_status r end;
     p_created_at := p_created_at r;
     p_updated_at := match a with SetUpdatedAt v => v | _ => p_updated_at r end;
     p_error := match a with SetError v => Some v | _ => p_error r end;
     p_result := match a with SetResult v => Some v | _ => p_result r end;
     p_start_time := p_start_time r;
     p_end_time := match a with SetEndTime v => Some v | _ => p_end_time r end;
     p_chunk_count :=
       match a with SetChunkCount v => Some v | _ => p_chunk_count r end;
     p_processing_time :=
       match a with
       | SetProcessingTime v => Some v
       | _ => p_processing_time r
       end;
     p_metadata :=
       match a with SetMetadata v => Some v | _ => p_metadata r end |}.

Definition assign_all (fields : list assignment) (r : process_row)
  : process_row :=
  fold_left assign fields r.

(** [str(error).replace('\n', ' ').replace('\r', '')[:1000]]. *)
Definition sanitize_error (error : str) : str :=
  slice (replace CR [] (replace LF (lit " ") error)) None (Some 1000).

(** The [update_fields] list [update_process] builds, or the error it raises
    while building it. *)
Definition update_fields (now status : str) (result : option pydict)
  (error : option str) (chunk_count : option Z)
  (processing_time : option float) (metadata : option pydict)
  : outcome (list assignment) :=
  let fields := [SetStatus status; SetUpdatedAt now] in
  fields <-
    (if truthy_dict result then
       match dumps (PyDict (match result with Some r => r | None => [] end)) with
       | Ok result_json => Ok (fields ++ [SetResult result_json])
       | Raise _ =>
           Raise (ValueError (lit "Result data cannot be JSON serialized"))
       end
     else Ok fields) ;;
  let fields :=
    if truthy_opt error then
      match error with
      | Some e => fields ++ [SetError (sanitize_error e)]
      | None => fields
      end
    else fields in
  let fields :=
    match chunk_count with
    | Some n => fields ++ [SetChunkCount n]
    | None => fields
    end in
  let fields :=
    match processing_time with
    | Some t => fields ++ [SetProcessingTime t]
    | None => fields
    end in
  let fields :=
    if truthy_dict metadata then
      match dumps (PyDict (match metadata with Some m => m | None => [] end)) with
      | Ok metadata_json => fields ++ [SetMetadata metadata_json]
      | Raise _ => fields
      end
    else fields in
  let fields :=
    if mem (upper status) [lit "COMPLETED"; lit "FAILED"]
    then fields ++ [SetEndTime now] else fields in
  Ok fields.

Definition update_process (now meeting_id status : str)
  (result : option pydict) (error : option str) (chunk_count : option Z)
  (processing_time : option float) (metadata : option pydict) (d : db)
  : db * outcome unit :=
  match update_fields now status result error chunk_count processing_time
                      metadata with
  | Raise e => (d, Raise e)
  | Ok fields =>
      let (t, _) :=
        sql_update (for_meeting meeting_id) (assign_all fields)
                   (summary_processes d) in
      (with_summary_processes d t, Ok tt)
  end.

(** The [SET] clause and the inserted row of [save_transcript]. *)
Definition set_transcript (transcript_text model model_name : str)
  (chunk_size overlap : Z) (now : str) (r : chunk_row) : chunk_row :=
  {| c_meeting_id := c_meeting_id r;
     c_meeting_name := c_meeting_name r;
     c_transcript_text := transcript_text;
     c_model := model;
     c_model_name := model_name;
     c_chunk_size := Some chunk_size;
     c_overlap := Some overlap;
     c_created_at := now |}.

Definition new_transcript (meeting_id transcript_text model model_name : str)
  (chunk_size overlap : Z) (now : str) : chunk_row :=
  {| c_meeting_id := meeting_id;
     c_meeting_name := None;
     c_transcript_text := transcript_text;
     c_model := model;
     c_model_name := model_name;
     c_chunk_size := Some chunk_size;
     c_overlap := Some overlap;
     c_created_at := now |}.

Definition blob_for (meeting_id : str) (r : chunk_row) : bool :=
  str_eqb (c_meeting_id r) meeting_id.

Definition save_transcript (now meeting_id transcript_text model model_name : str)
  (chunk_size overlap : Z) (d : db) : db * outcome unit :=
  if negb (truthy meeting_id) || negb (truthy (strip meeting_id)) then
    (d, Raise (ValueError (lit "meeting_id cannot be empty")))
  else if negb (truthy transcript_text) || negb (truthy (strip transcript_text))
  then (d, Raise (ValueError (lit "transcript_text cannot be empty")))
  else if (chunk_size <=? 0) || (overlap <? 0) then
    (d, Raise (ValueError (lit "Invalid chunk_size or overlap values")))
  else if 10000000 <? len transcript_text then
    (d, Raise (ValueError (lit "Transcript text too large (>10MB)")))
  else
    let (t, total_changes) :=
      sql_update (blob_for meeting_id)
                 (set_transcript transcript_text model model_name chunk_size
                                 overlap now)
                 (transcript_chunks d) in
    if total_changes =? 0 then
      match sql_insert c_meeting_id
              (new_transcript meeting_id transcript_text model model_name
                              chunk_size overlap now) t with
      | Raise e => (d, Raise e)
      | Ok t' => (with_transcript_chunks d t', Ok tt)
      end
    else (with_transcript_chunks d t, Ok tt).

(** A Python dict built from column names and row values. *)
Definition pyrow := list (str * sqlval).

Definition dict_get (d : pyrow) (k : str) : sqlval :=
  match find (fun kv => str_eqb (fst kv) k) d with
  | Some kv => snd kv
  | None => SqlNull
  end.

(** [transcript_chunks t LEFT JOIN summary_processes p ON t.meeting_id =
    p.meeting_id WHERE t.meeting_id = ?]. *)
Definition blob_left_join (meeting_id : str) (d : db)
  : list (chunk_row * option process_row) :=
  flat_map
    (fun t =>
       match sql_select (for_meeting (c_meeting_id t)) (summary_processes d) with
       | [] => [(t, None)]
       | ps => map (fun p => (t, Some p)) ps
       end)
    (sql_select (blob_for meeting_id) (transcript_chunks d)).

Definition status_of (p : option process_row) : sqlval :=
  match p with Some r => SqlText (p_status r) | None => SqlNull end.

Definition result_of (p : option process_row) : sqlval :=
  match p with Some r => text_or_null (p_result r) | None => SqlNull end.

Definition error_of (p : option process_row) : sqlval :=
  match p with Some r => text_or_null (p_error r) | None => SqlNull end.

(** [dict(zip(names, row))] for a row of the join: the columns of [t.*]
    followed by [p.status], [p.result] and [p.error]. *)
Definition blob_dict (t : chunk_row) (p : option process_row) : pyrow :=
  [ (lit "meeting_id", SqlText (c_meeting_id t));
    (lit "meeting_name", text_or_null (c_meeting_name t));
    (lit "transcript_text", SqlText (c_transcript_text t));
    (lit "model", SqlText (c_model t));
    (lit "model_name", SqlText (c_model_name t));
    (lit "chunk_size", int_or_null (c_chunk_size t));
    (lit "overlap", int_or_null (c_overlap t));
    (lit "created_at", SqlText (c_created_at t));
    (lit "status", status_of p);
    (lit "result", result_of p);
    (lit "error", error_of p) ].

Definition segments_for (meeting_id : str) (d : db) : list transcript_row :=
  order_by_timestamp
    (sql_select (fun r => str_eqb (t_meeting_id r) meeting_id) (transcripts d)).

(** ["\n".join([row[0] for row in rows if row[0]])]. *)
Definition combine_segments (rows : list transcript_row) : str :=
  join [LF] (filter truthy (map t_transcript rows)).

Definition segment_dict (meeting_id transcript_text : str)
  (p : option process_row) : pyrow :=
  [ (lit "meeting_id", SqlText meeting_id);
    (lit "transcript_text", SqlText transcript_text);
    (lit "status", status_of p);
    (lit "result", result_of p);
    (lit "error", error_of p) ].

Definition segments_fallback (meeting_id : str) (d : db) : option pyrow :=
  let rows := segments_for meeting_id d in
  match rows with
  | [] => None
  | _ :: _ =>
      let transcript_text := combine_segments rows in
      if truthy transcript_text then
        let proc_row :=
          fetchone (sql_select (for_meeting meeting_id) (summary_processes d)) in
        Some (segment_dict meeting_id transcript_text proc_row)
      else None
  end.

Definition get_transcript_data (meeting_id : str) (d : db) : option pyrow :=
  match fetchone (blob_left_join meeting_id d) with
  | Some (t, p) =>
      let result := blob_dict t p in
      if truthy_val (dict_get result (lit "transcript_text")) then Some result
      else segments_fallback meeting_id d
  | None => segments_fallback meeting_id d
  end.

(** The key column of [settings] that belongs to a provider. *)
Inductive api_key_column :=
| openaiApiKey
| anthropicApiKey
| groqApiKey
| ollamaApiKey
| geminiApiKey.

Definition provider_list : list str :=
  [lit "openai"; lit "claude"; lit "groq"; lit "ollama"; lit "gemini"].

Definition api_key_name (provider : str) : outcome api_key_column :=
  if negb (mem provider provider_list) then
    Raise (ValueError (lit "Invalid provider: " ++ provider))
  else if str_eqb provider (lit "openai") then Ok openaiApiKey
  else if str_eqb provider (lit "claude") then Ok anthropicApiKey
  else if str_eqb provider (lit "groq") then Ok groqApiKey
  else if str_eqb provider (lit "ollama") then Ok ollamaApiKey
  else Ok geminiApiKey.

Definition get_key (c : api_key_column) (r : settings_row) : option str :=
  match c with
  | openaiApiKey => s_openaiApiKey r
  | anthropicApiKey => s_anthropicApiKey r
  | groqApiKey => s_groqApiKey r
  | ollamaApiKey => s_ollamaApiKey r
  | geminiApiKey => s_geminiApiKey r
  end.

Definition set_key (c : api_key_column) (v : option str) (r : settings_row)
  : settings_row :=
  {| s_id := s_id r;
     s_provider := s_provider r;
     s_model := s_model r;
     s_whisperModel := s_whisperModel r;
     s_groqApiKey := match c with groqApiKey => v | _ => s_groqApiKey r end;
     s_openaiApiKey :=
       match c with openaiApiKey => v | _ => s_openaiApiKey r end;
     s_anthropicApiKey :=
       match c with anthropicApiKey => v | _ => s_anthropicApiKey r end;
     s_ollamaApiKey :=
       match c with ollamaApiKey => v | _ => s_ollamaApiKey r end;
     s_geminiApiKey :=
       match c with geminiApiKey => v | _ => s_geminiApiKey r end |}.

Definition settings_1 (r : settings_row) : bool := str_eqb (s_id r) (lit "1").

(** The row [save_api_key] inserts when there are no settings yet. *)
Definition default_settings (c : api_key_column) (api_key : option str)
  : settings_row :=
  set_key c api_key
    {| s_id := lit "1";
       s_provider := lit "openai";
       s_model := lit "gpt-4o-2024-11-20";
       s_whisperModel := lit "large-v3";
       s_groqApiKey := None;
       s_openaiApiKey := None;
       s_anthropicApiKey := None;
       s_ollamaApiKey := None;
       s_geminiApiKey := None |}.

(** [api_key] is passed to the statement as it is; Python's [None] is
    stored as NULL. *)
Definition save_api_key (api_key : option str) (provider : str) (d : db)
  : db * outcome unit :=
  match api_key_name provider with
  | Raise e => (d, Raise e)
  | Ok column =>
      match fetchone (sql_select settings_1 (settings d)) with
      | Some _ =>
          let (t, _) := sql_update settings_1 (set_key column api_key)
                                   (settings d) in
          (with_settings d t, Ok tt)
      | None =>
          match sql_insert s_id (default_settings column api_key)
                           (settings d) with
          | Raise e => (d, Raise e)
          | Ok t => (with_settings d t, Ok tt)
          end
      end
  end.

Definition get_api_key (provider : str) (d : db) : outcome str :=
  column <- api_key_name provider ;;
  match fetchone (sql_select settings_1 (settings d)) with
  | Some r => if truthy_opt (get_key column r)
              then Ok (match get_key column r with Some k => k | None => [] end)
              else Ok []
  | None => Ok []
  end.

Definition jira_1 (r : jira_row) : bool := str_eqb (j_id r) (lit "1").

(** The test [save_jira_config] applies to a token that stands for the
    stored one: [not api_token or api_token.strip() == '' or
    api_token == '********']. *)
Definition masked (api_token : option str) : bool :=
  negb (truthy_opt api_token)
  || match api_token with
     | Some t => str_eqb (strip t) [] || str_eqb t (lit "********")
     | None => false
     end.

Definition set_jira (url email api_token : str)
  (default_project_key default_issue_type : option str) (r : jira_row)
  : jira_row :=
  {| j_id := j_id r;
     j_url := url;
     j_email := email;
     j_api_token := api_token;
     j_default_project_key := default_project_key;
     j_default_issue_type := default_issue_type |}.

Definition new_jira (url email api_token : str)
  (default_project_key default_issue_type : option str) : jira_row :=
  {| j_id := lit "1";
     j_url := url;
     j_email := email;
     j_api_token := api_token;
     j_default_project_key := default_project_key;
     j_default_issue_type := default_issue_type |}.

(** The token [save_jira_config] goes on to write, or the error it raises. *)
Definition resolve_token (existing : option jira_row) (api_token : option str)
  : outcome str :=
  match existing with
  | Some r =>
      if masked api_token then
        if truthy (j_api_token r) then Ok (j_api_token r)
        else Raise (ValueError
                      (lit "API Token is required for new configuration"))
      else Ok (match api_token with Some t => t | None => [] end)
  | None =>
      if masked api_token then
        Raise (ValueError (lit "API Token is required for new configuration"))
      else Ok (match api_token with Some t => t | None => [] end)
  end.

Definition save_jira_config (url email : str) (api_token : option str)
  (default_project_key default_issue_type : option str) (d : db)
  : db * outcome unit :=
  if negb (truthy url) || negb (truthy email) then
    (d, Raise (ValueError (lit "URL and Email are required")))
  else
    let existing := fetchone (sql_select jira_1 (jira_settings d)) in
    match resolve_token existing api_token with
    | Raise e => (d, Raise e)
    | Ok token =>
        match existing with
        | Some _ =>
            let (t, _) :=
              sql_update jira_1
                (set_jira url email token default_project_key
                          default_issue_type)
                (jira_settings d) in
            (with_jira_settings d t, Ok tt)
        | None =>
            match sql_insert j_id
                    (new_jira url email token default_project_key
                              default_issue_type)
                    (jira_settings d) with
            | Raise e => (d, Raise e)
            | Ok t => (with_jira_settings d t, Ok tt)
            end
        end
    end.

Definition get_jira_config (d : db) : option pyrow :=
  match fetchone (sql_select jira_1 (jira_settings d)) with
  | Some r =>
      Some [ (lit "url", SqlText (j_url r));
             (lit "email", SqlText (j_email r));
             (lit "api_token", SqlText (j_api_token r));
             (lit "default_project_key",
              text_or_null (j_default_project_key r));
             (lit "default_issue_type",
              text_or_null (j_default_issue_type r)) ]
  | None => None
  end.

End DatabaseManager.
Import DatabaseManager.

(** ** [JiraTaskSuggestion] and the task post-processing of
    [TranscriptProcessor] *)

Module TranscriptProcessor.

Record JiraTaskSuggestion := {
  summary : str;
  description : str;
  priority : str;
  type : str;
  assignee : str;
  assignee_account_id : option str;
  labels : option (list str);
  related_issues : option (list str)
}.

(** [dict.get(k, default)] on a literal table. *)
Fixpoint table_get (table : list (str * str)) (k default : str) : str :=
  match table with
  | [] => default
  | (k', v) :: table' => if str_eqb k' k then v else table_get table' k default
  end.

Definition valid_word (w : str) : bool :=
  (2 <=? len w) && match w with c :: _ => isalpha c | [] => false end.

(** [validate_summary].  The test [valid_words < len(words) * 0.5] compares
    an integer with half an integer, which binary64 computes exactly: it is
    [2 * valid_words < len(words)]. *)
Definition validate_summary (v : str) : outcome str :=
  if negb (truthy v) || (len (strip v) <? 10) then
    Raise (ValueError (lit "Summary must be at least 10 characters"))
  else
    let words := split v in
    if len words <? 2 then
      Raise (ValueError (lit "Summary must have at least 2 words"))
    else
      let valid_words := len (filter valid_word words) in
      if 2 * valid_words <? len words then
        Raise (ValueError (lit "Summary contains too many invalid words"))
      else Ok (strip v).

Definition validate_description (v : str) : outcome str :=
  if negb (truthy v) || (len (strip v) <? 20) then
    Raise (ValueError (lit "Description must be at least 20 characters"))
  else Ok (strip v).

Definition priority_map : list (str * str) :=
  [ (lit "high", lit "High"); (lit "highest", lit "Highest");
    (lit "critical", lit "Highest");
    (lit "medium", lit "Medium"); (lit "normal", lit "Medium");
    (lit "low", lit "Low"); (lit "lowest", lit "Lowest");
    (lit "minor", lit "Low") ].

Definition validate_priority (v : str) : str :=
  let v := strip v in
  table_get priority_map (lower v) v.

Definition type_map : list (str * str) :=
  [ (lit "bug", lit "Bug"); (lit "defect", lit "Bug"); (lit "error", lit "Bug");
    (lit "task", lit "Task"); (lit "action item", lit "Task");
    (lit "story", lit "Story"); (lit "user story", lit "Story");
    (lit "feature", lit "Story");
    (lit "epic", lit "Epic");
    (lit "improvement", lit "Improvement");
    (lit "enhancement", lit "Improvement") ].

Definition validate_type (v : str) : str :=
  let v := strip v in
  let normalized := table_get type_map (lower v) v in
  normalized.

Definition error_of_field {A : Type} (r : outcome A) : list str :=
  match r with
  | Raise (ValueError msg) => [msg]
  | _ => []
  end.

(** Construction of a [JiraTaskSuggestion]: the four field validators run,
    and the failures of all fields are reported in one [ValidationError]. *)
Definition new_JiraTaskSuggestion (summary description priority type assignee : str)
  (assignee_account_id : option str) (labels related_issues : option (list str))
  : outcome JiraTaskSuggestion :=
  match validate_summary summary, validate_description description with
  | Ok s, Ok d =>
      Ok {| summary := s;
            description := d;
            priority := validate_priority priority;
            type := validate_type type;
            assignee := assignee;
            assignee_account_id := assignee_account_id;
            labels := labels;
            related_issues := related_issues |}
  | rs, rd => Raise (ValidationError (error_of_field rs ++ error_of_field rd))
  end.

Definition common_words : list str :=
  map lit
    [ "the"; "a"; "an"; "is"; "are"; "was"; "were"; "be"; "been";
      "to"; "for"; "and"; "or"; "but"; "in"; "on"; "at"; "with";
      "fix"; "add"; "update"; "create"; "implement"; "bug"; "error";
      "issue"; "user"; "system"; "data"; "page"; "api"; "not"; "no" ]%string.

Definition is_vowel (c : ascii) : bool :=
  existsb (Ascii.eqb c) (lit "aeiou").

Definition seven_tenths : float := 0x1.6666666666666p-1%float.

(** The vowel test applied to one word of a summary without common words:
    [true] when the word makes the summary invalid. *)
Definition odd_word (word : str) : bool :=
  (3 <? len word) && negb (mem (lower word) common_words)
  && (let vowels := List.length (filter is_vowel (lower word)) in
      Nat.eqb vowels 0
      || PrimFloat.ltb (PrimFloat.mul (float_of_nat (List.length word))
                                      seven_tenths)
                       (float_of_nat vowels)).

Definition _is_valid_english (text : str) : bool :=
  if negb (truthy text) || (len text <? 5) then false
  else
    let words := split text in
    if len words <? 2 then false
    else
      let text_words := map lower words in
      if negb (existsb (fun w => mem w common_words) text_words) then
        let alpha_count := List.length (filter isalpha text) in
        if PrimFloat.ltb (float_of_nat alpha_count)
                         (PrimFloat.mul (float_of_nat (List.length text))
                                        seven_tenths)
        then false
        else negb (existsb odd_word words)
      else true.

Definition action_verbs : list str :=
  map lit
    [ "fix"; "implement"; "add"; "update"; "create"; "resolve";
      "investigate"; "review"; "remove"; "refactor"; "improve";
      "configure"; "setup"; "set up"; "deploy"; "migrate"; "test";
      "debug"; "optimize"; "enable"; "disable"; "address" ]%string.

(** [summary.split()[0].lower() if summary.split() else '']. *)
Definition first_word (summary : str) : str :=
  match split summary with
  | w :: _ => lower w
  | [] => []
  end.

Definition with_verb (task_type summary : str) : str :=
  if negb (mem (first_word summary) action_verbs) then
    if contains (lower task_type) (lit "bug")
       || contains (lower summary) (lit "error")
       || contains (lower summary) (lit "issue")
    then lit "Fix " ++ summary
    else if contains (lower summary) (lit "outage")
            || contains (lower summary) (lit "down")
    then lit "Resolve " ++ summary
    else lit "Address " ++ summary
  else summary.

(** [summary[0].upper() + summary[1:] if summary else summary]. *)
Definition capitalize_first (summary : str) : str :=
  match summary with
  | c :: rest => upper_char c :: rest
  | [] => []
  end.

Definition fix_type (issue_type summary : str) : str :=
  if str_eqb (lower issue_type) (lit "epic") then
    if contains (lower summary) (lit "outage")
       || contains (lower summary) (lit "bug")
       || contains (lower summary) (lit "error")
       || contains (lower summary) (lit "fix")
    then lit "Bug" else lit "Task"
  else issue_type.

Definition fix_priority (priority description : str) : str :=
  let desc_lower := lower description in
  if contains desc_lower (lit "outage") || contains desc_lower (lit "blocking")
     || contains desc_lower (lit "down") || contains desc_lower (lit "500")
  then
    if mem (lower priority) [lit "low"; lit "lowest"; lit "medium"]
    then lit "High" else priority
  else priority.

(** One turn of the loop of [_post_process_tasks]: [None] when the task is
    skipped, otherwise the task appended to [processed].  The only statement
    of the [try] block that can raise is the construction of the cleaned
    task; the handler then appends the original. *)
Definition post_process_task (task : JiraTaskSuggestion)
  : option JiraTaskSuggestion :=
  let summary0 := strip (summary task) in
  if negb (_is_valid_english summary0) then None
  else
    let summary1 := capitalize_first (with_verb (type task) summary0) in
    let issue_type := fix_type (type task) summary1 in
    let priority1 := fix_priority (priority task) (description task) in
    match new_JiraTaskSuggestion summary1 (description task) priority1
            issue_type (assignee task) (assignee_account_id task)
            (labels task) (related_issues task) with
    | Ok cleaned_task => Some cleaned_task
    | Raise _ => Some task
    end.

Definition _post_process_tasks (tasks : list JiraTaskSuggestion)
  : list JiraTaskSuggestion :=
  flat_map (fun task => match post_process_task task with
                        | Some t => [t]
                        | None => []
                        end) tasks.

Definition _strip_code_fence (payload : str) : str :=
  let trimmed := strip payload in
  if negb (startswith trimmed (lit "```")) then trimmed
  else
    let trimmed := slice trimmed (Some 3) None in
    let trimmed :=
      if startswith (lower (lstrip trimmed)) (lit "json")
      then slice (lstrip trimmed) (Some 4) None else trimmed in
    let trimmed :=
      if endswith trimmed (lit "```")
      then slice trimmed None (Some (-3)) else trimmed in
    strip trimmed.

End TranscriptProcessor.
Import TranscriptProcessor.

(** ** [DatabaseManager]: meetings, settings and summaries

    The operations of [db.py] on the tables [meetings] and
    [transcript_settings], which the store above does not hold, work on a
    [full_db]: that store together with the two tables.  The schema declares
    foreign keys from the meeting ids of the other tables to [meetings], but
    no connection turns their enforcement on, so they constrain nothing. *)

Module Meetings.

(** Table [meetings]; primary key [id]. *)
Record meeting_row := {
  m_id : str;
  m_title : str;
  m_created_at : str;
  m_updated_at : str;
  m_folder_path : option str
}.

(** Table [transcript_settings]; primary key [id]. *)
Record transcript_settings_row := {
  ts_id : str;
  ts_provider : str;
  ts_model : str;
  ts_whisperApiKey : option str;
  ts_deepgramApiKey : option str;
  ts_elevenLabsApiKey : option str;
  ts_groqApiKey : option str;
  ts_openaiApiKey : option str
}.

Record full_db := {
  core : db;
  meetings : list meeting_row;
  transcript_settings : list transcript_settings_row
}.

Definition empty_full_db : full_db :=
  {| core := empty_db; meetings := []; transcript_settings := [] |}.

Definition with_core (s : full_db) (d : db) : full_db :=
  {| core := d; meetings := meetings s;
     transcript_settings := transcript_settings s |}.

Definition with_meetings (s : full_db) (t : list meeting_row) : full_db :=
  {| core := core s; meetings := t;
     transcript_settings := transcript_settings s |}.

Definition with_transcript_settings (s : full_db)
  (t : list transcript_settings_row) : full_db :=
  {| core := core s; meetings := meetings s; transcript_settings := t |}.

Definition with_transcripts (d : db) (t : list transcript_row) : db :=
  {| summary_processes := summary_processes d;
     transcript_chunks := transcript_chunks d;
     transcripts := t; settings := settings d;
     jira_settings := jira_settings d |}.

(** An operation of the store above, run on the full store. *)
Definition on_core {A : Type} (op : db -> db * A) (s : full_db) : full_db * A :=
  let (d, a) := op (core s) in (with_core s d, a).

(** What an operation that may raise a plain [Exception] returns. *)
Inductive raised :=
| Builtin (e : exn)
| PlainException (msg : str).

Inductive answer (A : Type) :=
| Returned (a : A)
| Raised (e : raised).
Arguments Returned {A} a.
Arguments Raised {A} e.

Definition meeting_is (meeting_id : str) (m : meeting_row) : bool :=
  str_eqb (m_id m) meeting_id.

(** [save_meeting]: [now] is [datetime('now', 'localtime')]. *)
Definition save_meeting (now meeting_id title : str)
  (folder_path : option str) (s : full_db) : full_db * answer bool :=
  let existing_meeting :=
    fetchone (sql_select
                (fun m => str_eqb (m_id m) meeting_id || str_eqb (m_title m) title)
                (meetings s)) in
  match existing_meeting with
  | None =>
      match sql_insert m_id
              {| m_id := meeting_id; m_title := title; m_created_at := now;
                 m_updated_at := now; m_folder_path := folder_path |}
              (meetings s) with
      | Ok t => (with_meetings s t, Returned true)
      | Raise e => (s, Raised (Builtin e))
      end
  | Some _ =>
      (s, Raised (PlainException
                    (lit "Meeting with ID " ++ meeting_id
                     ++ lit " already exists")))
  end.

(** [save_meeting_transcript]: the row is inserted without an [id], which
    stays NULL, so the insertion cannot clash with a stored row. *)
Definition save_meeting_transcript (meeting_id transcript timestamp : str)
  (summary action_items key_points : str)
  (audio_start_time audio_end_time duration : option float) (d : db)
  : db * outcome bool :=
  (with_transcripts d
     (transcripts d
      ++ [ {| t_id := None; t_meeting_id := meeting_id;
              t_transcript := transcript; t_timestamp := timestamp;
              t_summary := Some summary; t_action_items := Some action_items;
              t_key_points := Some key_points;
              t_audio_start_time := audio_start_time;
              t_audio_end_time := audio_end_time;
              t_duration := duration |} ]),
   Ok true).

(** One entry of the ['transcripts'] list [get_meeting] returns. *)
Record segment_view := {
  sv_id : str;
  sv_text : str;
  sv_timestamp : str;
  sv_audio_start_time : option float;
  sv_audio_end_time : option float;
  sv_duration : option float
}.

(** The dict [get_meeting] returns. *)
Record meeting_view := {
  mv_id : str;
  mv_title : str;
  mv_created_at : str;
  mv_updated_at : str;
  mv_transcripts : list segment_view
}.

Definition segment_for (meeting_id : str) (r : transcript_row) : bool :=
  str_eqb (t_meeting_id r) meeting_id.

Definition get_meeting (meeting_id : str) (s : full_db) : option meeting_view :=
  match fetchone (sql_select (meeting_is meeting_id) (meetings s)) with
  | None => None
  | Some meeting =>
      let transcripts :=
        sql_select (segment_for meeting_id) (transcripts (core s)) in
      Some {| mv_id := m_id meeting;
              mv_title := m_title meeting;
              mv_created_at := m_created_at meeting;
              mv_updated_at := m_updated_at meeting;
              mv_transcripts :=
                map (fun transcript =>
                       {| sv_id := meeting_id;
                          sv_text := t_transcript transcript;
                          sv_timestamp := t_timestamp transcript;
                          sv_audio_start_time := t_audio_start_time transcript;
                          sv_audio_end_time := t_audio_end_time transcript;
                          sv_duration := t_duration transcript |})
                    transcripts |}
  end.

Definition set_title (title now : str) (m : meeting_row) : meeting_row :=
  {| m_id := m_id m; m_title := title; m_created_at := m_created_at m;
     m_updated_at := now; m_folder_path := m_folder_path m |}.

Definition update_meeting_title (now meeting_id new_title : str) (s : full_db)
  : full_db :=
  with_meetings s
    (fst (sql_update (meeting_is meeting_id) (set_title new_title now)
                     (meetings s))).

Definition set_meeting_name (meeting_name : str) (r : chunk_row) : chunk_row :=
  {| c_meeting_id := c_meeting_id r;
     c_meeting_name := Some meeting_name;
     c_transcript_text := c_transcript_text r;
     c_model := c_model r;
     c_model_name := c_model_name r;
     c_chunk_size := c_chunk_size r;
     c_overlap := c_overlap r;
     c_created_at := c_created_at r |}.

Definition update_meeting_name (now meeting_id meeting_name : str)
  (s : full_db) : full_db :=
  {| core :=
       with_transcript_chunks (core s)
         (fst (sql_update (blob_for meeting_id) (set_meeting_name meeting_name)
                          (transcript_chunks (core s))));
     meetings :=
       fst (sql_update (meeting_is meeting_id) (set_title meeting_name now)
                       (meetings s));
     transcript_settings := transcript_settings s |}.

(** [ORDER BY created_at DESC]: a stable insertion sort, latest first. *)
Fixpoint insert_by_created_at (m : meeting_row) (l : list meeting_row)
  : list meeting_row :=
  match l with
  | [] => [m]
  | x :: l' =>
      if text_leb (m_created_at x) (m_created_at m) then m :: l
      else x :: insert_by_created_at m l'
  end.

Definition order_by_created_at_desc (l : list meeting_row) : list meeting_row :=
  fold_right insert_by_created_at [] l.

(** [get_all_meetings]: id, title and creation time of every meeting. *)
Definition get_all_meetings (s : full_db) : list (str * str * str) :=
  map (fun row => (m_id row, m_title row, m_created_at row))
      (order_by_created_at_desc (meetings s)).



(** [get_model_config]: the named columns of the first settings row. *)
Definition get_model_config (d : db) : option pyrow :=
  match fetchone (settings d) with
  | Some row =>
      Some [ (lit "provider", SqlText (s_provider row));
             (lit "model", SqlText (s_model row));
             (lit "whisperModel", SqlText (s_whisperModel row)) ]
  | None => None
  end.

Definition set_model_config (provider model whisperModel : str)
  (r : settings_row) : settings_row :=
  {| s_id := s_id r;
     s_provider := provider;
     s_model := model;
     s_whisperModel := whisperModel;
     s_groqApiKey := s_groqApiKey r;
     s_openaiApiKey := s_openaiApiKey r;
     s_anthropicApiKey := s_anthropicApiKey r;
     s_ollamaApiKey := s_ollamaApiKey r;
     s_geminiApiKey := s_geminiApiKey r |}.

Definition save_model_config (provider model whisperModel : str) (d : db)
  : db * outcome unit :=
  if negb (truthy provider) || negb (truthy (strip provider)) then
    (d, Raise (ValueError (lit "Provider cannot be empty")))
  else if negb (truthy model) || negb (truthy (strip model)) then
    (d, Raise (ValueError (lit "Model cannot be empty")))
  else if negb (truthy whisperModel) || negb (truthy (strip whisperModel)) then
    (d, Raise (ValueError (lit "Whisper model cannot be empty")))
  else
    match fetchone (settings d) with
    | Some _ =>
        let (t, _) :=
          sql_update settings_1 (set_model_config provider model whisperModel)
                     (settings d) in
        (with_settings d t, Ok tt)
    | None =>
        match sql_insert s_id
                {| s_id := lit "1"; s_provider := provider; s_model := model;
                   s_whisperModel := whisperModel;
                   s_groqApiKey := None; s_openaiApiKey := None;
                   s_anthropicApiKey := None; s_ollamaApiKey := None;
                   s_geminiApiKey := None |}
                (settings d) with
        | Raise e => (d, Raise e)
        | Ok t => (with_settings d t, Ok tt)
        end
    end.

(** [delete_api_key] knows four providers; ["gemini"] is not among them. *)
Definition deletable_providers : list str :=
  [lit "openai"; lit "claude"; lit "groq"; lit "ollama"].

Definition delete_api_key (provider : str) (d : db) : db * outcome unit :=
  if negb (mem provider deletable_providers) then
    (d, Raise (ValueError (lit "Invalid provider: " ++ provider)))
  else
    let api_key_name :=
      if str_eqb provider (lit "openai") then openaiApiKey
      else if str_eqb provider (lit "claude") then anthropicApiKey
      else if str_eqb provider (lit "groq") then groqApiKey
      else ollamaApiKey in
    let (t, _) := sql_update settings_1 (set_key api_key_name None)
                             (settings d) in
    (with_settings d t, Ok tt).




(** The key column of [transcript_settings] that belongs to a provider. *)
Inductive transcript_key_column :=
| whisperApiKey
| deepgramApiKey
| elevenLabsApiKey
| ts_groq
| ts_openai.

Definition transcript_provider_list : list str :=
  [lit "localWhisper"; lit "deepgram"; lit "elevenLabs"; lit "groq";
   lit "openai"].

Definition transcript_api_key_name (provider : str)
  : outcome transcript_key_column :=
  if negb (mem provider transcript_provider_list) then
    Raise (ValueError (lit "Invalid provider: " ++ provider))
  else if str_eqb provider (lit "localWhisper") then Ok whisperApiKey
  else if str_eqb provider (lit "deepgram") then Ok deepgramApiKey
  else if str_eqb provider (lit "elevenLabs") then Ok elevenLabsApiKey
  else if str_eqb provider (lit "groq") then Ok ts_groq
  else Ok ts_openai.

Definition get_transcript_key (c : transcript_key_column)
  (r : transcript_settings_row) : option str :=
  match c with
  | whisperApiKey => ts_whisperApiKey r
  | deepgramApiKey => ts_deepgramApiKey r
  | elevenLabsApiKey => ts_elevenLabsApiKey r
  | ts_groq => ts_groqApiKey r
  | ts_openai => ts_openaiApiKey r
  end.

Definition set_transcript_key (c : transcript_key_column) (v : option str)
  (r : transcript_settings_row) : transcript_settings_row :=
  {| ts_id := ts_id r;
     ts_provider := ts_provider r;
     ts_model := ts_model r;
     ts_whisperApiKey :=
       match c with whisperApiKey => v | _ => ts_whisperApiKey r end;
     ts_deepgramApiKey :=
       match c with deepgramApiKey => v | _ => ts_deepgramApiKey r end;
     ts_elevenLabsApiKey :=
       match c with elevenLabsApiKey => v | _ => ts_elevenLabsApiKey r end;
     ts_groqApiKey := match c with ts_groq => v | _ => ts_groqApiKey r end;
     ts_openaiApiKey :=
       match c with ts_openai => v | _ => ts_openaiApiKey r end |}.

Definition transcript_settings_1 (r : transcript_settings_row) : bool :=
  str_eqb (ts_id r) (lit "1").

Definition get_transcript_config (s : full_db) : pyrow :=
  match fetchone (transcript_settings s) with
  | Some row =>
      [ (lit "provider", SqlText (ts_provider row));
        (lit "model", SqlText (ts_model row)) ]
  | None =>
      [ (lit "provider", SqlText (lit "localWhisper"));
        (lit "model", SqlText (lit "large-v3")) ]
  end.

Definition set_transcript_config (provider model : str)
  (r : transcript_settings_row) : transcript_settings_row :=
  {| ts_id := ts_id r;
     ts_provider := provider;
     ts_model := model;
     ts_whisperApiKey := ts_whisperApiKey r;
     ts_deepgramApiKey := ts_deepgramApiKey r;
     ts_elevenLabsApiKey := ts_elevenLabsApiKey r;
     ts_groqApiKey := ts_groqApiKey r;
     ts_openaiApiKey := ts_openaiApiKey r |}.

Definition new_transcript_settings (provider model : str)
  : transcript_settings_row :=
  {| ts_id := lit "1"; ts_provider := provider; ts_model := model;
     ts_whisperApiKey := None; ts_deepgramApiKey := None;
     ts_elevenLabsApiKey := None; ts_groqApiKey := None;
     ts_openaiApiKey := None |}.

Definition save_transcript_config (provider model : str) (s : full_db)
  : full_db * outcome unit :=
  if negb (truthy provider) || negb (truthy (strip provider)) then
    (s, Raise (ValueError (lit "Provider cannot be empty")))
  else if negb (truthy model) || negb (truthy (strip model)) then
    (s, Raise (ValueError (lit "Model cannot be empty")))
  else
    match fetchone (transcript_settings s) with
    | Some _ =>
        let (t, _) :=
          sql_update transcript_settings_1 (set_transcript_config provider model)
                     (transcript_settings s) in
        (with_transcript_settings s t, Ok tt)
    | None =>
        match sql_insert ts_id (new_transcript_settings provider model)
                         (transcript_settings s) with
        | Raise e => (s, Raise e)
        | Ok t => (with_transcript_settings s t, Ok tt)
        end
    end.

Definition save_transcript_api_key (api_key : option str) (provider : str)
  (s : full_db) : full_db * outcome unit :=
  match transcript_api_key_name provider with
  | Raise e => (s, Raise e)
  | Ok column =>
      match fetchone (sql_select transcript_settings_1
                                 (transcript_settings s)) with
      | Some _ =>
          let (t, _) :=
            sql_update transcript_settings_1
                       (set_transcript_key column api_key)
                       (transcript_settings s) in
          (with_transcript_settings s t, Ok tt)
      | None =>
          match sql_insert ts_id
                  (set_transcript_key column api_key
                     (new_transcript_settings (lit "localWhisper")
                                              (lit "large-v3")))
                  (transcript_settings s) with
          | Raise e => (s, Raise e)
          | Ok t => (with_transcript_settings s t, Ok tt)
          end
      end
  end.

Definition get_transcript_api_key (provider : str) (s : full_db)
  : outcome str :=
  column <- transcript_api_key_name provider ;;
  match fetchone (sql_select transcript_settings_1 (transcript_settings s)) with
  | Some r =>
      match get_transcript_key column r with
      | Some (c :: k) => Ok (c :: k)
      | _ => Ok []
      end
  | None => Ok []
  end.

End Meetings.
Import Meetings.

(** ** [TranscriptProcessor]: quality gate, dispatch and the two pipelines *)

Module Pipeline.

Inductive block_type := bt_bullet | bt_heading1 | bt_heading2 | bt_text.

Record Block := {
  block_id : str;
  block_kind : block_type;
  block_content : str;
  block_color : str
}.

(** The models [Section] and [People]: a title and its blocks. *)
Record SectionModel := {
  section_title : str;
  section_blocks : list Block
}.

Record MeetingNotesModel := {
  meeting_name : str;
  sections : list SectionModel
}.

Record SummaryResponse := {
  MeetingName : str;
  People : SectionModel;
  SessionSummary : SectionModel;
  CriticalDeadlines : SectionModel;
  KeyItemsDecisions : SectionModel;
  ImmediateActionItems : SectionModel;
  NextSteps : SectionModel;
  MeetingNotes : MeetingNotesModel
}.

Definition placeholder_patterns : list str :=
  [lit "No blocker"; lit "None"; lit "TBD"; lit "N/A"; lit "Transcript Chunk"].

(** The placeholder warnings of one block, for the section named [where]. *)
Definition placeholder_warnings (where_ : str) (block : Block) : list str :=
  let content_lower := lower (block_content block) in
  flat_map
    (fun pattern =>
       if contains content_lower (lower pattern) then
         [lit "Found placeholder '" ++ pattern ++ lit "' in " ++ where_
          ++ lit ": " ++ slice (block_content block) None (Some 100)]
       else [])
    placeholder_patterns.

Definition short_content_warning (block : Block) : list str :=
  if negb (truthy (block_content block))
     || (len (strip (block_content block)) <? 10)
  then [lit "Action item has very short or empty content: "
        ++ block_content block]
  else [].

(** [_validate_summary_quality]; a model instance is always truthy. *)
Definition _validate_summary_quality (summary : SummaryResponse) : list str :=
  flat_map
    (fun block =>
       placeholder_warnings (lit "ImmediateActionItems") block
       ++ short_content_warning block)
    (section_blocks (ImmediateActionItems summary))
  ++ flat_map (placeholder_warnings (lit "NextSteps"))
       (section_blocks (NextSteps summary)).

Definition low_capacity_markers : list str :=
  [lit "0.5b"; lit "0_5b"; lit "1b"; lit "1.1b"; lit "tiny"; lit "mini";
   lit "small"].

Definition _is_low_capacity_model (model_name : str) : bool :=
  let lowered := lower model_name in
  existsb (fun marker => contains lowered marker) low_capacity_markers.

Definition gemini_key_missing : str :=
  lit "Gemini API key is not configured. Options: 1) Save the API key in the frontend settings (it will sync to backend), 2) Set GOOGLE_API_KEY environment variable, 3) Call POST /save-model-config with the API key.".

(** The provider selection both pipelines start with: it returns normally
    when the provider is known and, unless it is ["ollama"], a key is found.
    [google_api_key] is the value of [os.getenv("GOOGLE_API_KEY", "")]. *)
Definition select_provider (google_api_key model : str) (d : db)
  : outcome unit :=
  if str_eqb model (lit "claude") then
    api_key <- get_api_key (lit "claude") d ;;
    if negb (truthy api_key)
    then Raise (ValueError
                  (lit "ANTHROPIC_API_KEY environment variable not set"))
    else Ok tt
  else if str_eqb model (lit "ollama") then Ok tt
  else if str_eqb model (lit "gemini") then
    api_key <- get_api_key (lit "gemini") d ;;
    let api_key := if negb (truthy api_key) then google_api_key else api_key in
    if negb (truthy api_key) then Raise (ValueError gemini_key_missing)
    else Ok tt
  else if str_eqb model (lit "groq") then
    api_key <- get_api_key (lit "groq") d ;;
    if negb (truthy api_key)
    then Raise (ValueError (lit "GROQ_API_KEY environment variable not set"))
    else Ok tt
  else if str_eqb model (lit "openai") then
    api_key <- get_api_key (lit "openai") d ;;
    if negb (truthy api_key)
    then Raise (ValueError (lit "OPENAI_API_KEY environment variable not set"))
    else Ok tt
  else Raise (ValueError (lit "Unsupported model provider: " ++ model)).

(** What the body of the per-chunk [try] block comes to: a summary, a result
    of another type (the chunk is skipped), or an exception. *)
Inductive chunk_attempt :=
| Summarized (summary : SummaryResponse)
| UnexpectedResult
| ChunkError (e : exn).

Section ProcessTranscript.

(** The model call on one chunk with the custom prompt, and the JSON dump of
    a summary: both belong to the model provider and to pydantic. *)
Variable run_chunk : str -> str -> chunk_attempt.
Variable model_dump_json : SummaryResponse -> str.

(** One turn of the loop over the chunks: what is appended to
    [all_json_data]. *)
Definition process_chunk (custom_prompt chunk : str) : list str :=
  match run_chunk chunk custom_prompt with
  | Summarized final_summary_pydantic =>
      [model_dump_json final_summary_pydantic]
  | UnexpectedResult => []
  | ChunkError _ => []
  end.

Definition process_transcript (google_api_key text model model_name : str)
  (chunk_size overlap : Z) (custom_prompt : str) (d : db)
  : outcome (Z * list str) :=
  _ <- select_provider google_api_key model d ;;
  let (chunk_size, overlap) :=
    provider_chunking model model_name chunk_size overlap in
  chunks <- split_chunks text chunk_size overlap ;;
  let num_chunks := len chunks in
  Ok (num_chunks, flat_map (process_chunk custom_prompt) chunks).

End ProcessTranscript.

(** How [agent.run] on the extraction prompt ends: with the tasks of the
    response, or with an exception, of which the handler looks at the class
    and at [str(e)]. *)
Inductive agent_failure := {
  is_unexpected_model_behavior : bool;
  error_str : str
}.

Inductive agent_result :=
| AgentTasks (tasks : list JiraTaskSuggestion)
| AgentFailed (e : agent_failure).

(** [str(e)] of an exception raised by the provider selection: these are
    [ValueError]s, whose text is their message. *)
Definition exn_str (e : exn) : str :=
  match e with
  | ValueError msg => msg
  | TypeError msg => msg
  | IntegrityError msg => msg
  | ValidationError errors => join [LF] errors
  end.

(** How [extract_jira_tasks] ends. *)
Inductive extraction :=
| Extracted (tasks : list JiraTaskSuggestion)
| FormatError (e : exn)
| Reraised (e : agent_failure).

Section ExtractJiraTasks.

(** [_fallback_extract_with_ollama model_name text]: the second request to
    the local model and the parsing of its answer. *)
Variable _fallback_extract_with_ollama
  : str -> str -> outcome (option (list JiraTaskSuggestion)).

Definition _attempt_low_capacity_fallback (model_provider model_name text : str)
  : option (list JiraTaskSuggestion) :=
  if negb (str_eqb model_provider (lit "ollama")) then None
  else if negb (_is_low_capacity_model model_name) then None
  else
    match _fallback_extract_with_ollama model_name text with
    | Ok tasks => tasks
    | Raise _ => None
    end.

Definition format_error (model model_name : str) : exn :=
  let model_hint :=
    if str_eqb model (lit "ollama") && contains (lower model_name) (lit "1b")
    then lit " The model '" ++ model_name
         ++ lit "' may be too small for structured task extraction. Consider using a larger model like 'llama3.2:3b' or 'qwen2.5:7b'."
    else [] in
  ValueError
    (lit "Model failed to generate properly formatted task data after multiple attempts."
     ++ model_hint
     ++ lit " This usually means the model couldn't follow the required JSON structure. Try using a larger or more capable model.").

(** The [except] block of [extract_jira_tasks]. *)
Definition on_extraction_error (e : agent_failure) (text model model_name : str)
  : extraction :=
  let fallback_tasks :=
    if is_unexpected_model_behavior e
    then _attempt_low_capacity_fallback model model_name text
    else None in
  match fallback_tasks with
  | Some tasks => Extracted tasks
  | None =>
      if contains (error_str e) (lit "Exceeded maximum retries")
         || contains (error_str e) (lit "UnexpectedModelBehavior")
      then FormatError (format_error model model_name)
      else Reraised e
  end.

(** [extract_jira_tasks]: [agent] is the outcome of running the agent on the
    prompt built from the text and the project context. *)
Definition extract_jira_tasks (google_api_key : str) (agent : agent_result)
  (text model model_name : str) (d : db) : extraction :=
  match select_provider google_api_key model d with
  | Raise e =>
      on_extraction_error
        {| is_unexpected_model_behavior := false; error_str := exn_str e |}
        text model model_name
  | Ok _ =>
      match agent with
      | AgentTasks tasks => Extracted (_post_process_tasks tasks)
      | AgentFailed e => on_extraction_error e text model model_name
      end
  end.

End ExtractJiraTasks.

End Pipeline.
Import Pipeline.

(** * Vocabulary of the properties

    Predicates and reference definitions used to state the properties, and
    the concrete stores and values they are tried on. *)

Module Vocabulary.

(** A stripped string: no whitespace at either end. *)
Definition stripped (s : str) : Prop := lstrip s = s /\ rstrip s = s.

(** What the summary validator accepts, stated on its result. *)
Definition good_summary (s : str) : Prop :=
  stripped s /\ 10 <= len s /\ 2 <= len (split s)
  /\ len (split s) <= 2 * len (filter valid_word (split s)).

Definition good_description (s : str) : Prop := stripped s /\ 20 <= len s.

(** A task suggestion that came out of the constructor, hence passed the
    field validators. *)
Definition constructed (t : JiraTaskSuggestion) : Prop :=
  exists summary description priority type assignee assignee_account_id
         labels related_issues,
    new_JiraTaskSuggestion summary description priority type assignee
                           assignee_account_id labels related_issues
    = Ok t.

(** The JSON text [update_process] writes for a dict argument: none when the
    argument is falsy, and none when it cannot be serialized. *)
Definition json_written (o : option pydict) : option str :=
  if truthy_dict o then
    match dumps (PyDict (match o with Some m => m | None => [] end)) with
    | Ok j => Some j
    | Raise _ => None
    end
  else None.

Definition or_keep {A : Type} (new : option A) (old : option A) : option A :=
  match new with Some v => Some v | None => old end.

(** The partial update of the specification (section 4.1), written out:
    the row a call is expected to leave, given the texts written for
    [result] and [metadata]. *)
Definition partial_update (now status : str) (result_json : option str)
  (error : option str) (chunk_count : option Z)
  (processing_time : option float) (metadata_json : option str)
  (r : process_row) : process_row :=
  {| p_meeting_id := p_meeting_id r;
     p_status := status;
     p_created_at := p_created_at r;
     p_updated_at := now;
     p_error :=
       match error with
       | Some (c :: e) => Some (sanitize_error (c :: e))
       | _ => p_error r
       end;
     p_result := or_keep result_json (p_result r);
     p_start_time := p_start_time r;
     p_end_time :=
       if mem (upper status) [lit "COMPLETED"; lit "FAILED"]
       then Some now else p_end_time r;
     p_chunk_count := or_keep chunk_count (p_chunk_count r);
     p_processing_time := or_keep processing_time (p_processing_time r);
     p_metadata := or_keep metadata_json (p_metadata r) |}.

(** The columns the falsy-means-absent rule protects. *)
Definition same_payload (r r' : process_row) : Prop :=
  p_meeting_id r' = p_meeting_id r /\ p_result r' = p_result r
  /\ p_error r' = p_error r /\ p_metadata r' = p_metadata r.

(** The columns an absent [chunk_count] and [processing_time] leave alone. *)
Definition same_counters (r r' : process_row) : Prop :=
  p_chunk_count r' = p_chunk_count r
  /\ p_processing_time r' = p_processing_time r.

(** Ascending order of segments by timestamp. *)
Definition by_timestamp (a b : transcript_row) : Prop :=
  text_leb (t_timestamp a) (t_timestamp b) = true.

(** The blob of the meeting that [get_transcript_data] looks at has no text:
    there is no blob, or its text is empty. *)
Definition no_blob_text (id : str) (d : db) : Prop :=
  sql_select (blob_for id) (transcript_chunks d) = []
  \/ exists t rest,
       sql_select (blob_for id) (transcript_chunks d) = t :: rest
       /\ c_transcript_text t = [].

(** A store with one pending process, for the meeting ["m1"]. *)
Definition one_process : db :=
  fst (create_process (lit "2025-01-01T10:00:00") (lit "m1") empty_db).

(** A dict that [json.dumps] rejects: [{"k": set()}]. *)
Definition unserializable : pydict := [(PyStr (lit "k"), PyOpaque (lit "set"))].

(** Three segments of the meeting ["m1"], the second with empty text. *)
Definition segment (text timestamp : str) : transcript_row :=
  {| t_id := None; t_meeting_id := lit "m1"; t_transcript := text;
     t_timestamp := timestamp; t_summary := Some []; t_action_items := Some [];
     t_key_points := Some []; t_audio_start_time := None;
     t_audio_end_time := None; t_duration := None |}.

Definition segments_with_gap : db :=
  {| summary_processes := []; transcript_chunks := [];
     transcripts := [ segment (lit "b") (lit "2025-01-01T10:02:00Z");
                      segment [] (lit "2025-01-01T10:01:00Z");
                      segment (lit "a") (lit "2025-01-01T10:00:00Z") ];
     settings := []; jira_settings := [] |}.

(** A store with a blob for ["m1"] next to the three segments. *)
Definition blob_row : chunk_row :=
  {| c_meeting_id := lit "m1"; c_meeting_name := None;
     c_transcript_text := lit "full text"; c_model := lit "openai";
     c_model_name := lit "gpt-4o"; c_chunk_size := Some 5000;
     c_overlap := Some 1000; c_created_at := lit "2025-01-01T10:03:00" |}.

Definition blob_and_segments : db :=
  with_transcript_chunks segments_with_gap [blob_row].

(** A store whose settings hold an OpenAI key. *)
Definition with_openai_key : db :=
  fst (save_api_key (Some (lit "sk-live")) (lit "openai") empty_db).

(** A store with a Jira configuration. *)
Definition with_jira : db :=
  fst (save_jira_config (lit "https://example.atlassian.net")
         (lit "dev@example.com") (Some (lit "token-1")) None None empty_db).

(** The task of the example: summary "bug in login flow", type "epic". *)
Definition epic_task : JiraTaskSuggestion :=
  {| summary := lit "bug in login flow";
     description := lit "The login flow fails for some users on submit";
     priority := lit "Low";
     type := lit "Epic";
     assignee := lit "Unassigned";
     assignee_account_id := None;
     labels := None;
     related_issues := None |}.

End Vocabulary.
Import Vocabulary.

(** * Vocabulary of the further properties *)

Module Vocabulary2.

(** The key [get_api_key] finds in a column: empty when there is no
    settings row or no key. *)
Definition stored_key (c : api_key_column) (d : db) : str :=
  match fetchone (sql_select settings_1 (settings d)) with
  | Some r => match get_key c r with Some k => k | None => [] end
  | None => []
  end.

(** The stride of the chunking in [process_transcript], after the provider
    has fixed the chunk parameters. *)
Definition stride_of (model model_name : str) (chunk_size overlap : Z) : Z :=
  let (c, o) := provider_chunking model model_name chunk_size overlap in
  chunk_step c o.

(** The fields [_post_process_tasks] passes on as they are. *)
Definition same_assignment (t t' : JiraTaskSuggestion) : Prop :=
  assignee t' = assignee t
  /\ assignee_account_id t' = assignee_account_id t
  /\ labels t' = labels t
  /\ related_issues t' = related_issues t.

(** The test of [_post_process_tasks] for a severe description. *)
Definition severe (description : str) : bool :=
  contains (lower description) (lit "outage")
  || contains (lower description) (lit "blocking")
  || contains (lower description) (lit "down")
  || contains (lower description) (lit "500").

(** A summary whose first word is an action verb and whose first character
    is a capital letter. *)
Definition verb_first (summary : str) : Prop :=
  mem (first_word summary) action_verbs = true
  /\ exists c rest, summary = c :: rest /\ isupper c = true.

(** A task whose summary [_post_process_tasks] accepts. *)
Definition accepted (t : JiraTaskSuggestion) : bool :=
  _is_valid_english (strip (summary t)).

(** A table whose values are stripped and map to themselves. *)
Definition self_mapped (table : list (str * str)) : Prop :=
  Forall (fun kv => table_get table (lower (snd kv)) (snd kv) = snd kv
                    /\ strip (snd kv) = snd kv) table.

(** A block content in which no placeholder pattern occurs, whatever the
    case of its letters. *)
Definition placeholder_free (content : str) : Prop :=
  forall pattern, In pattern placeholder_patterns ->
                  contains (lower content) (lower pattern) = false.

(** The exception of [agent.run] is an [UnexpectedModelBehavior]. *)
Definition unexpected_behavior (agent : agent_result) : bool :=
  match agent with
  | AgentTasks _ => false
  | AgentFailed e => is_unexpected_model_behavior e
  end.

(** The settings table as its writers leave it: no row, or the one row
    with id ["1"]. *)
Definition single_settings (d : db) : Prop :=
  settings d = [] \/ exists r, settings d = [r] /\ s_id r = lit "1".

(** The text a nullable key reads as. *)
Definition key_text (api_key : option str) : str :=
  match api_key with Some k => k | None => [] end.

(** The row [save_meeting] inserts. *)
Definition new_meeting (now meeting_id title : str) (folder_path : option str)
  : meeting_row :=
  {| m_id := meeting_id; m_title := title; m_created_at := now;
     m_updated_at := now; m_folder_path := folder_path |}.

(** A meeting as [get_meeting] shows it, with one more segment at the end. *)
Definition with_segment (sv : segment_view) (v : meeting_view)
  : meeting_view :=
  {| mv_id := mv_id v; mv_title := mv_title v;
     mv_created_at := mv_created_at v; mv_updated_at := mv_updated_at v;
     mv_transcripts := mv_transcripts v ++ [sv] |}.

(** A meeting as [get_meeting] shows it, after a change of title. *)
Definition retitled (title now : str) (v : meeting_view) : meeting_view :=
  {| mv_id := mv_id v; mv_title := title;
     mv_created_at := mv_created_at v; mv_updated_at := now;
     mv_transcripts := mv_transcripts v |}.


(** Latest first, on the entries of [get_all_meetings]. *)
Definition latest_first (a b : str * str * str) : Prop :=
  text_leb (snd b) (snd a) = true.

(** The key [get_transcript_api_key] finds in a column. *)
Definition stored_transcript_key (c : transcript_key_column) (s : full_db)
  : str :=
  match fetchone (sql_select transcript_settings_1 (transcript_settings s)) with
  | Some r => key_text (get_transcript_key c r)
  | None => []
  end.

(** What [update_process] may change in a row and what it may not. *)
Definition process_step (now meeting_id status : str) (r r' : process_row)
  : Prop :=
  p_meeting_id r' = p_meeting_id r
  /\ p_created_at r' = p_created_at r
  /\ p_start_time r' = p_start_time r
  /\ (p_meeting_id r <> meeting_id -> r' = r)
  /\ (p_meeting_id r = meeting_id ->
      p_end_time r'
      = if mem (upper status) [lit "COMPLETED"; lit "FAILED"]
        then Some now else p_end_time r).

End Vocabulary2.
Import Vocabulary2.

(** * Properties *)

(** ** Facts about the built-ins *)

Section PyFacts.

Lemma str_eqb_eq (a b : str) : str_eqb a b = true <-> a = b.
Proof.
  revert b; induction a as [|x a IH]; intros [|y b]; simpl; split;
    try congruence; try reflexivity.
  - intros H. apply andb_true_iff in H as [Hxy Hab].
    apply Ascii.eqb_eq in Hxy. apply IH in Hab. congruence.
  - intros H. injection H as -> ->. apply andb_true_iff; split.
    + apply Ascii.eqb_refl.
    + now apply IH.
Qed.

Lemma str_eqb_refl (a : str) : str_eqb a a = true.
Proof. now apply str_eqb_eq. Qed.

Lemma str_eqb_neq (a b : str) : str_eqb a b = false <-> a <> b.
Proof.
  split.
  - intros H E. apply str_eqb_eq in E. congruence.
  - intros H. destruct (str_eqb a b) eqn:E; [|reflexivity].
    apply str_eqb_eq in E. contradiction.
Qed.

Lemma len_nonneg {A : Type} (l : list A) : 0 <= len l.
Proof. unfold len. lia. Qed.

Lemma len_app {A : Type} (l l' : list A) : len (l ++ l') = len l + len l'.
Proof. unfold len. rewrite length_app. lia. Qed.

Lemma len_cons {A : Type} (x : A) (l : list A) : len (x :: l) = len l + 1.
Proof. unfold len. cbn [List.length]. lia. Qed.

Lemma truthy_true (s : str) : truthy s = true <-> s <> [].
Proof. destruct s; simpl; split; congruence. Qed.

Lemma truthy_false (s : str) : truthy s = false <-> s = [].
Proof. destruct s; simpl; split; congruence. Qed.

Lemma in_firstn {A : Type} (n : nat) (l : list A) (x : A) :
  In x (firstn n l) -> In x l.
Proof.
  intros H. rewrite <- (firstn_skipn n l). apply in_or_app. now left.
Qed.

End PyFacts.

(** ** The embedding on small inputs *)

Section Examples.

Example split_example :
  split (lit "  ab  cd e ") = [lit "ab"; lit "cd"; lit "e"].
Proof. reflexivity. Qed.

Example strip_example : strip (LF :: lit "  a b " ++ [CR]) = lit "a b".
Proof. reflexivity. Qed.

Example slice_example :
  slice (lit "abcdef") (Some 2) (Some (-1)) = lit "cde"
  /\ slice (lit "abc") None (Some (-3)) = []
  /\ slice (lit "abc") (Some 2) (Some 10) = lit "c".
Proof. repeat split. Qed.

Example range_example :
  range 0 7 3 = Ok [0; 3; 6] /\ range 0 7 (-5) = Ok [] /\ range 0 6 3 = Ok [0; 3].
Proof. repeat split. Qed.

Example split_chunks_example :
  split_chunks (lit "abcdefg") 3 1
  = Ok [lit "abc"; lit "cde"; lit "efg"; lit "g"].
Proof. reflexivity. Qed.

Example dumps_example :
  dumps (PyDict [ (PyStr (lit "a"), PyList [PyInt (-12); PyNone]);
                  (PyInt 3, PyBool true) ])
  = Ok (lit "{" ++ quote (lit "a") ++ lit ": [-12, null], "
        ++ quote (lit "3") ++ lit ": true}").
Proof. reflexivity. Qed.

Example dumps_rejects_set :
  dumps (PyDict [(PyStr (lit "k"), PyOpaque (lit "set"))])
  = Raise (TypeError (lit "Object of type set is not JSON serializable")).
Proof. reflexivity. Qed.

Example is_valid_english_examples :
  _is_valid_english (lit "xqz vbnm") = false
  /\ _is_valid_english (lit "Fix the login bug") = true.
Proof. vm_compute. split; reflexivity. Qed.

Example fix_priority_example :
  fix_priority (lit "Low") (lit "Payments outage since the last deploy")
  = lit "High".
Proof. reflexivity. Qed.

Example validate_type_examples :
  validate_type (lit " epic ") = lit "Epic"
  /\ validate_type (lit "Defect") = lit "Bug"
  /\ validate_type (lit "Spike") = lit "Spike".
Proof. repeat split. Qed.

End Examples.

(** ** Chunking *)

Section ChunkingFacts.

Lemma range_length_positive (n step : Z) :
  0 < n -> 0 < step ->
  let k := range_length 0 n step in
  0 < k /\ (k - 1) * step < n <= k * step.
Proof.
  intros Hn Hs. unfold range_length.
  destruct (0 <? step) eqn:E1; [|lia].
  destruct (0 <? n) eqn:E2; [|lia].
  replace (n - 0 - 1) with (n - 1) by lia.
  pose proof (Z.div_pos (n - 1) step ltac:(lia) Hs).
  pose proof (Z.mul_div_le (n - 1) step Hs).
  pose proof (Z.mul_succ_div_gt (n - 1) step Hs).
  cbv zeta. nia.
Qed.

Lemma chunk_step_clamped (chunk_size overlap : Z) :
  0 < chunk_size -> chunk_size <= overlap ->
  chunk_step chunk_size overlap = Z.min chunk_size 100.
Proof.
  intros Hc Ho. unfold chunk_step.
  destruct (chunk_size - overlap <=? 0) eqn:E; lia.
Qed.

End ChunkingFacts.

(** C2, as stated, at [chunk_size = 0], [overlap = 0] and the one-character
    text ["a"]: the overlap is not below the chunk size and the text is not
    empty, yet the recomputed stride is [0], [range] raises, and no chunk is
    produced.  With a negative chunk size the stride stays negative and the
    list of chunks is empty. *)
Lemma chunking_nonpositive_chunk_size :
  (0 >= 0 /\ lit "a" <> []) /\
  chunk_step 0 0 = 0 /\
  split_chunks (lit "a") 0 0
    = Raise (ValueError (lit "range() arg 3 must not be zero")) /\
  chunk_step (-5) 0 = -5 /\
  split_chunks (lit "a") (-5) 0 = Ok [].
Proof. repeat split; try reflexivity; try lia; discriminate. Qed.

(** C2 (amended): for a positive chunk size, an overlap that is not below
    it, and a non-empty text, the stride used is [min chunk_size 100], hence
    strictly positive; the chunking returns, with at least one chunk; and the
    chunks are the windows [text[i:i+chunk_size]] for [i = 0, step, 2*step,
    ...], the last index being the last one below [len text]. *)
Theorem chunking_terminates_with_chunks
  (text : str) (chunk_size overlap : Z) :
  0 < chunk_size -> chunk_size <= overlap -> text <> [] ->
  let step := chunk_step chunk_size overlap in
  step = Z.min chunk_size 100 /\ 0 < step /\
  exists n : nat,
    (0 < n)%nat /\
    (Z.of_nat n - 1) * step < len text <= Z.of_nat n * step /\
    split_chunks text chunk_size overlap
      = Ok (map (fun k => slice text (Some (Z.of_nat k * step))
                               (Some (Z.of_nat k * step + chunk_size)))
                (seq 0 n)).
Proof.
  intros Hc Ho Ht step.
  assert (Hstep : step = Z.min chunk_size 100)
    by (apply chunk_step_clamped; assumption).
  assert (Hpos : 0 < step) by lia.
  assert (Hlen : 0 < len text).
  { destruct text; [congruence|]. unfold len. simpl. lia. }
  destruct (range_length_positive (len text) step Hlen Hpos) as [Hk Hb].
  split; [exact Hstep|]. split; [exact Hpos|].
  exists (Z.to_nat (range_length 0 (len text) step)).
  split; [lia|]. split; [rewrite Z2Nat.id by lia; exact Hb|].
  unfold split_chunks, range. fold step.
  destruct (step =? 0) eqn:E; [lia|].
  rewrite map_map. reflexivity.
Qed.

Lemma chunking_terminates_with_chunks_witness :
  let step := chunk_step 3 5 in
  step = Z.min 3 100 /\ 0 < step /\
  exists n : nat,
    (0 < n)%nat /\
    (Z.of_nat n - 1) * step < len (lit "abcdefg") <= Z.of_nat n * step /\
    split_chunks (lit "abcdefg") 3 5
      = Ok (map (fun k => slice (lit "abcdefg") (Some (Z.of_nat k * step))
                               (Some (Z.of_nat k * step + 3)))
                (seq 0 n)).
Proof.
  apply (chunking_terminates_with_chunks (lit "abcdefg") 3 5).
  - lia.
  - lia.
  - discriminate.
Defined.

(** ** Update-then-insert on a keyed table *)

Section Upsert.
Context {row : Type}.
Variable key : row -> str.
Variable set_ : row -> row.
Variable k : str.
Hypothesis set_keeps_key : forall r, key (set_ r) = key r.

Let where_ (r : row) : bool := str_eqb (key r) k.
Let updated (t : list row) : list row :=
  map (fun r => if where_ r then set_ r else r) t.

Lemma update_keys (t : list row) : map key (updated t) = map key t.
Proof.
  unfold updated. rewrite map_map. apply map_ext. intros r.
  destruct (where_ r); [apply set_keeps_key|reflexivity].
Qed.

Lemma update_length (t : list row) : List.length (updated t) = List.length t.
Proof. unfold updated. apply length_map. Qed.

Lemma update_select (t : list row) :
  filter where_ (updated t) = map set_ (filter where_ t).
Proof.
  induction t as [|r t IH]; [reflexivity|]. unfold updated in *. simpl.
  destruct (where_ r) eqn:E; simpl.
  - unfold where_ in *. rewrite set_keeps_key, E. simpl. now rewrite IH.
  - rewrite E. exact IH.
Qed.

Lemma update_no_match (t : list row) :
  filter where_ t = [] -> updated t = t.
Proof.
  induction t as [|r t IH]; [reflexivity|]. unfold updated in *. simpl.
  destruct (where_ r) eqn:E; [discriminate|].
  intros H. now rewrite IH.
Qed.

Lemma update_others (t : list row) (r : row) :
  key r <> k -> In r t <-> In r (updated t).
Proof.
  intros Hk. unfold updated. rewrite in_map_iff. split.
  - intros Hin. exists r. split; [|exact Hin].
    unfold where_. apply str_eqb_neq in Hk. now rewrite Hk.
  - intros [r0 [E Hin]]. destruct (where_ r0) eqn:W.
    + exfalso. apply Hk. rewrite <- E, set_keeps_key.
      now apply str_eqb_eq.
    + now subst.
Qed.

Lemma count_zero (t : list row) :
  sql_count where_ t = 0 <-> filter where_ t = [].
Proof.
  unfold sql_count, len. destruct (filter where_ t); simpl; split;
    intros; try reflexivity; try lia; discriminate.
Qed.

Lemma no_match_no_key (t : list row) (r : row) :
  key r = k -> filter where_ t = [] ->
  existsb (fun r' => str_eqb (key r') (key r)) t = false.
Proof.
  intros Hk. rewrite Hk.
  induction t as [|x t IH]; [reflexivity|]. simpl.
  fold (where_ x). destruct (where_ x); [discriminate|].
  exact IH.
Qed.

Lemma no_match_not_in (t : list row) :
  filter where_ t = [] -> ~ In k (map key t).
Proof.
  intros H Hin. apply in_map_iff in Hin as [r [Hr Hin]].
  assert (In r (filter where_ t)).
  { apply filter_In. split; [exact Hin|]. now apply str_eqb_eq. }
  rewrite H in *. contradiction.
Qed.

(** Under the primary key a [WHERE key = k] clause matches at most one row. *)
Lemma select_unique (t : list row) :
  NoDup (map key t) ->
  filter where_ t = [] \/ exists r, filter where_ t = [r].
Proof.
  induction t as [|x t IH]; [now left|]. simpl. intros Hnd.
  inversion Hnd as [|? ? Hnotin Hnd']; subst.
  destruct (where_ x) eqn:E.
  - right. exists x. f_equal.
    destruct (filter where_ t) as [|y l] eqn:F; [reflexivity|].
    exfalso. apply Hnotin.
    assert (Hy : In y (filter where_ t)) by (rewrite F; now left).
    apply filter_In in Hy as [Hy Wy].
    apply str_eqb_eq in E. apply str_eqb_eq in Wy.
    apply in_map_iff. exists y. split; [congruence|exact Hy].
  - apply IH. exact Hnd'.
Qed.

Lemma select_app (t : list row) (r : row) :
  key r = k -> filter where_ (t ++ [r]) = filter where_ t ++ [r].
Proof.
  intros Hk. rewrite filter_app. simpl.
  unfold where_ at 2. rewrite Hk, str_eqb_refl. reflexivity.
Qed.

Lemma insert_keeps_key (t : list row) (r : row) :
  NoDup (map key t) -> ~ In (key r) (map key t) ->
  NoDup (map key (t ++ [r])).
Proof.
  intros Hnd Hnotin. rewrite map_app. simpl.
  apply NoDup_app; [exact Hnd|repeat constructor; intros []|].
  intros x Hx [E|[]]. subst. contradiction.
Qed.

End Upsert.

(** ** Summary Process bookkeeping *)

Section ProcessFacts.

Lemma reset_keeps_key (now : str) (r : process_row) :
  p_meeting_id (reset_process now r) = p_meeting_id r.
Proof. reflexivity. Qed.

(** One call of [create_process] on a table that respects its primary key:
    it returns the meeting id, and either there was no row for the meeting
    and the new row is appended, or the one row is reset in place. *)
Lemma create_process_spec (now id : str) (d : db) :
  NoDup (map p_meeting_id (summary_processes d)) ->
  exists d',
    create_process now id d = (d', Ok id) /\
    NoDup (map p_meeting_id (summary_processes d')) /\
    (forall r, p_meeting_id r <> id ->
               In r (summary_processes d) <-> In r (summary_processes d')) /\
    ((sql_select (for_meeting id) (summary_processes d) = [] /\
      sql_select (for_meeting id) (summary_processes d')
        = [new_process now id])
     \/
     (exists r,
        sql_select (for_meeting id) (summary_processes d) = [r] /\
        List.length (summary_processes d')
          = List.length (summary_processes d) /\
        sql_select (for_meeting id) (summary_processes d')
          = [reset_process now r])).
Proof.
  intros Hnd. unfold create_process, sql_update, sql_select, for_meeting.
  set (t := summary_processes d) in *.
  set (t1 := map _ t).
  assert (Hkeys : map p_meeting_id t1 = map p_meeting_id t)
    by exact (update_keys p_meeting_id (reset_process now) id
                          (reset_keeps_key now) t).
  assert (Hsel : filter (fun r => str_eqb (p_meeting_id r) id) t1
                 = map (reset_process now)
                       (filter (fun r => str_eqb (p_meeting_id r) id) t))
    by exact (update_select p_meeting_id (reset_process now) id
                            (reset_keeps_key now) t).
  assert (Hoth : forall r, p_meeting_id r <> id -> In r t <-> In r t1)
    by exact (update_others p_meeting_id (reset_process now) id
                            (reset_keeps_key now) t).
  destruct (select_unique p_meeting_id id t Hnd) as [Hnone|[r Hone]].
  - rewrite (proj2 (count_zero p_meeting_id id t) Hnone). simpl.
    assert (Ht1 : t1 = t)
      by (apply (update_no_match p_meeting_id (reset_process now) id);
          exact Hnone).
    unfold sql_insert.
    rewrite Ht1, (no_match_no_key p_meeting_id id t (new_process now id)
                                  eq_refl Hnone).
    eexists. split; [reflexivity|]. simpl. repeat split.
    + apply insert_keeps_key; [exact Hnd|].
      apply (no_match_not_in p_meeting_id id t Hnone).
    + intros Hin. apply in_or_app. now left.
    + intros Hin. apply in_app_or in Hin as [Hin|[E|[]]]; [exact Hin|].
      subst r. simpl in H. congruence.
    + left. split; [exact Hnone|].
      rewrite (select_app p_meeting_id id t (new_process now id) eq_refl).
      rewrite Hnone. reflexivity.
  - assert (Hc : sql_count (fun r => str_eqb (p_meeting_id r) id) t <> 0).
    { intros E. apply (count_zero p_meeting_id id) in E. congruence. }
    apply Z.eqb_neq in Hc. rewrite Hc.
    eexists. split; [reflexivity|]. simpl. repeat split.
    + rewrite Hkeys. exact Hnd.
    + apply Hoth. exact H.
    + apply Hoth. exact H.
    + right. exists r. repeat split.
      * exact Hone.
      * unfold t1. apply length_map.
      * rewrite Hsel, Hone. reflexivity.
Qed.

End ProcessFacts.

(** C1: on a [summary_processes] table that respects its primary key, two
    calls of [create_process] for one meeting both return the meeting id and
    leave exactly one row for it.  The second call inserts nothing: it
    resets the row the first call left, so the row has status PENDING,
    [updated_at] and [start_time] equal to the second call's time, and no
    error and no result; rows of other meetings are untouched. *)
Theorem create_process_twice_single_row (now1 now2 id : str) (d : db) :
  NoDup (map p_meeting_id (summary_processes d)) ->
  exists d1 d2 row1 row2,
    create_process now1 id d = (d1, Ok id) /\
    create_process now2 id d1 = (d2, Ok id) /\
    sql_select (for_meeting id) (summary_processes d1) = [row1] /\
    sql_select (for_meeting id) (summary_processes d2) = [row2] /\
    List.length (summary_processes d2) = List.length (summary_processes d1) /\
    p_meeting_id row2 = id /\
    p_status row2 = lit "PENDING" /\
    p_updated_at row2 = now2 /\
    p_start_time row2 = Some now2 /\
    p_error row2 = None /\
    p_result row2 = None /\
    p_created_at row2 = p_created_at row1 /\
    (forall r, p_meeting_id r <> id ->
               In r (summary_processes d) <-> In r (summary_processes d2)).
Proof.
  intros Hnd.
  destruct (create_process_spec now1 id d Hnd)
    as [d1 [E1 [Hnd1 [Hoth1 Hrow1]]]].
  assert (exists row1,
             sql_select (for_meeting id) (summary_processes d1) = [row1])
    as [row1 Hsel1].
  { destruct Hrow1 as [[_ H]|[r [_ [_ H]]]]; eauto. }
  destruct (create_process_spec now2 id d1 Hnd1)
    as [d2 [E2 [Hnd2 [Hoth2 Hrow2]]]].
  destruct Hrow2 as [[Hnone _]|[r [Hr [Hlen Hsel2]]]]; [congruence|].
  assert (r = row1) by congruence. subst r.
  exists d1, d2, row1, (reset_process now2 row1).
  repeat split; try assumption; try reflexivity.
  - assert (Hin : In row1 (sql_select (for_meeting id) (summary_processes d1)))
      by (rewrite Hsel1; now left).
    apply filter_In in Hin as [_ Hk]. now apply str_eqb_eq in Hk.
  - intros Hin. apply Hoth2, Hoth1; assumption.
  - intros Hin. apply Hoth1, Hoth2; assumption.
Qed.

Lemma create_process_twice_single_row_witness :
  exists d1 d2 row1 row2,
    create_process (lit "2025-01-01T10:00:00") (lit "m1") empty_db
      = (d1, Ok (lit "m1")) /\
    create_process (lit "2025-01-01T10:05:00") (lit "m1") d1
      = (d2, Ok (lit "m1")) /\
    sql_select (for_meeting (lit "m1")) (summary_processes d1) = [row1] /\
    sql_select (for_meeting (lit "m1")) (summary_processes d2) = [row2] /\
    List.length (summary_processes d2) = List.length (summary_processes d1) /\
    p_meeting_id row2 = lit "m1" /\
    p_status row2 = lit "PENDING" /\
    p_updated_at row2 = lit "2025-01-01T10:05:00" /\
    p_start_time row2 = Some (lit "2025-01-01T10:05:00") /\
    p_error row2 = None /\
    p_result row2 = None /\
    p_created_at row2 = p_created_at row1 /\
    (forall r, p_meeting_id r <> lit "m1" ->
               In r (summary_processes empty_db)
               <-> In r (summary_processes d2)).
Proof.
  apply (create_process_twice_single_row
           (lit "2025-01-01T10:00:00") (lit "2025-01-01T10:05:00")
           (lit "m1") empty_db).
  simpl. constructor.
Defined.

(** ** [update_process] as a partial update *)

Section UpdateFacts.

Lemma update_fields_partial_update (now status : str)
  (result : option pydict) (error : option str) (chunk_count : option Z)
  (processing_time : option float) (metadata : option pydict)
  (fields : list assignment) (r : process_row) :
  update_fields now status result error chunk_count processing_time metadata
    = Ok fields ->
  assign_all fields r
    = partial_update now status (json_written result) error chunk_count
                     processing_time (json_written metadata) r.
Proof.
  unfold update_fields, json_written, bind, partial_update, assign_all.
  destruct (truthy_dict result);
    [destruct (dumps (PyDict _)); [|discriminate]|];
    (destruct error as [[|c e]|]; simpl truthy_opt; cbv iota);
    destruct chunk_count, processing_time;
    (destruct (truthy_dict metadata); [destruct (dumps (PyDict _))|]);
    destruct (mem (upper status) _);
    intros H; injection H as <-; destruct r; reflexivity.
Qed.

Lemma update_fields_bad_result (now status : str) (bad : pydict) (e : exn)
  (error : option str) (chunk_count : option Z)
  (processing_time : option float) (metadata : option pydict) :
  dumps (PyDict bad) = Raise e ->
  update_fields now status (Some bad) error chunk_count processing_time
                metadata
    = Raise (ValueError (lit "Result data cannot be JSON serialized")).
Proof.
  intros H. unfold update_fields.
  destruct bad as [|kv bad]; [discriminate|].
  simpl truthy_dict. cbv iota. rewrite H. reflexivity.
Qed.

Lemma update_fields_raises_only_for_result (now status : str)
  (result : option pydict) (error : option str) (chunk_count : option Z)
  (processing_time : option float) (metadata : option pydict) :
  (exists fields,
      update_fields now status result error chunk_count processing_time
                    metadata = Ok fields)
  \/ (exists bad e, result = Some bad /\ dumps (PyDict bad) = Raise e /\
        update_fields now status result error chunk_count processing_time
                      metadata
          = Raise (ValueError (lit "Result data cannot be JSON serialized"))).
Proof.
  destruct result as [[|kv bad]|].
  - left. unfold update_fields. simpl. eauto.
  - destruct (dumps (PyDict (kv :: bad))) as [j|e] eqn:E.
    + left. unfold update_fields. simpl truthy_dict. cbv iota. rewrite E.
      simpl. eauto.
    + right. exists (kv :: bad), e. repeat split; [exact E|].
      now apply update_fields_bad_result with (e := e).
  - left. unfold update_fields. simpl. eauto.
Qed.

(** A call that returns normally rewrites exactly the rows of the meeting,
    each by the partial update. *)
Lemma update_process_ok (now id status : str)
  (result : option pydict) (error : option str) (chunk_count : option Z)
  (processing_time : option float) (metadata : option pydict) (d d' : db) :
  update_process now id status result error chunk_count processing_time
                 metadata d = (d', Ok tt) ->
  d' = with_summary_processes d
         (map (fun r =>
                 if for_meeting id r
                 then partial_update now status (json_written result) error
                        chunk_count processing_time (json_written metadata) r
                 else r)
              (summary_processes d)).
Proof.
  unfold update_process.
  destruct (update_fields _ _ _ _ _ _ _) as [fields|e] eqn:E;
    [|intros H; discriminate].
  unfold sql_update. intros H. injection H as <-. f_equal.
  apply map_ext. intros r. destruct (for_meeting id r); [|reflexivity].
  now apply update_fields_partial_update.
Qed.

Lemma update_process_returns (now id status : str)
  (result : option pydict) (error : option str) (chunk_count : option Z)
  (processing_time : option float) (metadata : option pydict) (d : db)
  (fields : list assignment) :
  update_fields now status result error chunk_count processing_time metadata
    = Ok fields ->
  exists d',
    update_process now id status result error chunk_count processing_time
                   metadata d = (d', Ok tt).
Proof.
  intros E. unfold update_process. rewrite E. unfold sql_update.
  eexists. reflexivity.
Qed.

Lemma updated_row_of (now id status : str) (f : process_row -> process_row)
  (t : list process_row) (r : process_row) :
  (forall x, p_meeting_id (f x) = p_meeting_id x) ->
  In r (map (fun x => if for_meeting id x then f x else x) t) ->
  p_meeting_id r = id ->
  exists r0, In r0 t /\ p_meeting_id r0 = id /\ r = f r0.
Proof.
  intros Hf Hin Hid. apply in_map_iff in Hin as [r0 [E Hin]].
  exists r0. destruct (for_meeting id r0) eqn:W.
  - apply str_eqb_eq in W. repeat split; auto.
  - exfalso. subst r. apply str_eqb_neq in W. contradiction.
Qed.

(** What [sanitize_error] guarantees. *)
Lemma sanitize_error_clean (e : str) :
  ~ In LF (sanitize_error e) /\ ~ In CR (sanitize_error e)
  /\ len (sanitize_error e) <= 1000.
Proof.
  unfold sanitize_error, slice.
  set (s := replace CR [] (replace LF (lit " ") e)).
  assert (Hcr : ~ In CR s).
  { unfold s, replace. intros H. apply in_flat_map in H as [c [_ H]].
    destruct (Ascii.eqb c CR) eqn:E; [contradiction|].
    destruct H as [H|[]]. subst c. now rewrite Ascii.eqb_refl in E. }
  assert (Hlf : ~ In LF s).
  { unfold s, replace. intros H. apply in_flat_map in H as [c [Hc H]].
    destruct (Ascii.eqb c CR) eqn:E; [contradiction|].
    destruct H as [H|[]]. subst c.
    apply in_flat_map in Hc as [c' [_ H]].
    destruct (Ascii.eqb c' LF) eqn:E'.
    - destruct H as [H|[]]. discriminate.
    - destruct H as [H|[]]. subst c'. now rewrite Ascii.eqb_refl in E'. }
  simpl skipn. repeat split.
  - intros H. apply Hlf. eapply in_firstn; exact H.
  - intros H. apply Hcr. eapply in_firstn; exact H.
  - unfold len. rewrite length_firstn. unfold clamp_index.
    change (1000 <? 0) with false. cbv iota. lia.
Qed.

End UpdateFacts.

(** C4: when [update_process] is given a non-empty error string and returns,
    the error stored in every row of the meeting is [sanitize_error] of that
    string; it holds no line feed and no carriage return and has at most
    1000 characters. *)
Theorem update_process_sanitizes_error (now id status : str)
  (result : option pydict) (e : str) (chunk_count : option Z)
  (processing_time : option float) (metadata : option pydict) (d d' : db) :
  e <> [] ->
  update_process now id status result (Some e) chunk_count processing_time
                 metadata d = (d', Ok tt) ->
  let stored := sanitize_error e in
  Forall (fun r => p_meeting_id r = id -> p_error r = Some stored)
         (summary_processes d')
  /\ ~ In LF stored /\ ~ In CR stored /\ len stored <= 1000.
Proof.
  intros He H stored. split; [|apply sanitize_error_clean].
  apply update_process_ok in H. subst d'. simpl.
  apply Forall_forall. intros r Hin Hid.
  apply (updated_row_of now id status) in Hin as [r0 [_ [_ ->]]];
    [|reflexivity|exact Hid].
  destruct e as [|c e]; [congruence|]. reflexivity.
Qed.

Lemma update_process_sanitizes_error_witness :
  let e := lit "line1" ++ [LF] ++ lit "line2" ++ repeat "x"%char 2000 in
  let d' := fst (update_process (lit "2025-01-01T10:09:00") (lit "m1")
                   (lit "FAILED") None (Some e) None None None one_process) in
  let stored := sanitize_error e in
  Forall (fun r => p_meeting_id r = lit "m1" -> p_error r = Some stored)
         (summary_processes d')
  /\ ~ In LF stored /\ ~ In CR stored /\ len stored <= 1000.
Proof.
  apply (update_process_sanitizes_error
           (lit "2025-01-01T10:09:00") (lit "m1") (lit "FAILED") None
           (lit "line1" ++ [LF] ++ lit "line2" ++ repeat "x"%char 2000)
           None None None one_process).
  - discriminate.
  - reflexivity.
Defined.

(** The error of the example, as stored: the line feed has become a space
    and 1000 characters are kept. *)
Example sanitize_error_example :
  sanitize_error (lit "line1" ++ [LF] ++ lit "line2" ++ repeat "x"%char 2000)
  = lit "line1 line2" ++ repeat "x"%char 989.
Proof. vm_compute. reflexivity. Qed.

(** C5: let [bad] be a dict that [json.dumps] rejects.  Passed as [result],
    it makes [update_process] raise and leave the store as it was, whatever
    the other arguments.  Passed as [metadata], it is dropped: the call
    behaves as the call without metadata, and when the result is absent,
    empty or serializable it returns normally, having applied the partial
    update (status, [updated_at] and the other supplied fields) to the rows
    of the meeting, their metadata untouched. *)
Theorem update_process_serialization_errors (now id status : str)
  (error : option str) (chunk_count : option Z)
  (processing_time : option float) (bad : pydict) (e : exn) (d : db) :
  dumps (PyDict bad) = Raise e ->
  (forall metadata,
      update_process now id status (Some bad) error chunk_count
                     processing_time metadata d
      = (d, Raise (ValueError (lit "Result data cannot be JSON serialized"))))
  /\
  (forall result,
      update_process now id status result error chunk_count processing_time
                     (Some bad) d
      = update_process now id status result error chunk_count
                       processing_time None d)
  /\
  (forall result,
      (truthy_dict result = false \/ json_written result <> None) ->
      update_process now id status result error chunk_count processing_time
                     (Some bad) d
      = (with_summary_processes d
           (map (fun r =>
                   if for_meeting id r
                   then partial_update now status (json_written result) error
                          chunk_count processing_time None r
                   else r)
                (summary_processes d)),
         Ok tt)).
Proof.
  intros Hbad.
  assert (Hmd : json_written (Some bad) = None).
  { unfold json_written. destruct bad; [discriminate|].
    simpl truthy_dict. cbv iota. now rewrite Hbad. }
  assert (Hsame : forall result,
             update_fields now status result error chunk_count
                           processing_time (Some bad)
             = update_fields now status result error chunk_count
                             processing_time None).
  { intros result. unfold update_fields, bind.
    destruct bad; [discriminate|]. simpl truthy_dict. cbv iota.
    rewrite Hbad. reflexivity. }
  split; [|split].
  - intros metadata. unfold update_process.
    now rewrite (update_fields_bad_result now status bad e).
  - intros result. unfold update_process. now rewrite Hsame.
  - intros result Hres.
    destruct (update_fields_raises_only_for_result now status result error
                chunk_count processing_time (Some bad))
      as [[fields E]|[bad' [e' [-> [Hd _]]]]].
    + destruct (update_process_returns now id status result error chunk_count
                  processing_time (Some bad) d fields E) as [d' Hd'].
      rewrite Hd'. apply update_process_ok in Hd'. rewrite Hmd in Hd'.
      now subst d'.
    + exfalso. destruct Hres as [Hf|Hj].
      * destruct bad'; [discriminate Hd|discriminate Hf].
      * apply Hj. unfold json_written. destruct bad'; [reflexivity|].
        simpl truthy_dict. cbv iota. now rewrite Hd.
Qed.

Lemma update_process_serialization_errors_witness :
  (forall metadata,
      update_process (lit "2025-01-01T10:09:00") (lit "m1") (lit "COMPLETED")
                     (Some unserializable) None (Some 3) None metadata
                     one_process
      = (one_process,
         Raise (ValueError (lit "Result data cannot be JSON serialized"))))
  /\
  (forall result,
      update_process (lit "2025-01-01T10:09:00") (lit "m1") (lit "COMPLETED")
                     result None (Some 3) None (Some unserializable)
                     one_process
      = update_process (lit "2025-01-01T10:09:00") (lit "m1")
                       (lit "COMPLETED") result None (Some 3) None None
                       one_process)
  /\
  (forall result,
      (truthy_dict result = false \/ json_written result <> None) ->
      update_process (lit "2025-01-01T10:09:00") (lit "m1") (lit "COMPLETED")
                     result None (Some 3) None (Some unserializable)
                     one_process
      = (with_summary_processes one_process
           (map (fun r =>
                   if for_meeting (lit "m1") r
                   then partial_update (lit "2025-01-01T10:09:00")
                          (lit "COMPLETED") (json_written result) None
                          (Some 3) None None r
                   else r)
                (summary_processes one_process)),
         Ok tt)).
Proof.
  apply (update_process_serialization_errors
           (lit "2025-01-01T10:09:00") (lit "m1") (lit "COMPLETED") None
           (Some 3) None unserializable (opaque_error (lit "set")) one_process).
  reflexivity.
Defined.

Lemma Forall2_map_self {A : Type} (R : A -> A -> Prop) (f : A -> A)
  (l : list A) :
  (forall x, R x (f x)) -> Forall2 R l (map f l).
Proof.
  intros H. induction l; simpl; constructor; auto.
Qed.

(** C9: (1) a call of [update_process] that returns has written the given
    status and the call's time into [status] and [updated_at] of every row
    of the meeting; (2) an empty result dict, an empty error string and an
    empty metadata dict act as if the arguments were not given; (3) with
    these three empty and [chunk_count = 0], [processing_time = 0.0], the
    call returns, the rows keep their result, error and metadata, and the
    rows of the meeting have the zeros written into [chunk_count] and
    [processing_time]; (4) with the three empty and [chunk_count] and
    [processing_time] not given, the rows keep result, error, metadata and
    both counters. *)
Theorem update_process_frame (now id status : str) (d : db) :
  (forall result error chunk_count processing_time metadata d',
      update_process now id status result error chunk_count processing_time
                     metadata d = (d', Ok tt) ->
      Forall (fun r => p_meeting_id r = id ->
                       p_status r = status /\ p_updated_at r = now)
             (summary_processes d'))
  /\
  (forall chunk_count processing_time,
      update_process now id status (Some []) (Some []) chunk_count
                     processing_time (Some []) d
      = update_process now id status None None chunk_count processing_time
                       None d)
  /\
  (exists d',
      update_process now id status (Some []) (Some []) (Some 0)
                     (Some 0%float) (Some []) d = (d', Ok tt)
      /\ Forall2 same_payload (summary_processes d) (summary_processes d')
      /\ Forall (fun r => p_meeting_id r = id ->
                          p_chunk_count r = Some 0
                          /\ p_processing_time r = Some 0%float)
                (summary_processes d'))
  /\
  (exists d',
      update_process now id status (Some []) (Some []) None None (Some []) d
      = (d', Ok tt)
      /\ Forall2 same_payload (summary_processes d) (summary_processes d')
      /\ Forall2 same_counters (summary_processes d) (summary_processes d')).
Proof.
  split; [|split; [|split]].
  - intros result error chunk_count processing_time metadata d' H.
    apply update_process_ok in H. subst d'. simpl.
    apply Forall_forall. intros r Hin Hid.
    apply (updated_row_of now id status) in Hin as [r0 [_ [_ ->]]];
      [|reflexivity|exact Hid].
    split; reflexivity.
  - intros chunk_count processing_time. reflexivity.
  - destruct (update_process_returns now id status (Some []) (Some [])
                (Some 0) (Some 0%float) (Some []) d
                (if mem (upper status) [lit "COMPLETED"; lit "FAILED"]
                 then [SetStatus status; SetUpdatedAt now; SetChunkCount 0;
                       SetProcessingTime 0%float; SetEndTime now]
                 else [SetStatus status; SetUpdatedAt now; SetChunkCount 0;
                       SetProcessingTime 0%float]))
      as [d' Hd'].
    { unfold update_fields. cbn -[mem upper lit].
      destruct (mem (upper status) [lit "COMPLETED"; lit "FAILED"]);
        reflexivity. }
    exists d'. split; [exact Hd'|].
    apply update_process_ok in Hd'. subst d'. simpl. split.
    + apply Forall2_map_self. intros r. unfold same_payload.
      destruct (for_meeting id r); repeat split; reflexivity.
    + apply Forall_forall. intros r Hin Hid.
      apply (updated_row_of now id status) in Hin as [r0 [_ [_ ->]]];
        [|reflexivity|exact Hid].
      split; reflexivity.
  - destruct (update_process_returns now id status (Some []) (Some [])
                None None (Some []) d
                (if mem (upper status) [lit "COMPLETED"; lit "FAILED"]
                 then [SetStatus status; SetUpdatedAt now; SetEndTime now]
                 else [SetStatus status; SetUpdatedAt now]))
      as [d' Hd'].
    { unfold update_fields. cbn -[mem upper lit].
      destruct (mem (upper status) [lit "COMPLETED"; lit "FAILED"]);
        reflexivity. }
    exists d'. split; [exact Hd'|].
    apply update_process_ok in Hd'. subst d'. simpl. split.
    + apply Forall2_map_self. intros r. unfold same_payload.
      destruct (for_meeting id r); repeat split; reflexivity.
    + apply Forall2_map_self. intros r. unfold same_counters.
      destruct (for_meeting id r); split; reflexivity.
Qed.

Lemma update_process_frame_witness :
  Forall (fun r => p_meeting_id r = lit "m1" ->
                   p_status r = lit "FAILED"
                   /\ p_updated_at r = lit "2025-01-01T10:09:00")
         (summary_processes
            (fst (update_process (lit "2025-01-01T10:09:00") (lit "m1")
                    (lit "FAILED") None (Some (lit "boom")) None None None
                    one_process)))
  /\
  (exists d',
      update_process (lit "2025-01-01T10:09:00") (lit "m1") (lit "FAILED")
                     (Some []) (Some []) (Some 0) (Some 0%float) (Some [])
                     one_process = (d', Ok tt)
      /\ Forall2 same_payload (summary_processes one_process)
                 (summary_processes d')
      /\ Forall (fun r => p_meeting_id r = lit "m1" ->
                          p_chunk_count r = Some 0
                          /\ p_processing_time r = Some 0%float)
                (summary_processes d')).
Proof.
  destruct (update_process_frame (lit "2025-01-01T10:09:00") (lit "m1")
                                 (lit "FAILED") one_process)
    as [H1 [_ [H3 _]]].
  split; [|exact H3].
  apply (H1 None (Some (lit "boom")) None None None). reflexivity.
Defined.

(** ** Stripping and splitting *)

Section StripFacts.

Lemma lstrip_nonspace (c : ascii) (s : str) :
  isspace c = false -> lstrip (c :: s) = c :: s.
Proof. intros H. simpl. now rewrite H. Qed.

Lemma lstrip_blank (s : str) : lstrip s = [] <-> blank s = true.
Proof.
  induction s as [|c s IH]; simpl; [tauto|].
  destruct (isspace c); simpl; [exact IH|]. split; discriminate.
Qed.

Lemma lstrip_app (a b : str) :
  lstrip (a ++ b)
  = match lstrip a with [] => lstrip b | _ :: _ => lstrip a ++ b end.
Proof.
  induction a as [|x a IH]; [reflexivity|]. simpl.
  destruct (isspace x); [exact IH|reflexivity].
Qed.

Lemma lstrip_idem (s : str) : lstrip (lstrip s) = lstrip s.
Proof.
  induction s as [|c s IH]; [reflexivity|]. simpl.
  destruct (isspace c) eqn:E; [exact IH|]. simpl. now rewrite E.
Qed.

Lemma rstrip_cons (c : ascii) (s : str) :
  rstrip (c :: s)
  = match rstrip s with
    | [] => if isspace c then [] else [c]
    | _ :: _ => c :: rstrip s
    end.
Proof.
  unfold rstrip. simpl rev. rewrite lstrip_app.
  destruct (lstrip (rev s)) as [|x l]; simpl.
  - destruct (isspace c); reflexivity.
  - rewrite rev_app_distr. simpl. destruct (rev l); reflexivity.
Qed.

Lemma rstrip_nil : rstrip [] = [].
Proof. reflexivity. Qed.

Lemma rstrip_blank (s : str) : rstrip s = [] <-> blank s = true.
Proof.
  induction s as [|c s IH]; [simpl; tauto|].
  rewrite rstrip_cons. simpl.
  destruct (rstrip s) as [|x r] eqn:E.
  - destruct (isspace c); simpl.
    + split; [intros _; now apply IH|reflexivity].
    + split; discriminate.
  - split; [discriminate|]. intros H. apply andb_true_iff in H as [_ H].
    apply IH in H. discriminate.
Qed.

Lemma rstrip_cons_nonblank (c : ascii) (s : str) :
  rstrip s <> [] -> rstrip (c :: s) = c :: rstrip s.
Proof.
  intros H. rewrite rstrip_cons. destruct (rstrip s); congruence.
Qed.

Lemma rstrip_app_nonblank (a b : str) :
  rstrip b <> [] -> rstrip (a ++ b) = a ++ rstrip b.
Proof.
  intros H. induction a as [|x a IH]; [reflexivity|]. simpl.
  rewrite rstrip_cons_nonblank, IH; [reflexivity|].
  rewrite IH. destruct a; simpl; [exact H|discriminate].
Qed.

Lemma rstrip_idem (s : str) : rstrip (rstrip s) = rstrip s.
Proof.
  induction s as [|c s IH]; [reflexivity|].
  rewrite rstrip_cons. destruct (rstrip s) as [|x r] eqn:E.
  - destruct (isspace c) eqn:Ec; [reflexivity|].
    rewrite rstrip_cons. simpl. now rewrite Ec.
  - rewrite rstrip_cons_nonblank; [now rewrite IH|].
    rewrite IH. discriminate.
Qed.

(** The first character of a string survives [rstrip] when it is not
    whitespace. *)
Lemma rstrip_head (c : ascii) (s : str) :
  isspace c = false -> exists r, rstrip (c :: s) = c :: r.
Proof.
  intros H. rewrite rstrip_cons. rewrite H.
  destruct (rstrip s); eauto.
Qed.

Lemma lstrip_head (s : str) :
  lstrip s = [] \/ exists c l, lstrip s = c :: l /\ isspace c = false.
Proof.
  induction s as [|c s IH]; [now left|]. simpl.
  destruct (isspace c) eqn:E; [exact IH|]. right. eauto.
Qed.

Lemma strip_blank (s : str) : strip s = [] <-> blank s = true.
Proof.
  unfold strip. split.
  - intros H. apply lstrip_blank.
    destruct (lstrip_head s) as [E|[c [l [E Hc]]]]; [exact E|].
    rewrite E in H. destruct (rstrip_head c l Hc) as [r Hr]. congruence.
  - intros H. apply lstrip_blank in H. now rewrite H.
Qed.

Lemma strip_stripped (s : str) : stripped (strip s).
Proof.
  unfold stripped, strip. split; [|apply rstrip_idem].
  destruct (lstrip_head s) as [->|[c [l [-> Hc]]]]; [reflexivity|].
  destruct (rstrip_head c l Hc) as [r ->]. now apply lstrip_nonspace.
Qed.

Lemma stripped_strip (s : str) : stripped s -> strip s = s.
Proof. intros [Hl Hr]. unfold strip. now rewrite Hl, Hr. Qed.

Lemma strip_idem (s : str) : strip (strip s) = strip s.
Proof. apply stripped_strip, strip_stripped. Qed.

Lemma stripped_cons_head (c : ascii) (s : str) :
  stripped (c :: s) -> isspace c = false.
Proof.
  intros [Hl _].
  destruct (lstrip_head (c :: s)) as [E|[c' [l [E Hc]]]]; congruence.
Qed.

(** Putting a stripped, non-empty string after a prefix that starts with a
    non-whitespace character gives a stripped string. *)
Lemma stripped_prefix (c : ascii) (p s : str) :
  isspace c = false -> stripped s -> s <> [] -> stripped (c :: p ++ s).
Proof.
  intros Hc [Hl Hr] Hs. split.
  - now apply lstrip_nonspace.
  - change (c :: p ++ s) with ((c :: p) ++ s).
    rewrite rstrip_app_nonblank; rewrite Hr; auto.
Qed.

(** Replacing the first character of a stripped string by another
    non-whitespace character keeps it stripped. *)
Lemma stripped_replace_head (c c' : ascii) (s : str) :
  isspace c' = false -> stripped (c :: s) -> stripped (c' :: s).
Proof.
  intros Hc' [Hl Hr]. split; [now apply lstrip_nonspace|].
  rewrite rstrip_cons in *. destruct (rstrip s) as [|x r] eqn:E.
  - destruct (isspace c); [discriminate|].
    injection Hr as <-. now rewrite Hc'.
  - injection Hr as <-. reflexivity.
Qed.

Lemma push_word_nil (ws : list str) : push_word [] ws = ws.
Proof. reflexivity. Qed.

Lemma split_cons_space (c : ascii) (s : str) :
  isspace c = true -> split (c :: s) = split s.
Proof.
  intros H. unfold split. simpl. destruct (words_from s) as [w ws].
  now rewrite H.
Qed.

Lemma split_cons_nonspace (c : ascii) (s : str) :
  isspace c = false ->
  split (c :: s) = (c :: fst (words_from s)) :: snd (words_from s).
Proof.
  intros H. unfold split. simpl. destruct (words_from s) as [w ws].
  now rewrite H.
Qed.

Lemma split_lstrip (s : str) : split (lstrip s) = split s.
Proof.
  induction s as [|c s IH]; [reflexivity|]. simpl.
  destruct (isspace c) eqn:E; [|reflexivity].
  now rewrite split_cons_space.
Qed.

Lemma words_from_rstrip (s : str) : words_from (rstrip s) = words_from s.
Proof.
  induction s as [|c s IH]; [reflexivity|].
  rewrite rstrip_cons. destruct (rstrip s) as [|x r] eqn:E.
  - simpl in IH. simpl. rewrite <- IH.
    destruct (isspace c) eqn:Ec; simpl; now rewrite ?Ec.
  - simpl. now rewrite <- IH.
Qed.

Lemma split_strip (s : str) : split (strip s) = split s.
Proof.
  unfold strip. unfold split at 1. rewrite words_from_rstrip.
  apply split_lstrip.
Qed.

(** The words of a prefix word, a space and a string. *)
Lemma split_word_space (w s : str) :
  w <> [] -> forallb (fun c => negb (isspace c)) w = true ->
  split (w ++ " "%char :: s) = w :: split s.
Proof.
  intros Hw Hns. unfold split.
  assert (H : words_from (w ++ " "%char :: s)
              = (w, let (w', ws) := words_from s in push_word w' ws)).
  { clear Hw. induction w as [|c w IH].
    - simpl. destruct (words_from s). reflexivity.
    - simpl in Hns. apply andb_true_iff in Hns as [Hc Hns].
      simpl. rewrite (IH Hns).
      destruct (isspace c); [discriminate|reflexivity]. }
  rewrite H. destruct w; [congruence|]. reflexivity.
Qed.

End StripFacts.

(** ** Transcript blobs *)

Ltac zbool :=
  repeat match goal with
         | H : (_ <=? _) = true |- _ => apply Z.leb_le in H
         | H : (_ <=? _) = false |- _ => apply Z.leb_gt in H
         | H : (_ <? _) = true |- _ => apply Z.ltb_lt in H
         | H : (_ <? _) = false |- _ => apply Z.ltb_ge in H
         | H : (_ =? _) = true |- _ => apply Z.eqb_eq in H
         | H : (_ =? _) = false |- _ => apply Z.eqb_neq in H
         end.

Section BlobFacts.

(** The update-or-insert of a keyed row, as [create_process] and
    [save_transcript] perform it, on a table that respects its key. *)
Lemma upsert_outcome {row : Type} (key : row -> str) (set_ : row -> row)
  (k : str) (new : row) (t : list row) :
  (forall r, key (set_ r) = key r) -> key new = k -> NoDup (map key t) ->
  let where_ := fun r => str_eqb (key r) k in
  let t1 := map (fun r => if where_ r then set_ r else r) t in
  exists t',
    (if sql_count where_ t =? 0 then sql_insert key new t1 else Ok t1) = Ok t'
    /\ NoDup (map key t')
    /\ (forall r, key r <> k -> In r t <-> In r t')
    /\ ((filter where_ t = [] /\ t' = t ++ [new]
         /\ filter where_ t' = [new])
        \/ (exists r, filter where_ t = [r]
                      /\ List.length t' = List.length t
                      /\ filter where_ t' = [set_ r])).
Proof.
  intros Hset Hnew Hnd where_ t1. subst where_ t1.
  destruct (select_unique key k t Hnd) as [Hnone|[r Hone]].
  - rewrite (proj2 (count_zero key k t) Hnone). simpl.
    rewrite (update_no_match key set_ k t Hnone).
    unfold sql_insert.
    rewrite (no_match_no_key key k t new Hnew Hnone).
    eexists. split; [reflexivity|]. repeat split.
    + apply insert_keeps_key; [exact Hnd|]. rewrite Hnew.
      apply (no_match_not_in key k t Hnone).
    + intros Hin. apply in_or_app. now left.
    + intros Hin. apply in_app_or in Hin as [Hin|[E|[]]]; [exact Hin|].
      subst r. congruence.
    + left. repeat split; [exact Hnone|].
      rewrite (select_app key k t new Hnew). now rewrite Hnone.
  - assert (Hc : sql_count (fun r => str_eqb (key r) k) t <> 0).
    { intros E. apply (count_zero key k) in E. congruence. }
    apply Z.eqb_neq in Hc. rewrite Hc.
    eexists. split; [reflexivity|]. repeat split.
    + rewrite (update_keys key set_ k Hset). exact Hnd.
    + now apply (update_others key set_ k Hset).
    + now apply (update_others key set_ k Hset).
    + right. exists r. repeat split; [exact Hone|apply length_map|].
      rewrite (update_select key set_ k Hset). now rewrite Hone.
Qed.

Lemma empty_or_blank (s : str) :
  negb (truthy s) || negb (truthy (strip s)) = blank s.
Proof.
  destruct s as [|c s]; [reflexivity|]. simpl truthy. simpl negb at 1.
  rewrite orb_false_l.
  destruct (blank (c :: s)) eqn:B.
  - apply strip_blank in B. now rewrite B.
  - destruct (strip (c :: s)) eqn:E; [|reflexivity].
    apply strip_blank in E. congruence.
Qed.

End BlobFacts.

(** C10: [save_transcript] raises a [ValueError] and leaves the store as it
    was when the meeting id or the text is empty or whitespace only, when
    [chunk_size <= 0], when [overlap < 0], or when the text has more than
    10,000,000 characters.  Otherwise, on a [transcript_chunks] table that
    respects its primary key, it returns, the table then holds exactly one
    row for the meeting with the values of the call, the key is still
    respected, and the rows of other meetings and the other tables are
    untouched. *)
Theorem save_transcript_validates_and_upserts
  (now id text model model_name : str) (chunk_size overlap : Z) (d : db) :
  (blank id = true \/ blank text = true \/ chunk_size <= 0 \/ overlap < 0
   \/ 10000000 < len text ->
   exists msg,
     save_transcript now id text model model_name chunk_size overlap d
     = (d, Raise (ValueError msg)))
  /\
  (blank id = false -> blank text = false -> 0 < chunk_size ->
   0 <= overlap -> len text <= 10000000 ->
   NoDup (map c_meeting_id (transcript_chunks d)) ->
   exists d' row,
     save_transcript now id text model model_name chunk_size overlap d
     = (d', Ok tt)
     /\ sql_select (blob_for id) (transcript_chunks d') = [row]
     /\ c_meeting_id row = id /\ c_transcript_text row = text
     /\ c_model row = model /\ c_model_name row = model_name
     /\ c_chunk_size row = Some chunk_size /\ c_overlap row = Some overlap
     /\ c_created_at row = now
     /\ NoDup (map c_meeting_id (transcript_chunks d'))
     /\ (List.length (transcript_chunks d')
         <= S (List.length (transcript_chunks d)))%nat
     /\ (forall r, c_meeting_id r <> id ->
                   In r (transcript_chunks d) <-> In r (transcript_chunks d'))
     /\ summary_processes d' = summary_processes d
     /\ transcripts d' = transcripts d
     /\ settings d' = settings d
     /\ jira_settings d' = jira_settings d).
Proof.
  unfold save_transcript. rewrite !empty_or_blank. split.
  - intros H.
    destruct (blank id); [eauto|].
    destruct (blank text); [eauto|].
    destruct (chunk_size <=? 0) eqn:E1; [simpl; eauto|].
    destruct (overlap <? 0) eqn:E2; [simpl; eauto|]. simpl.
    destruct (10000000 <? len text) eqn:E3; [eauto|].
    exfalso. zbool. destruct H as [H|[H|[H|[H|H]]]]; try discriminate; lia.
  - intros -> -> Hc Ho Hl Hnd.
    destruct (chunk_size <=? 0) eqn:E1; [zbool; lia|].
    destruct (overlap <? 0) eqn:E2; [zbool; lia|]. simpl.
    destruct (10000000 <? len text) eqn:E3; [zbool; lia|].
    unfold sql_update, sql_select, blob_for.
    destruct (upsert_outcome c_meeting_id
                (set_transcript text model model_name chunk_size overlap now)
                id
                (new_transcript id text model model_name chunk_size overlap now)
                (transcript_chunks d) (fun r => eq_refl) eq_refl Hnd)
      as [t' [Hup [Hnd' [Hoth Hrow]]]].
    assert (Hkey : forall r,
               In r (filter (fun r => str_eqb (c_meeting_id r) id)
                            (transcript_chunks d)) -> c_meeting_id r = id).
    { intros r Hin. apply filter_In in Hin as [_ Hk].
      now apply str_eqb_eq in Hk. }
    assert (Hlen : (List.length t' <= S (List.length (transcript_chunks d)))%nat).
    { destruct Hrow as [[_ [-> _]]|[r [_ [-> _]]]]; [|lia].
      rewrite length_app. simpl. lia. }
    assert (Hsel : exists row,
               filter (fun r => str_eqb (c_meeting_id r) id) t' = [row]
               /\ c_meeting_id row = id /\ c_transcript_text row = text
               /\ c_model row = model /\ c_model_name row = model_name
               /\ c_chunk_size row = Some chunk_size
               /\ c_overlap row = Some overlap /\ c_created_at row = now).
    { destruct Hrow as [[_ [_ Hsel]]|[r [Hr [_ Hsel]]]];
        eexists; (split; [exact Hsel|]); repeat split.
      simpl. apply (Hkey r). rewrite Hr. now left. }
    destruct Hsel as [row [Hsel Hfields]].
    exists (with_transcript_chunks d t'), row.
    split.
    { destruct (sql_count _ _ =? 0).
      - now rewrite Hup.
      - now injection Hup as ->. }
    simpl. split; [exact Hsel|].
    destruct Hfields as (F1 & F2 & F3 & F4 & F5 & F6 & F7).
    repeat split; try assumption; apply Hoth; assumption.
Qed.

Lemma save_transcript_validates_and_upserts_witness :
  (exists msg,
      save_transcript (lit "2025-01-01T10:00:00") (lit "m1") (lit "   ")
                      (lit "openai") (lit "gpt-4o") 5000 1000 empty_db
      = (empty_db, Raise (ValueError msg)))
  /\
  (exists d' row,
      save_transcript (lit "2025-01-01T10:00:00") (lit "m1")
                      (lit "hello team") (lit "openai") (lit "gpt-4o")
                      5000 1000 empty_db
      = (d', Ok tt)
      /\ sql_select (blob_for (lit "m1")) (transcript_chunks d') = [row]
      /\ c_meeting_id row = lit "m1"
      /\ c_transcript_text row = lit "hello team"
      /\ c_model row = lit "openai" /\ c_model_name row = lit "gpt-4o"
      /\ c_chunk_size row = Some 5000 /\ c_overlap row = Some 1000
      /\ c_created_at row = lit "2025-01-01T10:00:00"
      /\ NoDup (map c_meeting_id (transcript_chunks d'))
      /\ (List.length (transcript_chunks d')
          <= S (List.length (transcript_chunks empty_db)))%nat
      /\ (forall r, c_meeting_id r <> lit "m1" ->
                    In r (transcript_chunks empty_db)
                    <-> In r (transcript_chunks d'))
      /\ summary_processes d' = summary_processes empty_db
      /\ transcripts d' = transcripts empty_db
      /\ settings d' = settings empty_db
      /\ jira_settings d' = jira_settings empty_db).
Proof.
  split.
  - apply (save_transcript_validates_and_upserts
             (lit "2025-01-01T10:00:00") (lit "m1") (lit "   ")
             (lit "openai") (lit "gpt-4o") 5000 1000 empty_db).
    right. left. reflexivity.
  - apply (save_transcript_validates_and_upserts
             (lit "2025-01-01T10:00:00") (lit "m1") (lit "hello team")
             (lit "openai") (lit "gpt-4o") 5000 1000 empty_db).
    + reflexivity.
    + reflexivity.
    + lia.
    + lia.
    + vm_compute. discriminate.
    + simpl. constructor.
Defined.

(** ** Reading a transcript back *)

Section ReadFacts.

Lemma text_leb_total (a b : str) : text_leb a b = false -> text_leb b a = true.
Proof.
  revert b. induction a as [|x a IH]; intros [|y b]; simpl; try congruence.
  destruct (N_of_ascii x <? N_of_ascii y)%N eqn:E1; [discriminate|].
  destruct (N_of_ascii y <? N_of_ascii x)%N eqn:E2; [reflexivity|].
  apply IH.
Qed.

Lemma insert_by_timestamp_perm (r : transcript_row) (l : list transcript_row) :
  Permutation (insert_by_timestamp r l) (r :: l).
Proof.
  induction l as [|x l IH]; simpl; [reflexivity|].
  destruct (text_leb (t_timestamp r) (t_timestamp x)); [reflexivity|].
  rewrite IH. apply perm_swap.
Qed.

Lemma insert_by_timestamp_sorted (r : transcript_row)
  (l : list transcript_row) :
  Sorted by_timestamp l -> Sorted by_timestamp (insert_by_timestamp r l).
Proof.
  induction l as [|x l IH]; simpl; intros Hs.
  - repeat constructor.
  - destruct (text_leb (t_timestamp r) (t_timestamp x)) eqn:E.
    + constructor; [exact Hs|]. constructor. exact E.
    + inversion Hs as [|? ? Hs' Hhd]; subst.
      constructor; [apply IH; exact Hs'|].
      destruct l as [|y l]; simpl.
      * constructor. apply text_leb_total. exact E.
      * destruct (text_leb (t_timestamp r) (t_timestamp y)).
        -- constructor. apply text_leb_total. exact E.
        -- inversion Hhd; subst. constructor. assumption.
Qed.

Lemma order_by_timestamp_perm (l : list transcript_row) :
  Permutation (order_by_timestamp l) l.
Proof.
  induction l as [|x l IH]; simpl; [reflexivity|].
  rewrite insert_by_timestamp_perm. now constructor.
Qed.

Lemma order_by_timestamp_sorted (l : list transcript_row) :
  Sorted by_timestamp (order_by_timestamp l).
Proof.
  induction l as [|x l IH]; simpl; [constructor|].
  now apply insert_by_timestamp_sorted.
Qed.

Lemma join_nil (sep : str) (l : list str) :
  Forall (fun s => s <> []) l -> join sep l = [] -> l = [].
Proof.
  intros Hne H. destruct l as [|x l]; [reflexivity|]. exfalso.
  inversion Hne as [|? ? Hx _]; subst. apply Hx.
  destruct l; simpl in H; [exact H|].
  apply app_eq_nil in H. tauto.
Qed.

Lemma filter_truthy_nonempty (l : list str) :
  Forall (fun s => s <> []) (filter truthy l).
Proof.
  apply Forall_forall. intros s Hin. apply filter_In in Hin as [_ H].
  now apply truthy_true.
Qed.

(** The combined text is empty exactly when every segment text is. *)
Lemma combine_segments_nil (rows : list transcript_row) :
  combine_segments rows = [] <-> Forall (fun r => t_transcript r = []) rows.
Proof.
  unfold combine_segments. split.
  - intros H. apply join_nil in H; [|apply filter_truthy_nonempty].
    apply Forall_forall. intros r Hin.
    destruct (t_transcript r) eqn:E; [reflexivity|]. exfalso.
    assert (Hin' : In (t_transcript r) (filter truthy (map t_transcript rows))).
    { apply filter_In. split; [now apply in_map|]. now rewrite E. }
    rewrite H in Hin'. contradiction.
  - intros H. replace (filter truthy (map t_transcript rows)) with (@nil str);
      [reflexivity|].
    induction rows as [|r rows IH]; [reflexivity|].
    inversion H as [|? ? Hr Hrest]; subst. simpl. rewrite Hr. simpl.
    now apply IH.
Qed.

Lemma select_same_key (a b : str) (t : list process_row) :
  a = b -> sql_select (for_meeting a) t = sql_select (for_meeting b) t.
Proof. now intros ->. Qed.

(** The first row of the join, when the meeting has a blob. *)
Lemma blob_left_join_first (id : str) (d : db) (t : chunk_row)
  (rest : list chunk_row) :
  sql_select (blob_for id) (transcript_chunks d) = t :: rest ->
  fetchone (blob_left_join id d)
  = Some (t, fetchone (sql_select (for_meeting id) (summary_processes d))).
Proof.
  intros H. unfold blob_left_join. rewrite H. simpl.
  assert (Hid : c_meeting_id t = id).
  { assert (Hin : In t (sql_select (blob_for id) (transcript_chunks d)))
      by (rewrite H; now left).
    apply filter_In in Hin as [_ Hk]. now apply str_eqb_eq in Hk. }
  rewrite (select_same_key _ _ _ Hid).
  destruct (sql_select (for_meeting id) (summary_processes d)); reflexivity.
Qed.

Lemma blob_left_join_none (id : str) (d : db) :
  sql_select (blob_for id) (transcript_chunks d) = [] ->
  fetchone (blob_left_join id d) = None.
Proof. intros H. unfold blob_left_join. now rewrite H. Qed.

Lemma segments_fallback_eq (id : str) (d : db) :
  segments_fallback id d
  = let text := combine_segments (segments_for id d) in
    if truthy text
    then Some (segment_dict id text
                 (fetchone (sql_select (for_meeting id) (summary_processes d))))
    else None.
Proof.
  unfold segments_fallback. destruct (segments_for id d); reflexivity.
Qed.

End ReadFacts.

(** C3, as stated, on three segments (in timestamp order: "a", an empty
    text, "b") and no blob: the segment texts joined by newlines are "a",
    two line feeds, "b", but the text returned is "a", one line feed,
    "b". *)
Lemma get_transcript_data_skips_empty_segments :
  map t_transcript (segments_for (lit "m1") segments_with_gap)
    = [lit "a"; []; lit "b"]
  /\ join [LF] (map t_transcript (segments_for (lit "m1") segments_with_gap))
     = "a"%char :: LF :: LF :: lit "b"
  /\ get_transcript_data (lit "m1") segments_with_gap
     = Some (segment_dict (lit "m1") ("a"%char :: LF :: lit "b") None)
  /\ get_transcript_data (lit "m1") segments_with_gap
     <> Some (segment_dict (lit "m1")
                (join [LF] (map t_transcript
                              (segments_for (lit "m1") segments_with_gap)))
                None).
Proof. repeat split; try reflexivity. vm_compute. discriminate. Qed.

(** C3 (amended): the segments of the meeting are read in ascending
    timestamp order.  When the meeting has a blob with non-empty text,
    [get_transcript_data] returns that row merged with the status, result
    and error of the meeting's process (nulls when there is none), whatever
    segments exist.  Otherwise it returns the non-empty segment texts, in
    that order and joined by line feeds, merged with the process fields,
    provided that text is not empty.  It returns [None] exactly when no blob
    text exists and every segment text of the meeting is empty. *)
Theorem get_transcript_data_sources (id : str) (d : db) :
  let proc := fetchone (sql_select (for_meeting id) (summary_processes d)) in
  let rows := segments_for id d in
  let text := join [LF] (filter truthy (map t_transcript rows)) in
  Permutation rows
    (sql_select (fun r => str_eqb (t_meeting_id r) id) (transcripts d))
  /\ Sorted by_timestamp rows
  /\ (forall t rest,
         sql_select (blob_for id) (transcript_chunks d) = t :: rest ->
         c_transcript_text t <> [] ->
         get_transcript_data id d = Some (blob_dict t proc))
  /\ (no_blob_text id d ->
      get_transcript_data id d
      = if truthy text then Some (segment_dict id text proc) else None)
  /\ (get_transcript_data id d = None <->
      no_blob_text id d
      /\ Forall (fun r => t_transcript r = [])
                (sql_select (fun r => str_eqb (t_meeting_id r) id)
                            (transcripts d))).
Proof.
  intros proc rows text.
  assert (Hperm : Permutation rows
            (sql_select (fun r => str_eqb (t_meeting_id r) id) (transcripts d)))
    by apply order_by_timestamp_perm.
  assert (Hblob : forall t rest,
             sql_select (blob_for id) (transcript_chunks d) = t :: rest ->
             c_transcript_text t <> [] ->
             get_transcript_data id d = Some (blob_dict t proc)).
  { intros t rest Hsel Htext. unfold get_transcript_data.
    rewrite (blob_left_join_first id d t rest Hsel). simpl.
    apply truthy_true in Htext. now rewrite Htext. }
  assert (Hfall : no_blob_text id d ->
             get_transcript_data id d
             = if truthy text then Some (segment_dict id text proc) else None).
  { intros [Hnone|[t [rest [Hsel Htext]]]]; unfold get_transcript_data.
    - rewrite (blob_left_join_none id d Hnone). apply segments_fallback_eq.
    - rewrite (blob_left_join_first id d t rest Hsel). simpl.
      rewrite Htext. simpl. apply segments_fallback_eq. }
  assert (Hnil : text = [] <->
                 Forall (fun r => t_transcript r = [])
                   (sql_select (fun r => str_eqb (t_meeting_id r) id)
                               (transcripts d))).
  { unfold text. fold (combine_segments rows).
    rewrite combine_segments_nil. split; apply Permutation_Forall;
      [exact Hperm|apply Permutation_sym; exact Hperm]. }
  split; [exact Hperm|]. split; [apply order_by_timestamp_sorted|].
  split; [exact Hblob|]. split; [exact Hfall|]. split.
  - intros Hnone.
    assert (Hno : no_blob_text id d).
    { destruct (sql_select (blob_for id) (transcript_chunks d))
        as [|t rest] eqn:Hsel; [left; exact Hsel|].
      destruct (c_transcript_text t) eqn:Htext.
      - right. exists t, rest. rewrite Hsel. auto.
      - rewrite (Hblob t rest) in Hnone; [discriminate|reflexivity|].
        rewrite Htext. discriminate. }
    split; [exact Hno|]. apply Hnil.
    rewrite (Hfall Hno) in Hnone.
    destruct text; [reflexivity|discriminate].
  - intros [Hno Hall]. rewrite (Hfall Hno).
    apply Hnil in Hall. now rewrite Hall.
Qed.

Lemma get_transcript_data_sources_witness :
  get_transcript_data (lit "m1") blob_and_segments
    = Some (blob_dict blob_row None)
  /\ get_transcript_data (lit "m1") segments_with_gap
     = Some (segment_dict (lit "m1") ("a"%char :: LF :: lit "b") None).
Proof.
  split.
  - destruct (get_transcript_data_sources (lit "m1") blob_and_segments)
      as [_ [_ [H _]]].
    apply (H blob_row []); [reflexivity|discriminate].
  - destruct (get_transcript_data_sources (lit "m1") segments_with_gap)
      as [_ [_ [_ [H _]]]].
    apply H. left. reflexivity.
Defined.

(** ** Credentials *)

Section CredentialFacts.

Lemma get_set_key (c : api_key_column) (v : option str) (r : settings_row) :
  get_key c (set_key c v r) = v.
Proof. destruct c; reflexivity. Qed.

Lemma set_key_keeps_id (c : api_key_column) (v : option str)
  (r : settings_row) : s_id (set_key c v r) = s_id r.
Proof. reflexivity. Qed.

Lemma fetchone_no_key {row : Type} (key : row -> str) (k : str) (r : row)
  (t : list row) :
  key r = k ->
  fetchone (sql_select (fun x => str_eqb (key x) k) t) = None ->
  existsb (fun r' => str_eqb (key r') (key r)) t = false.
Proof.
  intros Hk H. apply (no_match_no_key key k t r Hk).
  unfold fetchone, sql_select in H.
  destruct (filter _ t); [reflexivity|discriminate].
Qed.

End CredentialFacts.

(** C7, as stated, for [save_api_key]: with the key "sk-live" stored,
    saving the masked value replaces the stored key by the mask itself, and
    saving the empty string leaves no key; with no settings at all, saving
    the masked value returns normally and stores the mask. *)
Lemma save_api_key_overwrites_with_mask :
  get_api_key (lit "openai") with_openai_key = Ok (lit "sk-live")
  /\ get_api_key (lit "openai")
       (fst (save_api_key (Some (lit "********")) (lit "openai")
                          with_openai_key))
     = Ok (lit "********")
  /\ get_api_key (lit "openai")
       (fst (save_api_key (Some []) (lit "openai") with_openai_key))
     = Ok []
  /\ snd (save_api_key (Some (lit "********")) (lit "openai") empty_db)
     = Ok tt
  /\ get_api_key (lit "openai")
       (fst (save_api_key (Some (lit "********")) (lit "openai") empty_db))
     = Ok (lit "********").
Proof. repeat split; reflexivity. Qed.

(** C7 (amended): the rule is the one of [save_jira_config].  [None],
    ["********"] and every empty or whitespace-only string are masked
    tokens.  Saving a masked token when a configuration with a non-empty
    token is stored returns normally and keeps that token, while url and
    email take the new values; saving a masked token when no configuration
    is stored, or the stored token is empty, raises a [ValueError] and
    changes nothing.  [save_api_key] has no such rule: for a valid provider
    it returns normally and the stored key of that provider is the value it
    was given. *)
Theorem credential_update_rule :
  (masked None = true /\ masked (Some (lit "********")) = true
   /\ forall t, blank t = true -> masked (Some t) = true)
  /\
  (forall url email api_token project_key issue_type d r,
      url <> [] -> email <> [] -> masked api_token = true ->
      fetchone (sql_select jira_1 (jira_settings d)) = Some r ->
      j_api_token r <> [] ->
      exists d' r',
        save_jira_config url email api_token project_key issue_type d
        = (d', Ok tt)
        /\ fetchone (sql_select jira_1 (jira_settings d')) = Some r'
        /\ j_api_token r' = j_api_token r
        /\ j_url r' = url /\ j_email r' = email)
  /\
  (forall url email api_token project_key issue_type d,
      url <> [] -> email <> [] -> masked api_token = true ->
      (fetchone (sql_select jira_1 (jira_settings d)) = None
       \/ exists r, fetchone (sql_select jira_1 (jira_settings d)) = Some r
                    /\ j_api_token r = []) ->
      save_jira_config url email api_token project_key issue_type d
      = (d, Raise (ValueError
                     (lit "API Token is required for new configuration"))))
  /\
  (forall api_key provider column d,
      api_key_name provider = Ok column ->
      exists d' r,
        save_api_key api_key provider d = (d', Ok tt)
        /\ fetchone (sql_select settings_1 (settings d')) = Some r
        /\ get_key column r = api_key).
Proof.
  split.
  { repeat split; try reflexivity. intros t Ht. unfold masked.
    apply strip_blank in Ht. rewrite Ht.
    destruct (truthy_opt (Some t)); reflexivity. }
  split; [|split].
  - intros url email api_token project_key issue_type d r Hu He Hm Hr Ht.
    unfold save_jira_config.
    apply truthy_true in Hu, He, Ht. rewrite Hu, He. simpl.
    rewrite Hr. simpl. rewrite Hm, Ht.
    unfold sql_update. eexists.
    exists (set_jira url email (j_api_token r) project_key issue_type r).
    split; [reflexivity|]. simpl.
    unfold sql_select, jira_1 in *.
    rewrite (update_select j_id
               (set_jira url email (j_api_token r) project_key issue_type)
               (lit "1") (fun x => eq_refl)).
    unfold fetchone in *.
    destruct (filter _ (jira_settings d)) as [|x l]; [discriminate|].
    injection Hr as ->. simpl. repeat split; reflexivity.
  - intros url email api_token project_key issue_type d Hu He Hm Hr.
    unfold save_jira_config.
    apply truthy_true in Hu, He. rewrite Hu, He. simpl.
    destruct Hr as [Hr|[r [Hr Ht]]]; rewrite Hr; simpl; rewrite Hm.
    + reflexivity.
    + rewrite Ht. reflexivity.
  - intros api_key provider column d Hc. unfold save_api_key. rewrite Hc.
    destruct (fetchone (sql_select settings_1 (settings d))) as [r|] eqn:Hr.
    + unfold sql_update. eexists. exists (set_key column api_key r).
      split; [reflexivity|]. simpl.
      unfold sql_select, settings_1 in *.
      rewrite (update_select s_id (set_key column api_key) (lit "1")
                 (set_key_keeps_id column api_key)).
      unfold fetchone in *.
      destruct (filter _ (settings d)) as [|x l]; [discriminate|].
      injection Hr as ->. simpl. split; [reflexivity|apply get_set_key].
    + unfold sql_insert.
      rewrite (fetchone_no_key s_id (lit "1")
                 (default_settings column api_key) (settings d) eq_refl Hr).
      eexists. exists (default_settings column api_key).
      split; [reflexivity|]. simpl.
      unfold sql_select, settings_1 in *.
      rewrite (select_app s_id (lit "1") (settings d)
                 (default_settings column api_key) eq_refl).
      unfold fetchone in *.
      destruct (filter _ (settings d)) as [|x l]; [|discriminate].
      simpl. split; [reflexivity|apply get_set_key].
Qed.

Lemma credential_update_rule_witness :
  (exists d' r',
      save_jira_config (lit "https://example.atlassian.net")
                       (lit "ops@example.com") (Some (lit "********"))
                       (Some (lit "OPS")) None with_jira
      = (d', Ok tt)
      /\ fetchone (sql_select jira_1 (jira_settings d')) = Some r'
      /\ j_api_token r' = lit "token-1"
      /\ j_url r' = lit "https://example.atlassian.net"
      /\ j_email r' = lit "ops@example.com")
  /\
  save_jira_config (lit "https://example.atlassian.net")
                   (lit "ops@example.com") (Some (lit "********"))
                   None None empty_db
  = (empty_db,
     Raise (ValueError (lit "API Token is required for new configuration")))
  /\
  (exists d' r,
      save_api_key (Some (lit "********")) (lit "openai") with_openai_key
      = (d', Ok tt)
      /\ fetchone (sql_select settings_1 (settings d')) = Some r
      /\ get_key openaiApiKey r = Some (lit "********")).
Proof.
  destruct credential_update_rule as [_ [Hkeep [Hnew Hkey]]].
  split; [|split].
  - apply (Hkeep (lit "https://example.atlassian.net")
                 (lit "ops@example.com") (Some (lit "********"))
                 (Some (lit "OPS")) None with_jira
                 (new_jira (lit "https://example.atlassian.net")
                           (lit "dev@example.com") (lit "token-1") None None));
      try discriminate; reflexivity.
  - apply Hnew; try discriminate; try reflexivity. left. reflexivity.
  - apply Hkey. reflexivity.
Defined.

(** ** Code fences *)

Section FenceFacts.

Lemma startswith_app (p s : str) : startswith (p ++ s) p = true.
Proof.
  induction p as [|c p IH]; [destruct s; reflexivity|]. simpl.
  now rewrite Ascii.eqb_refl, IH.
Qed.

Lemma endswith_app (s p : str) : endswith (s ++ p) p = true.
Proof. unfold endswith. rewrite rev_app_distr. apply startswith_app. Qed.

(** [(p + s)[len(p):]] is [s]. *)
Lemma slice_after_prefix {A : Type} (p s : list A) :
  slice (p ++ s) (Some (len p)) None = s.
Proof.
  unfold slice, clamp_index. rewrite len_app.
  pose proof (len_nonneg p) as Hp. pose proof (len_nonneg s) as Hs.
  destruct (len p <? 0) eqn:E; [zbool; lia|].
  rewrite Z.min_l by lia.
  replace (Z.to_nat (len p)) with (List.length p) by (unfold len; lia).
  rewrite skipn_app, skipn_all, Nat.sub_diag. simpl.
  apply firstn_all2. unfold len. lia.
Qed.

(** [(s + p)[:-len(p)]] is [s], for a non-empty [p]. *)
Lemma slice_before_suffix {A : Type} (s p : list A) :
  p <> [] -> slice (s ++ p) None (Some (- len p)) = s.
Proof.
  intros Hne. unfold slice, clamp_index. rewrite len_app.
  assert (Hp : 0 < len p) by (destruct p; [congruence|unfold len; simpl; lia]).
  pose proof (len_nonneg s) as Hs.
  destruct (- len p <? 0) eqn:E; [|zbool; lia].
  rewrite Z.max_r by lia. simpl skipn.
  replace (Z.to_nat (- len p + (len s + len p) - 0)) with (List.length s)
    by (unfold len; lia).
  rewrite firstn_app, Nat.sub_diag, firstn_all. simpl. apply app_nil_r.
Qed.

Lemma strip_fenced (body : str) :
  strip (lit "```" ++ body ++ lit "```") = lit "```" ++ body ++ lit "```".
Proof.
  apply stripped_strip. split.
  - reflexivity.
  - rewrite app_assoc. rewrite rstrip_app_nonblank; [reflexivity|].
    discriminate.
Qed.

End FenceFacts.

(** C8, as stated, for the JSON text that ends with a line feed (the closing
    fence on a line of its own): the result is the text without that line
    feed, not the text itself. *)
Lemma strip_code_fence_trims_the_json :
  _strip_code_fence (lit "```json" ++ [LF] ++ (lit "{}" ++ [LF]) ++ lit "```")
    = lit "{}"
  /\ lit "{}" <> lit "{}" ++ [LF].
Proof. split; [reflexivity|discriminate]. Qed.

(** C8 (amended): applied to a text [j] wrapped as "```json", line feed,
    [j], "```", [_strip_code_fence] yields [j] with its surrounding
    whitespace trimmed, which is [j] itself when [j] has none; applied to a
    payload that, once trimmed, does not start with a fence, it yields the
    trimmed payload. *)
Theorem strip_code_fence_unwraps :
  (forall j, _strip_code_fence (lit "```json" ++ [LF] ++ j ++ lit "```")
             = strip j)
  /\ (forall j, stripped j ->
                _strip_code_fence (lit "```json" ++ [LF] ++ j ++ lit "```")
                = j)
  /\ (forall payload, startswith (strip payload) (lit "```") = false ->
                      _strip_code_fence payload = strip payload).
Proof.
  assert (H : forall j,
             _strip_code_fence (lit "```json" ++ [LF] ++ j ++ lit "```")
             = strip j).
  { intros j. unfold _strip_code_fence.
    change (lit "```json" ++ [LF] ++ j ++ lit "```")
      with (lit "```" ++ (lit "json" ++ LF :: j) ++ lit "```").
    rewrite strip_fenced.
    rewrite startswith_app. simpl negb. cbv iota.
    change 3 with (len (lit "```")). rewrite slice_after_prefix.
    change (lstrip ((lit "json" ++ LF :: j) ++ lit "```"))
      with (lit "json" ++ (LF :: j) ++ lit "```").
    change (lower (lit "json" ++ (LF :: j) ++ lit "```"))
      with (lit "json" ++ lower ((LF :: j) ++ lit "```")).
    rewrite startswith_app.
    change 4 with (len (lit "json")). rewrite slice_after_prefix.
    rewrite endswith_app.
    change (-3) with (- len (lit "```")).
    rewrite slice_before_suffix by discriminate.
    reflexivity. }
  split; [exact H|]. split.
  - intros j Hj. rewrite H. now apply stripped_strip.
  - intros payload Hs. unfold _strip_code_fence. now rewrite Hs.
Qed.

Lemma strip_code_fence_unwraps_witness :
  _strip_code_fence (lit "```json" ++ [LF] ++ lit "[1, 2]" ++ lit "```")
    = lit "[1, 2]"
  /\ _strip_code_fence (lit "  [1, 2] ") = strip (lit "  [1, 2] ").
Proof.
  destruct strip_code_fence_unwraps as [_ [Hfenced Hplain]]. split.
  - apply (Hfenced (lit "[1, 2]")). split; reflexivity.
  - apply (Hplain (lit "  [1, 2] ")). reflexivity.
Defined.

(** ** Task suggestions *)

Section TaskFacts.

Lemma isspace_upper_char (c : ascii) : isspace (upper_char c) = isspace c.
Proof. destruct c as [[] [] [] [] [] [] [] []]; reflexivity. Qed.

Lemma isalpha_upper_char (c : ascii) : isalpha (upper_char c) = isalpha c.
Proof. destruct c as [[] [] [] [] [] [] [] []]; reflexivity. Qed.

Lemma validate_summary_good (v s : str) :
  validate_summary v = Ok s -> good_summary s.
Proof.
  unfold validate_summary.
  destruct (negb (truthy v) || (len (strip v) <? 10)) eqn:E1; [discriminate|].
  destruct (len (split v) <? 2) eqn:E2; [discriminate|].
  destruct (2 * len (filter valid_word (split v)) <? len (split v)) eqn:E3;
    [discriminate|].
  intros H. injection H as <-.
  apply orb_false_iff in E1 as [_ E1]. zbool.
  unfold good_summary. rewrite split_strip.
  repeat split; try lia; apply strip_stripped.
Qed.

Lemma good_summary_validates (s : str) :
  good_summary s -> validate_summary s = Ok s.
Proof.
  intros [Hs [Hlen [Hw Hv]]]. unfold validate_summary.
  rewrite (stripped_strip s Hs).
  assert (Ht : truthy s = true).
  { destruct s; [unfold len in Hlen; simpl in Hlen; lia|reflexivity]. }
  rewrite Ht. cbn [negb orb].
  destruct (len s <? 10) eqn:E1; [zbool; lia|].
  destruct (len (split s) <? 2) eqn:E2; [zbool; lia|].
  destruct (2 * len (filter valid_word (split s)) <? len (split s)) eqn:E3;
    [zbool; lia|].
  reflexivity.
Qed.

Lemma validate_description_good (v s : str) :
  validate_description v = Ok s -> good_description s.
Proof.
  unfold validate_description.
  destruct (negb (truthy v) || (len (strip v) <? 20)) eqn:E1; [discriminate|].
  intros H. injection H as <-.
  apply orb_false_iff in E1 as [_ E1]. zbool.
  split; [apply strip_stripped|lia].
Qed.

Lemma good_description_validates (s : str) :
  good_description s -> validate_description s = Ok s.
Proof.
  intros [Hs Hlen]. unfold validate_description.
  rewrite (stripped_strip s Hs).
  assert (Ht : truthy s = true).
  { destruct s; [unfold len in Hlen; simpl in Hlen; lia|reflexivity]. }
  rewrite Ht. cbn [negb orb].
  destruct (len s <? 20) eqn:E1; [zbool; lia|]. reflexivity.
Qed.

(** A verb, a space and a good summary make a good summary. *)
Lemma good_summary_prefixed (c : ascii) (w s : str) :
  isspace c = false ->
  forallb (fun x => negb (isspace x)) w = true ->
  valid_word (c :: w) = true ->
  good_summary s -> good_summary ((c :: w) ++ " "%char :: s).
Proof.
  intros Hc Hw Hv [Hs [Hlen [Hn Hr]]].
  assert (Hne : s <> []).
  { intros ->. unfold len in Hlen. simpl in Hlen. lia. }
  assert (Hst : stripped ((c :: w) ++ " "%char :: s)).
  { replace ((c :: w) ++ " "%char :: s) with (c :: (w ++ [" "%char]) ++ s)
      by (simpl; now rewrite <- app_assoc).
    now apply stripped_prefix. }
  unfold good_summary.
  rewrite split_word_space;
    [|discriminate|simpl; rewrite Hc; exact Hw].
  cbn [filter]. rewrite Hv. rewrite len_app, !len_cons.
  pose proof (len_nonneg w).
  split; [exact Hst|]. lia.
Qed.

Lemma good_summary_capitalized (s : str) :
  good_summary s -> good_summary (capitalize_first s).
Proof.
  intros [Hs [Hlen [Hn Hr]]].
  destruct s as [|c s]; [unfold len in Hlen; simpl in Hlen; lia|].
  pose proof (stripped_cons_head c s Hs) as Hc.
  assert (Hc' : isspace (upper_char c) = false)
    by (now rewrite isspace_upper_char).
  unfold good_summary, capitalize_first.
  rewrite split_cons_nonspace in * by assumption.
  cbn [filter] in *.
  assert (Hv : valid_word (upper_char c :: fst (words_from s))
               = valid_word (c :: fst (words_from s))).
  { unfold valid_word. rewrite isalpha_upper_char. reflexivity. }
  rewrite Hv.
  repeat split.
  - now apply lstrip_nonspace.
  - apply (stripped_replace_head c (upper_char c) s Hc' Hs).
  - exact Hlen.
  - exact Hn.
  - destruct (valid_word (c :: fst (words_from s))); exact Hr.
Qed.

Lemma good_summary_with_verb (ty s : str) :
  good_summary s -> good_summary (with_verb ty s).
Proof.
  intros H. unfold with_verb.
  destruct (negb (mem (first_word s) action_verbs)); [|exact H].
  destruct (contains (lower ty) (lit "bug") || _ || _).
  - apply (good_summary_prefixed "F"%char (lit "ix") s); auto.
  - destruct (contains (lower s) (lit "outage") || _).
    + apply (good_summary_prefixed "R"%char (lit "esolve") s); auto.
    + apply (good_summary_prefixed "A"%char (lit "ddress") s); auto.
Qed.

Lemma table_get_value (table : list (str * str)) (k d : str) :
  table_get table k d = d \/ In (table_get table k d) (map snd table).
Proof.
  induction table as [|[k' v] table IH]; simpl; [now left|].
  destruct (str_eqb k' k); [right; now left|].
  destruct IH as [IH|IH]; [now left|right; now right].
Qed.

Lemma table_get_key (table : list (str * str)) (k d v : str) :
  table_get table k d = v -> v <> d ->
  exists k', In (k', v) table /\ k' = k.
Proof.
  induction table as [|[k' v'] table IH]; simpl; [congruence|].
  destruct (str_eqb k' k) eqn:E.
  - intros <- _. apply str_eqb_eq in E. exists k'. auto.
  - intros H Hd. destruct (IH H Hd) as [k0 [Hin Hk]]. exists k0. auto.
Qed.

Lemma type_values_stripped : Forall stripped (map snd type_map).
Proof. repeat constructor. Qed.

(** The type validator returns ["Epic"] only for a type that reads "epic". *)
Lemma validate_type_epic (v : str) :
  validate_type v = lit "Epic" -> lower (strip v) = lit "epic".
Proof.
  unfold validate_type. intros H.
  destruct (list_eq_dec ascii_dec (strip v) (lit "Epic")) as [E|E].
  - rewrite E. reflexivity.
  - destruct (table_get_key type_map (lower (strip v)) (strip v) (lit "Epic") H)
      as [k [Hin Hk]]; [congruence|].
    subst k. simpl in Hin.
    repeat (destruct Hin as [Hin|Hin];
            [injection Hin as Hk; try discriminate; now symmetry|]).
    contradiction.
Qed.

Lemma validate_type_stripped (v : str) : stripped (validate_type v).
Proof.
  unfold validate_type.
  destruct (table_get_value type_map (lower (strip v)) (strip v)) as [->|Hin].
  - apply strip_stripped.
  - pose proof type_values_stripped as H.
    rewrite Forall_forall in H. now apply H.
Qed.

Lemma fix_type_stripped (ty s : str) : stripped ty -> stripped (fix_type ty s).
Proof.
  intros H. unfold fix_type.
  destruct (str_eqb (lower ty) (lit "epic")); [|exact H].
  destruct (_ || _); split; reflexivity.
Qed.

Lemma fix_type_not_epic (ty s : str) : lower (fix_type ty s) <> lit "epic".
Proof.
  unfold fix_type. destruct (str_eqb (lower ty) (lit "epic")) eqn:E.
  - destruct (_ || _); discriminate.
  - now apply str_eqb_neq.
Qed.

(** Re-validating a fixed type never yields ["Epic"]. *)
Lemma validate_fix_type (ty s : str) :
  stripped ty -> validate_type (fix_type ty s) <> lit "Epic".
Proof.
  intros Hty H. apply validate_type_epic in H.
  rewrite (stripped_strip _ (fix_type_stripped ty s Hty)) in H.
  now apply (fix_type_not_epic ty s).
Qed.

End TaskFacts.

Section PostProcessFacts.

Lemma constructed_fields (t : JiraTaskSuggestion) :
  constructed t ->
  good_summary (summary t) /\ good_description (description t)
  /\ stripped (type t).
Proof.
  intros (s & d & p & ty & a & aid & l & ri & H).
  unfold new_JiraTaskSuggestion in H.
  destruct (validate_summary s) as [s'|e] eqn:Es;
    [|destruct (validate_description d); discriminate].
  destruct (validate_description d) as [d'|e] eqn:Ed; [|discriminate].
  injection H as <-. simpl. repeat split.
  - apply (validate_summary_good s s' Es).
  - apply (validate_summary_good s s' Es).
  - apply (validate_summary_good s s' Es).
  - apply (validate_summary_good s s' Es).
  - apply (validate_summary_good s s' Es).
  - apply (validate_description_good d d' Ed).
  - apply (validate_description_good d d' Ed).
  - apply (validate_description_good d d' Ed).
  - apply validate_type_stripped.
  - apply validate_type_stripped.
Qed.

(** On a constructed task the construction of the cleaned task succeeds, so
    the loop either skips the task or appends the cleaned one. *)
Lemma post_process_task_constructed (t : JiraTaskSuggestion) :
  constructed t ->
  (post_process_task t = None /\ _is_valid_english (summary t) = false)
  \/ exists t',
       post_process_task t = Some t'
       /\ summary t' = capitalize_first (with_verb (type t) (summary t))
       /\ description t' = description t
       /\ type t' = validate_type (fix_type (type t) (summary t')).
Proof.
  intros Hc. destruct (constructed_fields t Hc) as [Hs [Hd Hty]].
  unfold post_process_task.
  rewrite (stripped_strip (summary t) (proj1 Hs)).
  destruct (_is_valid_english (summary t)); [|now left]. right.
  cbn [negb].
  unfold new_JiraTaskSuggestion.
  rewrite (good_summary_validates
             (capitalize_first (with_verb (type t) (summary t)))
             (good_summary_capitalized _ (good_summary_with_verb _ _ Hs))).
  rewrite (good_description_validates (description t) Hd).
  eexists. split; [reflexivity|]. simpl. repeat split.
Qed.

End PostProcessFacts.

(** C6: on a list of constructed task suggestions, no task returned by
    [_post_process_tasks] has type "Epic".  A suggestion constructed with
    summary "bug in login flow" and type "epic" is returned with type "Bug"
    and summary "Address bug in login flow": its first word is an action
    verb and its first letter a capital. *)
Theorem post_process_tasks_no_epic :
  (forall tasks,
      Forall constructed tasks ->
      Forall (fun t => type t <> lit "Epic") (_post_process_tasks tasks))
  /\
  (forall description priority assignee assignee_account_id labels
          related_issues t,
      new_JiraTaskSuggestion (lit "bug in login flow") description priority
                             (lit "epic") assignee assignee_account_id labels
                             related_issues = Ok t ->
      exists t' c rest,
        _post_process_tasks [t] = [t']
        /\ (type t' = lit "Bug" \/ type t' = lit "Task")
        /\ summary t' = lit "Address bug in login flow"
        /\ mem (first_word (summary t')) action_verbs = true
        /\ summary t' = c :: rest /\ isupper c = true).
Proof.
  split.
  - intros tasks Hall. apply Forall_forall. intros t' Hin.
    unfold _post_process_tasks in Hin.
    apply in_flat_map in Hin as [t [Ht Hin]].
    rewrite Forall_forall in Hall. pose proof (Hall t Ht) as Hc.
    destruct (post_process_task_constructed t Hc)
      as [[Hnone _]|[t1 [Hsome [_ [_ Hty]]]]].
    + rewrite Hnone in Hin. contradiction.
    + rewrite Hsome in Hin. destruct Hin as [<-|[]].
      rewrite Hty. apply validate_fix_type.
      apply (constructed_fields t Hc).
  - intros d p a aid l ri t H.
    assert (Hc : constructed t) by (repeat eexists; exact H).
    unfold new_JiraTaskSuggestion in H.
    assert (Es : validate_summary (lit "bug in login flow")
                 = Ok (lit "bug in login flow")) by reflexivity.
    rewrite Es in H.
    destruct (validate_description d) as [d'|e] eqn:Ed; [|discriminate].
    injection H as <-.
    destruct (post_process_task_constructed _ Hc)
      as [[_ Hnone]|[t1 [Hsome [Hsum [_ Hty]]]]].
    + exfalso. vm_compute in Hnone. discriminate.
    + cbn [summary type] in Hsum, Hty.
      assert (Hsum' : summary t1 = lit "Address bug in login flow")
        by (rewrite Hsum; vm_compute; reflexivity).
      assert (Hty' : type t1 = lit "Bug")
        by (rewrite Hty, Hsum'; vm_compute; reflexivity).
      exists t1, "A"%char, (lit "ddress bug in login flow").
      unfold _post_process_tasks. cbn [flat_map]. rewrite Hsome.
      rewrite Hsum', Hty'. repeat split; auto.
Qed.

Lemma post_process_tasks_no_epic_witness :
  Forall (fun t => type t <> lit "Epic") (_post_process_tasks [epic_task])
  /\
  (exists t' c rest,
      _post_process_tasks [epic_task] = [t']
      /\ (type t' = lit "Bug" \/ type t' = lit "Task")
      /\ summary t' = lit "Address bug in login flow"
      /\ mem (first_word (summary t')) action_verbs = true
      /\ summary t' = c :: rest /\ isupper c = true).
Proof.
  destruct post_process_tasks_no_epic as [Hall Hex].
  assert (Hnew : new_JiraTaskSuggestion (lit "bug in login flow")
                   (lit "The login flow fails for some users on submit")
                   (lit "low") (lit "epic") (lit "Unassigned") None None None
                 = Ok epic_task) by reflexivity.
  split.
  - apply Hall. constructor; [|constructor].
    unfold constructed. repeat eexists. exact Hnew.
  - apply (Hex _ _ _ _ _ _ _ Hnew).
Defined.

(** * Further properties *)

(** ** Windows of a text *)

Section WindowFacts.

Lemma flat_map_map_list {A B C : Type} (f : B -> list C) (g : A -> B)
  (l : list A) :
  flat_map f (map g l) = flat_map (fun x => f (g x)) l.
Proof.
  induction l as [|x l IH]; simpl; [reflexivity|]. now rewrite IH.
Qed.

Lemma flat_map_ext_in_list {A B : Type} (f g : A -> list B) (l : list A) :
  (forall x, In x l -> f x = g x) -> flat_map f l = flat_map g l.
Proof.
  induction l as [|x l IH]; intros H; simpl; [reflexivity|].
  rewrite (H x (or_introl eq_refl)), IH; [reflexivity|].
  intros y Hy. apply H. now right.
Qed.

(** Cutting a list at multiples of [s] loses nothing. *)
Lemma strides_cover {A : Type} (s m : nat) (l : list A) :
  (List.length l <= m * s)%nat ->
  flat_map (fun k => firstn s (skipn (k * s) l)) (seq 0 m) = l.
Proof.
  revert l. induction m as [|m IH]; intros l Hl.
  - simpl in *. destruct l; [reflexivity|simpl in Hl; lia].
  - change (seq 0 (S m)) with (0%nat :: seq 1 m).
    rewrite <- seq_shift. simpl flat_map. rewrite flat_map_map_list.
    rewrite (flat_map_ext_in_list _
               (fun k => firstn s (skipn (k * s) (skipn s l)))).
    + rewrite IH; [apply firstn_skipn|].
      rewrite length_skipn. simpl in Hl. lia.
    + intros k _. rewrite skipn_skipn. f_equal. f_equal. simpl. lia.
Qed.

(** A window that starts inside the list, as [firstn] and [skipn]. *)
Lemma slice_window {A : Type} (l : list A) (i c : Z) :
  0 <= i <= len l -> 0 <= c ->
  slice l (Some i) (Some (i + c))
  = firstn (Z.to_nat c) (skipn (Z.to_nat i) l).
Proof.
  intros Hi Hc. unfold slice, clamp_index.
  destruct (i <? 0) eqn:E1; [zbool; lia|].
  destruct (i + c <? 0) eqn:E2; [zbool; lia|].
  rewrite (Z.min_l i) by lia.
  set (t := skipn (Z.to_nat i) l).
  assert (Ht : List.length t = Z.to_nat (len l - i)).
  { unfold t. rewrite length_skipn. unfold len in *. lia. }
  destruct (Z.le_ge_cases (i + c) (len l)) as [Hle|Hge].
  - rewrite Z.min_l by lia. f_equal. lia.
  - rewrite Z.min_r by lia.
    rewrite !firstn_all2; [reflexivity| |]; rewrite Ht; lia.
Qed.

Lemma chunk_step_bounds (chunk_size overlap : Z) :
  0 < chunk_size -> 0 <= overlap ->
  0 < chunk_step chunk_size overlap <= chunk_size.
Proof.
  intros Hc Ho. unfold chunk_step.
  destruct (chunk_size - overlap <=? 0) eqn:E; zbool; lia.
Qed.

Lemma range_length_ceil (n step : Z) :
  0 <= n -> 0 < step ->
  range_length 0 n step = (n + step - 1) / step
  /\ 0 <= range_length 0 n step
  /\ n <= range_length 0 n step * step
  /\ (0 < n -> (range_length 0 n step - 1) * step < n).
Proof.
  intros Hn Hs. unfold range_length.
  destruct (0 <? step) eqn:E1; [|zbool; lia].
  destruct (0 <? n) eqn:E2; zbool.
  - replace (n - 0 - 1) with (n - 1) by lia.
    replace (n + step - 1) with (n - 1 + 1 * step) by lia.
    rewrite Z.div_add by lia.
    pose proof (Z.div_pos (n - 1) step ltac:(lia) Hs).
    pose proof (Z.mul_div_le (n - 1) step Hs).
    pose proof (Z.mul_succ_div_gt (n - 1) step Hs).
    repeat split; try lia; nia.
  - assert (n = 0) by lia. subst n.
    rewrite Z.div_small by lia. repeat split; lia.
Qed.

End WindowFacts.

(** The chunks are the windows of [chunk_size] characters that start at the
    multiples of the stride below the length of the text. *)
Lemma split_chunks_windows (text : str) (chunk_size overlap : Z) :
  0 < chunk_size -> 0 <= overlap ->
  let step := chunk_step chunk_size overlap in
  let count := Z.to_nat (range_length 0 (len text) step) in
  split_chunks text chunk_size overlap
  = Ok (map (fun k => firstn (Z.to_nat chunk_size)
                             (skipn (k * Z.to_nat step) text))
            (seq 0 count))
  /\ (forall k, In k (seq 0 count) -> 0 <= Z.of_nat k * step < len text).
Proof.
  intros Hc Ho step count.
  pose proof (chunk_step_bounds chunk_size overlap Hc Ho) as Hstep.
  fold step in Hstep.
  pose proof (len_nonneg text) as Hn.
  destruct (range_length_ceil (len text) step Hn ltac:(lia))
    as [Hceil [Hk0 [Hup Hlow]]].
  assert (Hidx : forall k, In k (seq 0 count) ->
                 0 <= Z.of_nat k * step < len text).
  { intros k Hk. apply in_seq in Hk. unfold count in Hk.
    assert (0 < len text).
    { destruct (Z.eq_dec (len text) 0) as [E|E]; [|lia].
      rewrite E in Hk. unfold range_length in Hk.
      destruct (0 <? step); simpl in Hk; lia. }
    specialize (Hlow H). nia. }
  split; [|exact Hidx].
  unfold split_chunks, range. fold step.
  destruct (step =? 0) eqn:E; [zbool; lia|]. cbn [bind].
  fold count. rewrite map_map. f_equal.
  apply map_ext_in. intros k Hk. specialize (Hidx k Hk).
  rewrite slice_window by lia. f_equal. f_equal. nia.
Qed.

(** X1: with a positive chunk size and a non-negative overlap the chunking
    returns; the stride is positive and at most the chunk size; the first
    [stride] characters of the chunks, put end to end, are the text, so no
    character is left out; every chunk has between 1 and [chunk_size]
    characters; and there are [ceil(len(text) / stride)] chunks. *)
Theorem chunks_cover_text (text : str) (chunk_size overlap : Z) :
  0 < chunk_size -> 0 <= overlap ->
  let step := chunk_step chunk_size overlap in
  exists chunks,
    split_chunks text chunk_size overlap = Ok chunks
    /\ 0 < step <= chunk_size
    /\ flat_map (firstn (Z.to_nat step)) chunks = text
    /\ Forall (fun chunk => 1 <= len chunk <= chunk_size) chunks
    /\ len chunks = (len text + step - 1) / step.
Proof.
  intros Hc Ho step.
  pose proof (chunk_step_bounds chunk_size overlap Hc Ho) as Hstep.
  fold step in Hstep.
  destruct (range_length_ceil (len text) step (len_nonneg text) ltac:(lia))
    as [Hceil [Hk0 [Hup _]]].
  destruct (split_chunks_windows text chunk_size overlap Hc Ho)
    as [Esplit Hidx].
  fold step in Esplit, Hidx.
  eexists. split; [exact Esplit|]. split; [exact Hstep|]. repeat split.
  - rewrite flat_map_map_list.
    rewrite (flat_map_ext_in_list _
               (fun k => firstn (Z.to_nat step)
                                (skipn (k * Z.to_nat step) text))).
    + apply strides_cover. unfold len in *. nia.
    + intros k Hk. rewrite firstn_firstn. f_equal. lia.
  - apply Forall_forall. intros chunk Hin.
    apply in_map_iff in Hin as [k [<- Hk]]. specialize (Hidx k Hk).
    unfold len in *. rewrite length_firstn, length_skipn. nia.
  - unfold len at 1. rewrite length_map, length_seq. lia.
Qed.

Lemma chunks_cover_text_witness :
  exists chunks,
    split_chunks (lit "abcdefg") 3 1 = Ok chunks
    /\ 0 < chunk_step 3 1 <= 3
    /\ flat_map (firstn (Z.to_nat (chunk_step 3 1))) chunks = lit "abcdefg"
    /\ Forall (fun chunk => 1 <= len chunk <= 3) chunks
    /\ len chunks = (len (lit "abcdefg") + chunk_step 3 1 - 1) / chunk_step 3 1.
Proof.
  apply (chunks_cover_text (lit "abcdefg") 3 1); lia.
Defined.

(** ** Provider selection and the summary pipeline *)

Section DispatchFacts.

Lemma get_api_key_stored (provider : str) (c : api_key_column) (d : db) :
  api_key_name provider = Ok c ->
  get_api_key provider d = Ok (stored_key c d).
Proof.
  intros H. unfold get_api_key, stored_key, bind. rewrite H.
  destruct (fetchone (sql_select settings_1 (settings d))) as [r|];
    [|reflexivity].
  destruct (get_key c r) as [[|x k]|]; reflexivity.
Qed.

Lemma not_truthy (s : str) : negb (truthy s) = true <-> s = [].
Proof. destruct s; simpl; split; congruence. Qed.

End DispatchFacts.

(** X2: the provider selection returns normally exactly for ["ollama"]; for
    ["claude"], ["groq"] and ["openai"] when the stored key of the provider
    is not empty; and for ["gemini"] when the stored key or the environment
    value is not empty.  In every other case it raises a [ValueError]; for a
    provider outside the five the message names the provider. *)
Theorem select_provider_accepts (google_api_key model : str) (d : db) :
  (select_provider google_api_key model d = Ok tt <->
   model = lit "ollama"
   \/ (model = lit "claude" /\ stored_key anthropicApiKey d <> [])
   \/ (model = lit "groq" /\ stored_key groqApiKey d <> [])
   \/ (model = lit "openai" /\ stored_key openaiApiKey d <> [])
   \/ (model = lit "gemini"
       /\ (stored_key geminiApiKey d <> [] \/ google_api_key <> [])))
  /\ (exists msg,
        select_provider google_api_key model d = Ok tt
        \/ select_provider google_api_key model d = Raise (ValueError msg))
  /\ (~ In model [lit "claude"; lit "ollama"; lit "gemini"; lit "groq";
                  lit "openai"] ->
      select_provider google_api_key model d
      = Raise (ValueError (lit "Unsupported model provider: " ++ model))).
Proof.
  unfold select_provider.
  destruct (str_eqb model (lit "claude")) eqn:E1.
  { apply str_eqb_eq in E1. subst model.
    rewrite (get_api_key_stored (lit "claude") anthropicApiKey d eq_refl).
    cbn [bind].
    destruct (stored_key anthropicApiKey d) as [|x k] eqn:K; cbn [truthy negb].
    - split; [|split; [eexists; right; reflexivity|]].
      + split; [discriminate|].
        intros [H|[[_ H]|[[H _]|[[H _]|[H _]]]]];
          try discriminate; congruence.
      + intros H. exfalso. apply H. simpl. tauto.
    - split; [|split; [exists []; now left|]].
      + split; [|reflexivity]. intros _. right. left. split; [reflexivity|].
        discriminate.
      + intros H. exfalso. apply H. simpl. tauto. }
  destruct (str_eqb model (lit "ollama")) eqn:E2.
  { apply str_eqb_eq in E2. subst model.
    split; [|split; [exists []; now left|]].
    - split; [now left|reflexivity].
    - intros H. exfalso. apply H. simpl. tauto. }
  destruct (str_eqb model (lit "gemini")) eqn:E3.
  { apply str_eqb_eq in E3. subst model.
    rewrite (get_api_key_stored (lit "gemini") geminiApiKey d eq_refl).
    cbn [bind].
    destruct (stored_key geminiApiKey d) as [|x k] eqn:K; cbn [truthy negb].
    - destruct google_api_key as [|y g]; cbn [truthy negb].
      + split; [|split; [eexists; right; reflexivity|]].
        * split; [discriminate|].
          intros [H|[[H _]|[[H _]|[[H _]|[_ [H|H]]]]]];
            try discriminate; congruence.
        * intros H. exfalso. apply H. simpl. tauto.
      + split; [|split; [exists []; now left|]].
        * split; [|reflexivity]. intros _. do 4 right.
          split; [reflexivity|]. right. discriminate.
        * intros H. exfalso. apply H. simpl. tauto.
    - split; [|split; [exists []; now left|]].
      + split; [|reflexivity]. intros _. do 4 right.
        split; [reflexivity|]. left. discriminate.
      + intros H. exfalso. apply H. simpl. tauto. }
  destruct (str_eqb model (lit "groq")) eqn:E4.
  { apply str_eqb_eq in E4. subst model.
    rewrite (get_api_key_stored (lit "groq") groqApiKey d eq_refl).
    cbn [bind].
    destruct (stored_key groqApiKey d) as [|x k] eqn:K; cbn [truthy negb].
    - split; [|split; [eexists; right; reflexivity|]].
      + split; [discriminate|].
        intros [H|[[H _]|[[_ H]|[[H _]|[H _]]]]];
          try discriminate; congruence.
      + intros H. exfalso. apply H. simpl. tauto.
    - split; [|split; [exists []; now left|]].
      + split; [|reflexivity]. intros _. right. right. left.
        split; [reflexivity|]. discriminate.
      + intros H. exfalso. apply H. simpl. tauto. }
  destruct (str_eqb model (lit "openai")) eqn:E5.
  { apply str_eqb_eq in E5. subst model.
    rewrite (get_api_key_stored (lit "openai") openaiApiKey d eq_refl).
    cbn [bind].
    destruct (stored_key openaiApiKey d) as [|x k] eqn:K; cbn [truthy negb].
    - split; [|split; [eexists; right; reflexivity|]].
      + split; [discriminate|].
        intros [H|[[H _]|[[H _]|[[_ H]|[H _]]]]];
          try discriminate; congruence.
      + intros H. exfalso. apply H. simpl. tauto.
    - split; [|split; [exists []; now left|]].
      + split; [|reflexivity]. intros _. do 3 right. left.
        split; [reflexivity|]. discriminate.
      + intros H. exfalso. apply H. simpl. tauto. }
  apply str_eqb_neq in E1, E2, E3, E4, E5.
  split; [|split; [eexists; right; reflexivity|reflexivity]].
  split; [discriminate|].
  intros [H|[[H _]|[[H _]|[[H _]|[H _]]]]]; contradiction.
Qed.

Lemma select_provider_accepts_witness :
  select_provider [] (lit "azure") empty_db
  = Raise (ValueError (lit "Unsupported model provider: azure")).
Proof.
  apply (proj2 (proj2 (select_provider_accepts [] (lit "azure") empty_db))).
  simpl. intros [H|[H|[H|[H|[H|[]]]]]]; discriminate H.
Defined.

Section PipelineFacts.

Lemma flat_map_at_most_one {A B : Type} (f : A -> list B) (l : list A) :
  (forall x, (List.length (f x) <= 1)%nat) ->
  (List.length (flat_map f l) <= List.length l)%nat.
Proof.
  intros H. induction l as [|x l IH]; simpl; [lia|].
  rewrite length_app. specialize (H x). lia.
Qed.

Lemma provider_chunking_other (model model_name : str)
  (chunk_size overlap : Z) :
  model <> lit "ollama" ->
  provider_chunking model model_name chunk_size overlap
  = (chunk_size, overlap).
Proof.
  intros H. unfold provider_chunking. apply str_eqb_neq in H.
  now rewrite H.
Qed.

Lemma provider_chunking_ollama (model_name : str) (chunk_size overlap : Z) :
  provider_chunking (lit "ollama") model_name chunk_size overlap
  = (10000, 1000)
  \/ provider_chunking (lit "ollama") model_name chunk_size overlap
     = (30000, 1000).
Proof.
  unfold provider_chunking. rewrite str_eqb_refl.
  destruct (_ || _); auto.
Qed.

End PipelineFacts.

(** X3: [process_transcript] raises what the provider selection raises, and
    otherwise, for ["ollama"] with any chunk parameters or for another
    provider with a positive chunk size and a non-negative overlap, it
    returns: the number of chunks it reports is [ceil(len(text) / stride)],
    and it returns at most that many summaries, whatever happens to the
    single chunks.  For ["ollama"] the stride is 9000 or 29000, whatever
    the caller asked for. *)
Theorem process_transcript_chunk_count
  (run_chunk : str -> str -> chunk_attempt)
  (model_dump_json : SummaryResponse -> str)
  (google_api_key text model model_name : str) (chunk_size overlap : Z)
  (custom_prompt : str) (d : db) :
  model = lit "ollama" \/ (0 < chunk_size /\ 0 <= overlap) ->
  let stride := stride_of model model_name chunk_size overlap in
  (forall e,
      select_provider google_api_key model d = Raise e ->
      process_transcript run_chunk model_dump_json google_api_key text model
                         model_name chunk_size overlap custom_prompt d
      = Raise e)
  /\ (select_provider google_api_key model d = Ok tt ->
      exists all_json_data,
        process_transcript run_chunk model_dump_json google_api_key text model
                           model_name chunk_size overlap custom_prompt d
        = Ok ((len text + stride - 1) / stride, all_json_data)
        /\ len all_json_data <= (len text + stride - 1) / stride)
  /\ 0 < stride
  /\ (model = lit "ollama" -> stride = 9000 \/ stride = 29000).
Proof.
  intros Hparams stride.
  assert (Hcs : exists c o,
             provider_chunking model model_name chunk_size overlap = (c, o)
             /\ 0 < c /\ 0 <= o
             /\ (model = lit "ollama" ->
                 chunk_step c o = 9000 \/ chunk_step c o = 29000)).
  { destruct (list_eq_dec ascii_dec model (lit "ollama")) as [->|Hne].
    - destruct (provider_chunking_ollama model_name chunk_size overlap)
        as [E|E]; rewrite E; eexists; eexists;
        (split; [reflexivity|]); repeat split; try lia; intros _;
        [now left|now right].
    - destruct Hparams as [->|[Hc Ho]]; [congruence|].
      rewrite (provider_chunking_other _ _ _ _ Hne).
      exists chunk_size, overlap. repeat split; try assumption.
      intros ->. congruence. }
  destruct Hcs as [c [o [Epc [Hc [Ho Holl]]]]].
  assert (Hstride : stride = chunk_step c o)
    by (unfold stride, stride_of; now rewrite Epc).
  destruct (split_chunks_windows text c o Hc Ho) as [Esplit _].
  cbv zeta in Esplit.
  pose proof (chunk_step_bounds c o Hc Ho) as Hstep.
  destruct (range_length_ceil (len text) (chunk_step c o) (len_nonneg text)
              ltac:(lia)) as [Hceil [Hk0 _]].
  remember (map (fun k => firstn (Z.to_nat c)
                                 (skipn (k * Z.to_nat (chunk_step c o)) text))
                (seq 0 (Z.to_nat (range_length 0 (len text)
                                               (chunk_step c o)))))
    as chunks eqn:Echunks in *.
  assert (Hcount : @len str chunks
                   = (len text + chunk_step c o - 1) / chunk_step c o).
  { rewrite Echunks. unfold len at 1. rewrite length_map, length_seq. lia. }
  rewrite <- Hstride in Hstep, Hcount.
  split; [|split; [|split]].
  - intros e He. unfold process_transcript, bind. now rewrite He.
  - intros Hok. unfold process_transcript, bind. rewrite Hok, Epc, Esplit.
    rewrite Hcount. eexists. split; [reflexivity|].
    rewrite <- Hcount. unfold len.
    apply Nat2Z.inj_le. apply flat_map_at_most_one.
    intros chunk. unfold process_chunk.
    destruct (run_chunk chunk custom_prompt); simpl; lia.
  - lia.
  - intros Hm. rewrite Hstride. now apply Holl.
Qed.

Lemma process_transcript_chunk_count_witness :
  (exists all_json_data,
      process_transcript (fun _ _ => UnexpectedResult) (fun _ => [])
                         [] (lit "hello team") (lit "ollama")
                         (lit "llama3.2:1b") 0 0 [] empty_db
      = Ok ((len (lit "hello team") + 9000 - 1) / 9000, all_json_data)
      /\ len all_json_data <= (len (lit "hello team") + 9000 - 1) / 9000)
  /\ process_transcript (fun _ _ => UnexpectedResult) (fun _ => [])
                        [] (lit "hello team") (lit "openai")
                        (lit "gpt-4o") 5000 1000 [] empty_db
     = Raise (ValueError (lit "OPENAI_API_KEY environment variable not set")).
Proof.
  split.
  - destruct (process_transcript_chunk_count
                (fun _ _ => UnexpectedResult) (fun _ => []) []
                (lit "hello team") (lit "ollama") (lit "llama3.2:1b") 0 0 []
                empty_db (or_introl eq_refl)) as [_ [H _]].
    apply H. reflexivity.
  - assert (Hp : lit "openai" = lit "ollama" \/ (0 < 5000 /\ 0 <= 1000))
      by (right; lia).
    destruct (process_transcript_chunk_count
                (fun _ _ => UnexpectedResult) (fun _ => []) []
                (lit "hello team") (lit "openai") (lit "gpt-4o") 5000 1000 []
                empty_db Hp) as [H _].
    apply H. reflexivity.
Defined.

(** ** Validators and post-processing *)

Section ValidatorFacts.

Lemma priority_map_self_mapped : self_mapped priority_map.
Proof. repeat constructor. Qed.

Lemma type_map_self_mapped : self_mapped type_map.
Proof. repeat constructor. Qed.

Lemma normalize_idem (table : list (str * str)) (v : str) :
  self_mapped table ->
  let y := table_get table (lower (strip v)) (strip v) in
  table_get table (lower (strip y)) (strip y) = y.
Proof.
  intros Hself y.
  destruct (table_get_value table (lower (strip v)) (strip v)) as [E|Hin].
  - fold y in E. rewrite E, strip_idem. exact E.
  - fold y in Hin. apply in_map_iff in Hin as [[k v'] [Ev Hin]].
    simpl in Ev. subst v'. unfold self_mapped in Hself.
    rewrite Forall_forall in Hself. destruct (Hself _ Hin) as [H1 H2].
    simpl in H1, H2. now rewrite H2.
Qed.

Lemma validate_priority_idem (v : str) :
  validate_priority (validate_priority v) = validate_priority v.
Proof. apply (normalize_idem priority_map v priority_map_self_mapped). Qed.

Lemma validate_type_idem (v : str) :
  validate_type (validate_type v) = validate_type v.
Proof. apply (normalize_idem type_map v type_map_self_mapped). Qed.

Lemma constructed_normal (t : JiraTaskSuggestion) :
  constructed t ->
  good_summary (summary t) /\ good_description (description t)
  /\ validate_priority (priority t) = priority t
  /\ validate_type (type t) = type t.
Proof.
  intros (s & d & p & ty & a & aid & l & ri & H).
  unfold new_JiraTaskSuggestion in H.
  destruct (validate_summary s) as [s'|e] eqn:Es;
    [|destruct (validate_description d); discriminate].
  destruct (validate_description d) as [d'|e] eqn:Ed; [|discriminate].
  injection H as <-. cbn [summary description priority type].
  split; [apply (validate_summary_good s s' Es)|].
  split; [apply (validate_description_good d d' Ed)|].
  split; [apply validate_priority_idem|apply validate_type_idem].
Qed.

End ValidatorFacts.

(** X4: the constructor normalizes once and for all: priority and type
    validators are idempotent, and constructing a suggestion again from the
    fields of a constructed one returns that same suggestion. *)
Theorem constructor_is_idempotent :
  (forall v, validate_priority (validate_priority v) = validate_priority v)
  /\ (forall v, validate_type (validate_type v) = validate_type v)
  /\ (forall t,
         constructed t ->
         new_JiraTaskSuggestion (summary t) (description t) (priority t)
                                (type t) (assignee t) (assignee_account_id t)
                                (labels t) (related_issues t)
         = Ok t).
Proof.
  split; [exact validate_priority_idem|].
  split; [exact validate_type_idem|].
  intros t Hc. destruct (constructed_normal t Hc) as [Hs [Hd [Hp Hty]]].
  unfold new_JiraTaskSuggestion.
  rewrite (good_summary_validates _ Hs), (good_description_validates _ Hd).
  rewrite Hp, Hty. destruct t; reflexivity.
Qed.

Lemma constructor_is_idempotent_witness :
  new_JiraTaskSuggestion (summary epic_task) (description epic_task)
                         (priority epic_task) (type epic_task)
                         (assignee epic_task) (assignee_account_id epic_task)
                         (labels epic_task) (related_issues epic_task)
  = Ok epic_task.
Proof.
  destruct constructor_is_idempotent as [_ [_ H]].
  apply (H epic_task).
  exists (lit "  bug in login flow "),
         (lit "The login flow fails for some users on submit"),
         (lit "low"), (lit "EPIC"), (lit "Unassigned"), None, None, None.
  reflexivity.
Defined.

Section PostProcessMore.

Lemma lower_upper_char (c : ascii) : lower_char (upper_char c) = lower_char c.
Proof. destruct c as [[] [] [] [] [] [] [] []]; reflexivity. Qed.

Lemma upper_of_lowered (c : ascii) :
  islower (lower_char c) = true -> isupper (upper_char c) = true.
Proof. destruct c as [[] [] [] [] [] [] [] []]; vm_compute; congruence. Qed.

Lemma mem_In (x : str) (l : list str) : mem x l = true <-> In x l.
Proof.
  unfold mem. rewrite existsb_exists. split.
  - intros [y [Hin E]]. apply str_eqb_eq in E. now subst.
  - intros H. exists x. split; [exact H|apply str_eqb_refl].
Qed.

Lemma action_verbs_lowercase :
  Forall (fun v => exists c w, v = c :: w /\ islower c = true) action_verbs.
Proof. repeat (constructor; [eexists; eexists; split; reflexivity|]). constructor. Qed.

(** The cleaned task, for a constructed task with an accepted summary. *)
Lemma post_process_task_cleaned (t : JiraTaskSuggestion) :
  constructed t ->
  post_process_task t
  = if accepted t then
      Some {| summary := capitalize_first (with_verb (type t) (summary t));
              description := description t;
              priority :=
                validate_priority (fix_priority (priority t) (description t));
              type :=
                validate_type
                  (fix_type (type t)
                     (capitalize_first (with_verb (type t) (summary t))));
              assignee := assignee t;
              assignee_account_id := assignee_account_id t;
              labels := labels t;
              related_issues := related_issues t |}
    else None.
Proof.
  intros Hc. destruct (constructed_normal t Hc) as [Hs [Hd _]].
  unfold post_process_task, accepted.
  destruct (_is_valid_english (strip (summary t))); [|reflexivity].
  cbn [negb]. rewrite (stripped_strip (summary t) (proj1 Hs)).
  unfold new_JiraTaskSuggestion.
  rewrite (good_summary_validates
             (capitalize_first (with_verb (type t) (summary t)))
             (good_summary_capitalized _ (good_summary_with_verb _ _ Hs))).
  rewrite (good_description_validates (description t) Hd).
  reflexivity.
Qed.

(** Whatever the task, the loop skips it or appends a task with the same
    assignment fields. *)
Lemma post_process_task_assignment (t : JiraTaskSuggestion) :
  (accepted t = false /\ post_process_task t = None)
  \/ (accepted t = true
      /\ exists t', post_process_task t = Some t' /\ same_assignment t t').
Proof.
  unfold post_process_task, accepted.
  destruct (_is_valid_english (strip (summary t))); [right|now left].
  split; [reflexivity|]. cbn [negb].
  destruct (new_JiraTaskSuggestion _ _ _ _ _ _ _ _) as [t'|e] eqn:E.
  - exists t'. split; [reflexivity|].
    unfold new_JiraTaskSuggestion in E.
    destruct (validate_summary _);
      [|destruct (validate_description _); discriminate].
    destruct (validate_description _); [|discriminate].
    injection E as <-. repeat split.
  - exists t. split; [reflexivity|]. repeat split.
Qed.

(** The output of the loop, related task by task to the accepted input. *)
Lemma post_process_tasks_related
  (R : JiraTaskSuggestion -> JiraTaskSuggestion -> Prop)
  (tasks : list JiraTaskSuggestion) :
  (forall t, In t tasks -> accepted t = true ->
             exists t', post_process_task t = Some t' /\ R t t') ->
  (forall t, In t tasks -> accepted t = false -> post_process_task t = None) ->
  Forall2 R (filter accepted tasks) (_post_process_tasks tasks).
Proof.
  induction tasks as [|t tasks IH]; intros Hyes Hno; [constructor|].
  unfold _post_process_tasks in *. simpl.
  assert (IH' : Forall2 R (filter accepted tasks)
                  (flat_map (fun task => match post_process_task task with
                                         | Some t0 => [t0]
                                         | None => []
                                         end) tasks)).
  { apply IH; intros x Hx; [apply Hyes|apply Hno]; now right. }
  destruct (accepted t) eqn:A.
  - destruct (Hyes t (or_introl eq_refl) A) as [t' [E HR]]. rewrite E.
    simpl. constructor; assumption.
  - rewrite (Hno t (or_introl eq_refl) A). exact IH'.
Qed.

Lemma verb_first_prefixed (c : ascii) (w s : str) :
  isupper c = true ->
  forallb (fun x => negb (isspace x)) (c :: w) = true ->
  mem (lower (c :: w)) action_verbs = true ->
  verb_first (capitalize_first ((c :: w) ++ " "%char :: s)).
Proof.
  intros Hc Hw Hm. unfold verb_first, capitalize_first.
  assert (Hup : upper_char c = c).
  { unfold upper_char. destruct (islower c) eqn:E; [|reflexivity].
    exfalso. revert Hc E.
    destruct c as [[] [] [] [] [] [] [] []]; vm_compute; congruence. }
  cbn [app]. rewrite Hup. split.
  - unfold first_word.
    change (c :: w ++ " "%char :: s) with ((c :: w) ++ " "%char :: s).
    rewrite split_word_space; [exact Hm|discriminate|exact Hw].
  - eexists. eexists. split; [reflexivity|exact Hc].
Qed.

Lemma verb_first_cleaned (ty s : str) :
  good_summary s -> verb_first (capitalize_first (with_verb ty s)).
Proof.
  intros Hs. unfold with_verb.
  destruct (negb (mem (first_word s) action_verbs)) eqn:Hv.
  - destruct (contains (lower ty) (lit "bug") || _ || _).
    + apply (verb_first_prefixed "F"%char (lit "ix") s); reflexivity.
    + destruct (contains (lower s) (lit "outage") || _).
      * apply (verb_first_prefixed "R"%char (lit "esolve") s); reflexivity.
      * apply (verb_first_prefixed "A"%char (lit "ddress") s); reflexivity.
  - apply negb_false_iff in Hv.
    destruct Hs as [Hst [Hlen _]].
    destruct s as [|c s]; [unfold len in Hlen; simpl in Hlen; lia|].
    pose proof (stripped_cons_head c s Hst) as Hc.
    assert (Hc' : isspace (upper_char c) = false)
      by (now rewrite isspace_upper_char).
    unfold first_word in Hv. rewrite split_cons_nonspace in Hv by exact Hc.
    unfold verb_first, capitalize_first, first_word.
    rewrite split_cons_nonspace by exact Hc'.
    cbn [lower map] in *. rewrite lower_upper_char. split; [exact Hv|].
    exists (upper_char c), s. split; [reflexivity|].
    apply upper_of_lowered.
    apply mem_In in Hv. pose proof action_verbs_lowercase as Hall.
    rewrite Forall_forall in Hall.
    destruct (Hall _ Hv) as [x [w [E Hx]]]. injection E as <- _. exact Hx.
Qed.

End PostProcessMore.

(** X5: every task [_post_process_tasks] returns for a list of constructed
    suggestions has a summary whose first word is one of the action verbs
    and whose first character is a capital letter. *)
Theorem post_process_summaries_start_with_verb
  (tasks : list JiraTaskSuggestion) :
  Forall constructed tasks ->
  Forall (fun t => verb_first (summary t)) (_post_process_tasks tasks).
Proof.
  intros Hall. apply Forall_forall. intros t' Hin.
  unfold _post_process_tasks in Hin.
  apply in_flat_map in Hin as [t [Ht Hin]].
  rewrite Forall_forall in Hall. pose proof (Hall t Ht) as Hc.
  rewrite (post_process_task_cleaned t Hc) in Hin.
  destruct (accepted t); [|contradiction].
  destruct Hin as [<-|[]]. cbn [summary].
  apply verb_first_cleaned. apply (constructed_normal t Hc).
Qed.

Lemma post_process_summaries_start_with_verb_witness :
  Forall (fun t => verb_first (summary t)) (_post_process_tasks [epic_task]).
Proof.
  apply (post_process_summaries_start_with_verb [epic_task]).
  constructor; [|constructor].
  exists (lit "bug in login flow"),
         (lit "The login flow fails for some users on submit"),
         (lit "low"), (lit "epic"), (lit "Unassigned"), None, None, None.
  reflexivity.
Defined.

(** X6: [_post_process_tasks] returns one task for each input task whose
    trimmed summary passes [_is_valid_english], in the order of the input
    and with the same assignee, account id, labels and related issues; it
    never returns more tasks than it was given. *)
Theorem post_process_keeps_accepted_tasks (tasks : list JiraTaskSuggestion) :
  Forall2 same_assignment (filter accepted tasks) (_post_process_tasks tasks)
  /\ len (_post_process_tasks tasks) <= len tasks.
Proof.
  assert (H : Forall2 same_assignment (filter accepted tasks)
                      (_post_process_tasks tasks)).
  { apply post_process_tasks_related.
    - intros t _ A.
      destruct (post_process_task_assignment t) as [[A' _]|[_ H]];
        [congruence|exact H].
    - intros t _ A.
      destruct (post_process_task_assignment t) as [[_ H]|[A' _]];
        [exact H|congruence]. }
  split; [exact H|].
  apply Forall2_length in H. unfold len. rewrite <- H.
  apply Nat2Z.inj_le. apply filter_length_le.
Qed.

(** X7: for constructed suggestions, the task returned for an accepted one
    keeps its description; its priority is "High" when the description
    mentions an outage, blocking, down or 500 and the priority was Low,
    Lowest or Medium, and is the priority it had in every other case. *)
Theorem post_process_raises_priority_only (tasks : list JiraTaskSuggestion) :
  Forall constructed tasks ->
  Forall2
    (fun t t' =>
       description t' = description t
       /\ priority t'
          = if severe (description t)
               && mem (lower (priority t))
                      [lit "low"; lit "lowest"; lit "medium"]
            then lit "High" else priority t)
    (filter accepted tasks) (_post_process_tasks tasks).
Proof.
  intros Hall. rewrite Forall_forall in Hall.
  apply post_process_tasks_related.
  - intros t Ht A. rewrite (post_process_task_cleaned t (Hall t Ht)), A.
    eexists. split; [reflexivity|]. cbn [description priority].
    split; [reflexivity|].
    destruct (constructed_normal t (Hall t Ht)) as [_ [_ [Hp _]]].
    unfold fix_priority. fold (severe (description t)).
    destruct (severe (description t)); cbn [andb]; [|exact Hp].
    destruct (mem (lower (priority t)) _); [reflexivity|exact Hp].
  - intros t Ht A. now rewrite (post_process_task_cleaned t (Hall t Ht)), A.
Qed.

Lemma post_process_raises_priority_only_witness :
  Forall2
    (fun t t' =>
       description t' = description t
       /\ priority t'
          = if severe (description t)
               && mem (lower (priority t))
                      [lit "low"; lit "lowest"; lit "medium"]
            then lit "High" else priority t)
    (filter accepted [epic_task]) (_post_process_tasks [epic_task]).
Proof.
  apply (post_process_raises_priority_only [epic_task]).
  constructor; [|constructor].
  exists (lit "bug in login flow"),
         (lit "The login flow fails for some users on submit"),
         (lit "low"), (lit "epic"), (lit "Unassigned"), None, None, None.
  reflexivity.
Defined.

Section QualityFacts.

Lemma flat_map_nil {A B : Type} (f : A -> list B) (l : list A) :
  flat_map f l = [] <-> Forall (fun x => f x = []) l.
Proof.
  induction l as [|x l IH]; simpl.
  - split; [constructor|reflexivity].
  - split.
    + intros H. apply app_eq_nil in H as [Hx Hl].
      constructor; [exact Hx|now apply IH].
    + intros H. inversion H as [|? ? Hx Hl]; subst.
      rewrite Hx. now apply IH.
Qed.

Lemma placeholder_warnings_nil (where_ : str) (block : Block) :
  placeholder_warnings where_ block = []
  <-> placeholder_free (block_content block).
Proof.
  unfold placeholder_warnings, placeholder_free.
  rewrite flat_map_nil, Forall_forall.
  split; intros H pattern Hin; specialize (H pattern Hin).
  - destruct (contains _ (lower pattern)); [discriminate|reflexivity].
  - now rewrite H.
Qed.

Lemma short_content_warning_nil (block : Block) :
  short_content_warning block = []
  <-> 10 <= len (strip (block_content block)).
Proof.
  unfold short_content_warning.
  destruct (block_content block) as [|c s] eqn:E.
  - simpl. split; [discriminate|]. intros H. exfalso. revert H.
    vm_compute. intros H. now apply H.
  - cbn [truthy negb orb].
    destruct (len (strip (c :: s)) <? 10) eqn:L; zbool.
    + split; [discriminate|lia].
    + split; [lia|reflexivity].
Qed.

Lemma startswith_app_r (s p b : str) :
  startswith s p = true -> startswith (s ++ b) p = true.
Proof.
  revert p. induction s as [|x s IH]; intros [|y p] H.
  - now destruct b.
  - discriminate.
  - reflexivity.
  - simpl in *. apply andb_true_iff in H as [H1 H2]. rewrite H1. simpl.
    now apply IH.
Qed.

Lemma contains_app_r (s p b : str) :
  contains s p = true -> contains (s ++ b) p = true.
Proof.
  induction s as [|x s IH]; intros H.
  - simpl in H. rewrite orb_false_r in H.
    destruct p; [|discriminate]. destruct b; reflexivity.
  - cbn [contains] in H. apply orb_true_iff in H as [H|H].
    + change ((x :: s) ++ b) with (x :: s ++ b). cbn [contains].
      change (x :: s ++ b) with ((x :: s) ++ b).
      now rewrite (startswith_app_r _ _ b H).
    + change ((x :: s) ++ b) with (x :: s ++ b). cbn [contains].
      rewrite (IH H). apply orb_true_r.
Qed.

Lemma contains_app_l (a s p : str) :
  contains s p = true -> contains (a ++ s) p = true.
Proof.
  intros H. induction a as [|x a IH]; [exact H|].
  change ((x :: a) ++ s) with (x :: a ++ s). cbn [contains].
  rewrite IH. apply orb_true_r.
Qed.

Lemma lower_upper (s : str) : lower (upper s) = lower s.
Proof.
  unfold lower, upper. rewrite map_map. apply map_ext.
  intros c. destruct c as [[] [] [] [] [] [] [] []]; reflexivity.
Qed.

End QualityFacts.

(** X8: [_validate_summary_quality] returns no warning exactly when no
    placeholder pattern occurs, in any case, in a block of
    ImmediateActionItems or NextSteps and every block of
    ImmediateActionItems holds at least ten characters once trimmed.  The
    length of a NextSteps block and the other sections play no part. *)
Theorem summary_quality_without_warnings (summary : SummaryResponse) :
  _validate_summary_quality summary = []
  <-> Forall (fun block => placeholder_free (block_content block)
                           /\ 10 <= len (strip (block_content block)))
             (section_blocks (ImmediateActionItems summary))
      /\ Forall (fun block => placeholder_free (block_content block))
                (section_blocks (NextSteps summary)).
Proof.
  unfold _validate_summary_quality.
  split.
  - intros H. apply app_eq_nil in H as [H1 H2].
    rewrite flat_map_nil in H1, H2. split.
    + eapply Forall_impl; [|exact H1]. intros b Hb. cbv beta in Hb.
      apply app_eq_nil in Hb as [Hp Hs].
      split; [now apply placeholder_warnings_nil in Hp
             |now apply short_content_warning_nil].
    + eapply Forall_impl; [|exact H2]. intros b Hb.
      now apply placeholder_warnings_nil in Hb.
  - intros [H1 H2].
    assert (E1 : flat_map
                   (fun block =>
                      placeholder_warnings (lit "ImmediateActionItems") block
                      ++ short_content_warning block)
                   (section_blocks (ImmediateActionItems summary)) = []).
    { apply flat_map_nil. eapply Forall_impl; [|exact H1].
      intros b [Hp Hs]. cbv beta.
      apply (placeholder_warnings_nil (lit "ImmediateActionItems")) in Hp.
      apply short_content_warning_nil in Hs. now rewrite Hp, Hs. }
    rewrite E1. simpl. apply flat_map_nil.
    eapply Forall_impl; [|exact H2]. intros b Hp.
    now apply (placeholder_warnings_nil (lit "NextSteps")) in Hp.
Qed.

(** X9: [_is_low_capacity_model] ignores the case of the model name, and a
    name that holds a low-capacity name inside it is a low-capacity name. *)
Theorem low_capacity_model_by_marker :
  (forall model_name,
      _is_low_capacity_model (upper model_name)
      = _is_low_capacity_model model_name)
  /\ (forall before model_name after,
         _is_low_capacity_model model_name = true ->
         _is_low_capacity_model (before ++ model_name ++ after) = true).
Proof.
  split.
  - intros model_name. unfold _is_low_capacity_model.
    now rewrite lower_upper.
  - intros before model_name after H. unfold _is_low_capacity_model in *.
    apply existsb_exists in H as [marker [Hin H]].
    apply existsb_exists. exists marker. split; [exact Hin|].
    unfold lower. rewrite !map_app.
    apply contains_app_l, contains_app_r. exact H.
Qed.

Lemma low_capacity_model_by_marker_witness :
  _is_low_capacity_model (lit "hf.co/" ++ lit "Qwen2.5:0.5B" ++ lit "-q4")
  = true.
Proof.
  apply (proj2 low_capacity_model_by_marker (lit "hf.co/")
               (lit "Qwen2.5:0.5B") (lit "-q4")).
  reflexivity.
Defined.

(** X10: [extract_jira_tasks] turns to the fallback extraction only when
    the provider is "ollama", the model name is a low-capacity one and the
    agent failed with an UnexpectedModelBehavior: in every other case its
    outcome is the same whatever the fallback would answer. *)
Theorem extract_jira_tasks_fallback_only_for_small_ollama
  (fallback fallback' : str -> str -> outcome (option (list JiraTaskSuggestion)))
  (google_api_key : str) (agent : agent_result)
  (text model model_name : str) (d : db) :
  str_eqb model (lit "ollama") && _is_low_capacity_model model_name
    && unexpected_behavior agent = false ->
  extract_jira_tasks fallback google_api_key agent text model model_name d
  = extract_jira_tasks fallback' google_api_key agent text model model_name d.
Proof.
  intros H. unfold extract_jira_tasks.
  destruct (select_provider google_api_key model d) as [[]|e];
    [|reflexivity].
  destruct agent as [tasks|e]; [reflexivity|].
  unfold on_extraction_error, _attempt_low_capacity_fallback.
  cbn [unexpected_behavior] in H.
  destruct (is_unexpected_model_behavior e); [|reflexivity].
  destruct (str_eqb model (lit "ollama")); [|reflexivity].
  destruct (_is_low_capacity_model model_name); [discriminate|reflexivity].
Qed.

Lemma extract_jira_tasks_fallback_only_for_small_ollama_witness :
  extract_jira_tasks (fun _ _ => Ok (Some [epic_task])) []
    (AgentFailed {| is_unexpected_model_behavior := true;
                    error_str := lit "UnexpectedModelBehavior" |})
    (lit "notes") (lit "ollama") (lit "llama3.2:3b") empty_db
  = extract_jira_tasks (fun _ _ => Ok None) []
      (AgentFailed {| is_unexpected_model_behavior := true;
                      error_str := lit "UnexpectedModelBehavior" |})
      (lit "notes") (lit "ollama") (lit "llama3.2:3b") empty_db.
Proof.
  apply (extract_jira_tasks_fallback_only_for_small_ollama
           (fun _ _ => Ok (Some [epic_task])) (fun _ _ => Ok None)).
  reflexivity.
Defined.

(** X11: when the provider selection raises, [extract_jira_tasks] returns no
    task: the agent and the fallback are not consulted, and the outcome is
    the format error or the exception of the selection itself. *)
Theorem extract_jira_tasks_needs_provider
  (fallback fallback' : str -> str -> outcome (option (list JiraTaskSuggestion)))
  (google_api_key : str) (agent agent' : agent_result)
  (text model model_name : str) (d : db) (e : exn) :
  select_provider google_api_key model d = Raise e ->
  extract_jira_tasks fallback google_api_key agent text model model_name d
  = extract_jira_tasks fallback' google_api_key agent' text model model_name d
  /\ (extract_jira_tasks fallback google_api_key agent text model model_name d
      = FormatError (format_error model model_name)
      \/ extract_jira_tasks fallback google_api_key agent text model
                            model_name d
         = Reraised {| is_unexpected_model_behavior := false;
                       error_str := exn_str e |}).
Proof.
  intros H. unfold extract_jira_tasks. rewrite H.
  split; [reflexivity|].
  unfold on_extraction_error. cbn [is_unexpected_model_behavior error_str].
  destruct (contains (exn_str e) (lit "Exceeded maximum retries")
            || contains (exn_str e) (lit "UnexpectedModelBehavior"));
    [now left|now right].
Qed.

Lemma extract_jira_tasks_needs_provider_witness :
  extract_jira_tasks (fun _ _ => Ok (Some [epic_task])) []
    (AgentTasks [epic_task]) (lit "notes") (lit "openai") (lit "gpt-4o")
    empty_db
  = extract_jira_tasks (fun _ _ => Ok None) [] (AgentTasks [])
      (lit "notes") (lit "openai") (lit "gpt-4o") empty_db
  /\ (extract_jira_tasks (fun _ _ => Ok (Some [epic_task])) []
        (AgentTasks [epic_task]) (lit "notes") (lit "openai") (lit "gpt-4o")
        empty_db
      = FormatError (format_error (lit "openai") (lit "gpt-4o"))
      \/ extract_jira_tasks (fun _ _ => Ok (Some [epic_task])) []
           (AgentTasks [epic_task]) (lit "notes") (lit "openai")
           (lit "gpt-4o") empty_db
         = Reraised {| is_unexpected_model_behavior := false;
                       error_str :=
                         exn_str (ValueError
                                    (lit "OPENAI_API_KEY environment variable not set")) |}).
Proof.
  apply (extract_jira_tasks_needs_provider
           (fun _ _ => Ok (Some [epic_task])) (fun _ _ => Ok None) []
           (AgentTasks [epic_task]) (AgentTasks [])
           (lit "notes") (lit "openai") (lit "gpt-4o") empty_db
           (ValueError (lit "OPENAI_API_KEY environment variable not set"))).
  reflexivity.
Defined.

(** ** Settings and credentials *)

Section SettingsFacts.

Lemma api_key_name_cases (provider : str) (c : api_key_column) :
  api_key_name provider = Ok c ->
  (provider = lit "openai" /\ c = openaiApiKey)
  \/ (provider = lit "claude" /\ c = anthropicApiKey)
  \/ (provider = lit "groq" /\ c = groqApiKey)
  \/ (provider = lit "ollama" /\ c = ollamaApiKey)
  \/ (provider = lit "gemini" /\ c = geminiApiKey).
Proof.
  unfold api_key_name, mem, provider_list. cbn [existsb].
  destruct (str_eqb provider (lit "openai")) eqn:E1.
  { apply str_eqb_eq in E1. cbn [orb negb]. intros [= <-]. tauto. }
  destruct (str_eqb provider (lit "claude")) eqn:E2.
  { apply str_eqb_eq in E2. cbn [orb negb]. intros [= <-]. tauto. }
  destruct (str_eqb provider (lit "groq")) eqn:E3.
  { apply str_eqb_eq in E3. cbn [orb negb]. intros [= <-]. tauto. }
  destruct (str_eqb provider (lit "ollama")) eqn:E4.
  { apply str_eqb_eq in E4. cbn [orb negb]. intros [= <-]. tauto. }
  destruct (str_eqb provider (lit "gemini")) eqn:E5.
  { apply str_eqb_eq in E5. cbn [orb negb]. intros [= <-]. tauto. }
  cbn [orb negb]. discriminate.
Qed.

Lemma api_key_name_injective (p q : str) (c : api_key_column) :
  api_key_name p = Ok c -> api_key_name q = Ok c -> p = q.
Proof.
  intros Hp Hq. apply api_key_name_cases in Hp, Hq.
  destruct Hp as [[-> ->]|[[-> ->]|[[-> ->]|[[-> ->]|[-> ->]]]]];
    destruct Hq as [[-> E]|[[-> E]|[[-> E]|[[-> E]|[-> E]]]]];
    try reflexivity; discriminate E.
Qed.

Lemma get_key_other (c c' : api_key_column) (v : option str)
  (r : settings_row) :
  c' <> c -> get_key c' (set_key c v r) = get_key c' r.
Proof. intros H. destruct c, c'; try reflexivity; congruence. Qed.

Lemma get_api_key_frame (q : str) (d d' : db) :
  (forall c, api_key_name q = Ok c -> stored_key c d' = stored_key c d) ->
  get_api_key q d' = get_api_key q d.
Proof.
  intros H. destruct (api_key_name q) as [c|e] eqn:E.
  - rewrite (get_api_key_stored q c d' E), (get_api_key_stored q c d E).
    now rewrite (H c eq_refl).
  - unfold get_api_key. now rewrite E.
Qed.

(** The keys read after an [UPDATE settings SET column = v WHERE id = '1']. *)
Lemma stored_key_updated (c : api_key_column) (v : option str) (d : db) :
  (fetchone (sql_select settings_1 (settings d)) <> None ->
   stored_key c (with_settings d (fst (sql_update settings_1 (set_key c v)
                                                  (settings d))))
   = key_text v)
  /\ (forall c', c' <> c ->
        stored_key c' (with_settings d (fst (sql_update settings_1
                                                        (set_key c v)
                                                        (settings d))))
        = stored_key c' d).
Proof.
  unfold stored_key, sql_update, sql_select, settings_1. simpl.
  rewrite (update_select s_id (set_key c v) (lit "1")
             (set_key_keeps_id c v)).
  unfold fetchone.
  destruct (filter _ (settings d)) as [|r l]; simpl.
  - split; [congruence|reflexivity].
  - split.
    + intros _. now rewrite get_set_key.
    + intros c' Hc. now rewrite (get_key_other c c' v r Hc).
Qed.

(** The keys read after [save_api_key]. *)
Lemma stored_key_saved (api_key : option str) (provider : str)
  (c : api_key_column) (d : db) :
  api_key_name provider = Ok c ->
  stored_key c (fst (save_api_key api_key provider d)) = key_text api_key
  /\ (forall c', c' <> c ->
        stored_key c' (fst (save_api_key api_key provider d))
        = stored_key c' d).
Proof.
  intros Hc. unfold save_api_key. rewrite Hc.
  destruct (fetchone (sql_select settings_1 (settings d))) as [r|] eqn:Hr.
  - destruct (stored_key_updated c api_key d) as [H1 H2].
    unfold sql_update in *. simpl in *. split; [|exact H2].
    apply H1. congruence.
  - unfold sql_insert.
    rewrite (fetchone_no_key s_id (lit "1") (default_settings c api_key)
               (settings d) eq_refl Hr).
    unfold stored_key. simpl. rewrite Hr.
    unfold sql_select, settings_1 in *.
    rewrite (select_app s_id (lit "1") (settings d)
               (default_settings c api_key) eq_refl).
    unfold fetchone in *.
    destruct (filter _ (settings d)) as [|x l]; [|discriminate]. simpl.
    split.
    + unfold default_settings. now rewrite get_set_key.
    + intros c' Hc'. unfold default_settings.
      rewrite (get_key_other c c' api_key _ Hc'). now destruct c'.
Qed.

Lemma deletable_cases (provider : str) :
  In provider deletable_providers ->
  exists c,
    api_key_name provider = Ok c /\ c <> geminiApiKey
    /\ forall d,
         delete_api_key provider d
         = (with_settings d
              (fst (sql_update settings_1 (set_key c None) (settings d))),
            Ok tt).
Proof.
  intros [<-|[<-|[<-|[<-|[]]]]];
    [exists openaiApiKey|exists anthropicApiKey|exists groqApiKey
    |exists ollamaApiKey];
    (split; [reflexivity|split; [discriminate|reflexivity]]).
Qed.

Lemma not_deletable (provider : str) :
  ~ In provider deletable_providers ->
  mem provider deletable_providers = false.
Proof.
  intros H. destruct (mem provider deletable_providers) eqn:E;
    [|reflexivity].
  exfalso. apply H. unfold mem in E. apply existsb_exists in E as [x [Hx E]].
  apply str_eqb_eq in E. now subst.
Qed.

Lemma single_settings_select (d : db) :
  single_settings d ->
  sql_select settings_1 (settings d) = settings d.
Proof.
  intros [H|[r [H Hr]]]; rewrite H; [reflexivity|].
  unfold sql_select, settings_1. simpl. now rewrite Hr.
Qed.

Lemma single_settings_updated (set_ : settings_row -> settings_row) (d : db) :
  (forall r, s_id (set_ r) = s_id r) ->
  single_settings d ->
  single_settings
    (with_settings d (fst (sql_update settings_1 set_ (settings d)))).
Proof.
  intros Hset [H|[r [H Hr]]]; unfold single_settings; simpl; rewrite H; simpl.
  - now left.
  - right. unfold settings_1. rewrite Hr. simpl.
    eexists. split; [reflexivity|]. now rewrite Hset.
Qed.

End SettingsFacts.

(** X12: after [save_api_key] for a valid provider, [get_api_key] returns
    the saved key for that provider (the empty string for [None]) and, for
    every other provider, what it returned before. *)
Theorem api_keys_are_independent (api_key : option str) (provider : str)
  (c : api_key_column) (d : db) :
  api_key_name provider = Ok c ->
  get_api_key provider (fst (save_api_key api_key provider d))
  = Ok (key_text api_key)
  /\ (forall other, other <> provider ->
        get_api_key other (fst (save_api_key api_key provider d))
        = get_api_key other d).
Proof.
  intros Hc. destruct (stored_key_saved api_key provider c d Hc) as [H1 H2].
  split.
  - rewrite (get_api_key_stored provider c _ Hc). now rewrite H1.
  - intros other Hne. apply get_api_key_frame. intros c' Hc'.
    apply H2. intros ->. apply Hne.
    exact (api_key_name_injective other provider c Hc' Hc).
Qed.

Lemma api_keys_are_independent_witness :
  get_api_key (lit "groq")
    (fst (save_api_key (Some (lit "gsk-1")) (lit "groq") with_openai_key))
  = Ok (key_text (Some (lit "gsk-1")))
  /\ get_api_key (lit "openai")
       (fst (save_api_key (Some (lit "gsk-1")) (lit "groq") with_openai_key))
     = get_api_key (lit "openai") with_openai_key.
Proof.
  destruct (api_keys_are_independent (Some (lit "gsk-1")) (lit "groq")
              groqApiKey with_openai_key eq_refl) as [H1 H2].
  split; [exact H1|]. apply H2. discriminate.
Defined.

(** X13: [delete_api_key] accepts "openai", "claude", "groq" and "ollama":
    it returns, [get_api_key] then finds no key for the provider, and the
    keys of the other providers are as before.  Every other provider,
    "gemini" among them although [save_api_key] accepts it, raises a
    [ValueError] and the store is unchanged. *)
Theorem delete_api_key_clears_one_key (provider : str) (d : db) :
  (In provider deletable_providers ->
   exists d',
     delete_api_key provider d = (d', Ok tt)
     /\ get_api_key provider d' = Ok []
     /\ (forall other, other <> provider ->
           get_api_key other d' = get_api_key other d))
  /\ (~ In provider deletable_providers ->
      delete_api_key provider d
      = (d, Raise (ValueError (lit "Invalid provider: " ++ provider))))
  /\ In (lit "gemini") provider_list
  /\ ~ In (lit "gemini") deletable_providers.
Proof.
  split; [|split; [|split]].
  - intros Hin. destruct (deletable_cases provider Hin) as [c [Hc [_ Hd]]].
    rewrite (Hd d). eexists. split; [reflexivity|].
    destruct (stored_key_updated c None d) as [H1 H2]. split.
    + rewrite (get_api_key_stored provider c _ Hc).
      destruct (fetchone (sql_select settings_1 (settings d))) eqn:F.
      * rewrite H1; [reflexivity|discriminate].
      * unfold stored_key, sql_update, sql_select, settings_1 in *. simpl.
        rewrite (update_select s_id (set_key c None) (lit "1")
                   (set_key_keeps_id c None)).
        unfold fetchone in *.
        destruct (filter _ (settings d)); [reflexivity|discriminate].
    + intros other Hne. apply get_api_key_frame. intros c' Hc'.
      apply H2. intros ->. apply Hne.
      exact (api_key_name_injective other provider c Hc' Hc).
  - intros Hout. unfold delete_api_key.
    now rewrite (not_deletable provider Hout).
  - simpl. tauto.
  - simpl. intros [H|[H|[H|[H|[]]]]]; discriminate H.
Qed.

Lemma delete_api_key_clears_one_key_witness :
  (exists d',
      delete_api_key (lit "openai") with_openai_key = (d', Ok tt)
      /\ get_api_key (lit "openai") d' = Ok [])
  /\ delete_api_key (lit "gemini") with_openai_key
     = (with_openai_key,
        Raise (ValueError (lit "Invalid provider: " ++ lit "gemini"))).
Proof.
  split.
  - destruct (proj1 (delete_api_key_clears_one_key (lit "openai")
                       with_openai_key)) as [d' [H1 [H2 _]]].
    + simpl. tauto.
    + exists d'. split; assumption.
  - apply (proj1 (proj2 (delete_api_key_clears_one_key (lit "gemini")
                           with_openai_key))).
    simpl. intros [H|[H|[H|[H|[]]]]]; discriminate H.
Defined.

(** X14: the settings table never holds more than the row with id "1":
    that shape holds for the empty store and is kept by [save_api_key],
    [save_model_config] and [delete_api_key], whatever they are given and
    whether they return or raise. *)
Theorem settings_keep_a_single_row (d : db) :
  single_settings d ->
  (forall api_key provider,
      single_settings (fst (save_api_key api_key provider d)))
  /\ (forall provider model whisperModel,
         single_settings (fst (save_model_config provider model whisperModel
                                                 d)))
  /\ (forall provider, single_settings (fst (delete_api_key provider d))).
Proof.
  intros Hd. split; [|split].
  - intros api_key provider. unfold save_api_key.
    destruct (api_key_name provider) as [c|e]; [|exact Hd].
    rewrite (single_settings_select d Hd).
    destruct (fetchone (settings d)) as [r|] eqn:F.
    + apply (single_settings_updated (set_key c api_key) d
               (set_key_keeps_id c api_key) Hd).
    + assert (E : settings d = [])
        by (destruct (settings d); [reflexivity|discriminate]).
      rewrite E. simpl. right. eexists. split; reflexivity.
  - intros provider model whisperModel. unfold save_model_config.
    destruct (negb (truthy provider) || _); [exact Hd|].
    destruct (negb (truthy model) || _); [exact Hd|].
    destruct (negb (truthy whisperModel) || _); [exact Hd|].
    destruct (fetchone (settings d)) as [r|] eqn:F.
    + apply (single_settings_updated
               (set_model_config provider model whisperModel) d
               (fun r => eq_refl) Hd).
    + assert (E : settings d = [])
        by (destruct (settings d); [reflexivity|discriminate]).
      rewrite E. simpl. right. eexists. split; reflexivity.
  - intros provider. unfold delete_api_key.
    destruct (negb (mem provider deletable_providers)); [exact Hd|].
    apply (single_settings_updated _ d); [|exact Hd].
    intros r. reflexivity.
Qed.

Lemma settings_keep_a_single_row_witness :
  single_settings
    (fst (save_model_config (lit "ollama") (lit "llama3.2:3b")
                            (lit "large-v3") with_openai_key)).
Proof.
  apply (settings_keep_a_single_row with_openai_key).
  right. eexists. split; reflexivity.
Defined.

(** X15: [save_model_config] raises a [ValueError] and changes nothing when
    the provider, the model or the whisper model is empty or whitespace
    only.  Otherwise, on a settings table of the shape above, it returns,
    [get_model_config] then returns the three values, and the stored API
    keys are the ones stored before. *)
Theorem save_model_config_round_trip (provider model whisperModel : str)
  (d : db) :
  (blank provider = true \/ blank model = true \/ blank whisperModel = true ->
   exists msg,
     save_model_config provider model whisperModel d
     = (d, Raise (ValueError msg)))
  /\ (blank provider = false -> blank model = false ->
      blank whisperModel = false -> single_settings d ->
      exists d',
        save_model_config provider model whisperModel d = (d', Ok tt)
        /\ get_model_config d'
           = Some [ (lit "provider", SqlText provider);
                    (lit "model", SqlText model);
                    (lit "whisperModel", SqlText whisperModel) ]
        /\ forall c, stored_key c d' = stored_key c d).
Proof.
  unfold save_model_config. rewrite !empty_or_blank. split.
  - intros H.
    destruct (blank provider); [eexists; reflexivity|].
    destruct (blank model); [eexists; reflexivity|].
    destruct (blank whisperModel); [eexists; reflexivity|].
    destruct H as [H|[H|H]]; discriminate H.
  - intros -> -> -> Hd.
    destruct Hd as [E|[r [E Hr]]]; rewrite E; simpl.
    + eexists. split; [reflexivity|]. split; [reflexivity|].
      intros c. unfold stored_key. simpl. rewrite E. simpl. now destruct c.
    + unfold settings_1. rewrite Hr. simpl.
      eexists. split; [reflexivity|]. split; [reflexivity|].
      intros c. unfold stored_key, sql_select, settings_1. simpl.
      rewrite E. simpl. rewrite Hr. simpl. now destruct c.
Qed.

Lemma save_model_config_round_trip_witness :
  exists d',
    save_model_config (lit "ollama") (lit "llama3.2:3b") (lit "large-v3")
                      with_openai_key = (d', Ok tt)
    /\ get_model_config d'
       = Some [ (lit "provider", SqlText (lit "ollama"));
                (lit "model", SqlText (lit "llama3.2:3b"));
                (lit "whisperModel", SqlText (lit "large-v3")) ]
    /\ stored_key openaiApiKey d' = stored_key openaiApiKey with_openai_key.
Proof.
  destruct (proj2 (save_model_config_round_trip (lit "ollama")
                     (lit "llama3.2:3b") (lit "large-v3") with_openai_key))
    as [d' [H1 [H2 H3]]]; try reflexivity.
  - right. eexists. split; reflexivity.
  - exists d'. split; [exact H1|]. split; [exact H2|apply H3].
Defined.

(** X16: [save_jira_config] with a token that is not a masked one, a
    non-empty url and a non-empty email returns, and [get_jira_config] then
    returns exactly the five values of the call, whatever was stored; the
    other tables are untouched.  With an empty url or an empty email it
    raises a [ValueError] and changes nothing. *)
Theorem save_jira_config_round_trip (url email token : str)
  (default_project_key default_issue_type : option str) (d : db) :
  (url <> [] -> email <> [] -> masked (Some token) = false ->
   exists d',
     save_jira_config url email (Some token) default_project_key
                      default_issue_type d = (d', Ok tt)
     /\ get_jira_config d'
        = Some [ (lit "url", SqlText url);
                 (lit "email", SqlText email);
                 (lit "api_token", SqlText token);
                 (lit "default_project_key",
                  text_or_null default_project_key);
                 (lit "default_issue_type",
                  text_or_null default_issue_type) ]
     /\ summary_processes d' = summary_processes d
     /\ transcript_chunks d' = transcript_chunks d
     /\ transcripts d' = transcripts d
     /\ settings d' = settings d)
  /\ (url = [] \/ email = [] ->
      forall api_token,
        save_jira_config url email api_token default_project_key
                         default_issue_type d
        = (d, Raise (ValueError (lit "URL and Email are required")))).
Proof.
  split.
  - intros Hu He Hm. unfold save_jira_config.
    apply truthy_true in Hu, He. rewrite Hu, He. cbn [negb orb].
    destruct (fetchone (sql_select jira_1 (jira_settings d))) as [r|] eqn:Hr.
    + unfold resolve_token. rewrite Hm. unfold sql_update.
      eexists. split; [reflexivity|]. split; [|repeat split].
      unfold get_jira_config. simpl.
      unfold sql_select, jira_1 in *.
      rewrite (update_select j_id
                 (set_jira url email token default_project_key
                           default_issue_type)
                 (lit "1") (fun x => eq_refl)).
      unfold fetchone in *.
      destruct (filter _ (jira_settings d)) as [|x l]; [discriminate|].
      reflexivity.
    + unfold resolve_token. rewrite Hm. unfold sql_insert.
      rewrite (fetchone_no_key j_id (lit "1")
                 (new_jira url email token default_project_key
                           default_issue_type)
                 (jira_settings d) eq_refl Hr).
      eexists. split; [reflexivity|]. split; [|repeat split].
      unfold get_jira_config. simpl.
      unfold sql_select, jira_1 in *.
      rewrite (select_app j_id (lit "1") (jira_settings d)
                 (new_jira url email token default_project_key
                           default_issue_type) eq_refl).
      unfold fetchone in *.
      destruct (filter _ (jira_settings d)) as [|x l]; [|discriminate].
      reflexivity.
  - intros H api_token. unfold save_jira_config.
    destruct H as [-> | ->]; [reflexivity|].
    destruct url; reflexivity.
Qed.

Lemma save_jira_config_round_trip_witness :
  exists d',
    save_jira_config (lit "https://new.atlassian.net") (lit "ops@example.com")
                     (Some (lit "token-2")) (Some (lit "OPS")) None with_jira
    = (d', Ok tt)
    /\ get_jira_config d'
       = Some [ (lit "url", SqlText (lit "https://new.atlassian.net"));
                (lit "email", SqlText (lit "ops@example.com"));
                (lit "api_token", SqlText (lit "token-2"));
                (lit "default_project_key", text_or_null (Some (lit "OPS")));
                (lit "default_issue_type", text_or_null None) ].
Proof.
  destruct (proj1 (save_jira_config_round_trip
                     (lit "https://new.atlassian.net") (lit "ops@example.com")
                     (lit "token-2") (Some (lit "OPS")) None with_jira))
    as [d' [H1 [H2 _]]]; try discriminate; try reflexivity.
  exists d'. split; assumption.
Defined.

(** ** Meetings *)

Section KeyedFacts.
Context {row : Type}.
Variable key : row -> str.



Lemma select_other_updated (k k' : str) (set_ : row -> row) (t : list row) :
  (forall r, key (set_ r) = key r) -> k' <> k ->
  filter (fun r => str_eqb (key r) k')
         (map (fun r => if str_eqb (key r) k then set_ r else r) t)
  = filter (fun r => str_eqb (key r) k') t.
Proof.
  intros Hset Hk. induction t as [|x t IH]; [reflexivity|]. simpl.
  destruct (str_eqb (key x) k) eqn:E.
  - apply str_eqb_eq in E.
    assert (E' : str_eqb (key x) k' = false)
      by (apply str_eqb_neq; congruence).
    now rewrite Hset, E'.
  - now rewrite IH.
Qed.

Lemma select_other_inserted (k' : str) (r : row) (t : list row) :
  key r <> k' ->
  filter (fun r => str_eqb (key r) k') (t ++ [r])
  = filter (fun r => str_eqb (key r) k') t.
Proof.
  intros Hk. rewrite filter_app. simpl.
  apply str_eqb_neq in Hk. rewrite Hk. apply app_nil_r.
Qed.

Lemma fetchone_select_none (k : str) (t : list row) :
  fetchone (sql_select (fun r => str_eqb (key r) k) t) = None
  <-> filter (fun r => str_eqb (key r) k) t = [].
Proof.
  unfold fetchone, sql_select.
  destruct (filter _ t); simpl; split; congruence.
Qed.

End KeyedFacts.

Section MeetingFacts.



(** [get_meeting] reads the rows of the meeting and nothing else. *)
Lemma get_meeting_ext (id : str) (s s' : full_db) :
  sql_select (meeting_is id) (meetings s')
  = sql_select (meeting_is id) (meetings s) ->
  sql_select (segment_for id) (transcripts (core s'))
  = sql_select (segment_for id) (transcripts (core s)) ->
  get_meeting id s' = get_meeting id s.
Proof. intros Hm Hs. unfold get_meeting. now rewrite Hm, Hs. Qed.


Lemma no_clash (meeting_id title : str) (l : list meeting_row) :
  Forall (fun m => m_id m <> meeting_id /\ m_title m <> title) l ->
  filter (fun m => str_eqb (m_id m) meeting_id || str_eqb (m_title m) title) l
  = []
  /\ existsb (fun r' => str_eqb (m_id r') meeting_id) l = false.
Proof.
  induction l as [|x l IH]; intros H; [split; reflexivity|].
  inversion H as [|? ? [H1 H2] Hl]; subst. simpl.
  apply str_eqb_neq in H1, H2. rewrite H1, H2. simpl. now apply IH.
Qed.

Lemma with_summary_processes_same (d : db) :
  with_summary_processes d (summary_processes d) = d.
Proof. now destruct d. Qed.

End MeetingFacts.

(** X17: [save_meeting] raises the plain exception "Meeting with ID ...
    already exists" and changes nothing as soon as a stored meeting has the
    given id or the given title.  Otherwise it returns [True] and appends
    the meeting, created and updated at the time of the call, leaving the
    other tables alone.  Either way, ids and titles that were unique stay
    unique. *)
Theorem save_meeting_rejects_duplicates (now meeting_id title : str)
  (folder_path : option str) (s : full_db) :
  (Exists (fun m => m_id m = meeting_id \/ m_title m = title) (meetings s) ->
   save_meeting now meeting_id title folder_path s
   = (s, Raised (PlainException (lit "Meeting with ID " ++ meeting_id
                                 ++ lit " already exists"))))
  /\ (Forall (fun m => m_id m <> meeting_id /\ m_title m <> title)
             (meetings s) ->
      save_meeting now meeting_id title folder_path s
      = (with_meetings s
           (meetings s ++ [new_meeting now meeting_id title folder_path]),
         Returned true))
  /\ (NoDup (map m_id (meetings s)) -> NoDup (map m_title (meetings s)) ->
      NoDup (map m_id
               (meetings (fst (save_meeting now meeting_id title folder_path
                                            s))))
      /\ NoDup (map m_title
                  (meetings (fst (save_meeting now meeting_id title
                                               folder_path s))))).
Proof.
  assert (Hclash :
            Exists (fun m => m_id m = meeting_id \/ m_title m = title)
                   (meetings s) ->
            save_meeting now meeting_id title folder_path s
            = (s, Raised (PlainException (lit "Meeting with ID " ++ meeting_id
                                          ++ lit " already exists")))).
  { intros H. unfold save_meeting, fetchone, sql_select.
    destruct (filter _ (meetings s)) as [|x l] eqn:F; [|reflexivity].
    exfalso. apply Exists_exists in H as [m [Hin Hm]].
    assert (Hf : In m (filter
                         (fun m => str_eqb (m_id m) meeting_id
                                   || str_eqb (m_title m) title)
                         (meetings s))).
    { apply filter_In. split; [exact Hin|].
      destruct Hm as [<-|<-]; rewrite str_eqb_refl;
        [reflexivity|apply orb_true_r]. }
    rewrite F in Hf. contradiction. }
  assert (Hfree :
            Forall (fun m => m_id m <> meeting_id /\ m_title m <> title)
                   (meetings s) ->
            save_meeting now meeting_id title folder_path s
            = (with_meetings s
                 (meetings s ++ [new_meeting now meeting_id title folder_path]),
               Returned true)).
  { intros H. unfold save_meeting, fetchone, sql_select, sql_insert.
    destruct (no_clash meeting_id title (meetings s) H) as [F E].
    rewrite F. simpl. rewrite E. reflexivity. }
  split; [exact Hclash|]. split; [exact Hfree|].
  intros Hid Htitle.
  destruct (Exists_dec (fun m => m_id m = meeting_id \/ m_title m = title)
              (meetings s)) as [Hex|Hno].
  { intros m.
    destruct (str_eqb (m_id m) meeting_id) eqn:E1;
      [left; left; now apply str_eqb_eq|].
    destruct (str_eqb (m_title m) title) eqn:E2;
      [left; right; now apply str_eqb_eq|].
    right. apply str_eqb_neq in E1, E2. tauto. }
  - rewrite (Hclash Hex). simpl. split; assumption.
  - assert (Hall : Forall (fun m => m_id m <> meeting_id /\ m_title m <> title)
                          (meetings s)).
    { apply Forall_forall. intros m Hin. split; intros E; apply Hno;
        apply Exists_exists; exists m; tauto. }
    rewrite (Hfree Hall). simpl. rewrite Forall_forall in Hall.
    split; rewrite map_app; simpl.
    + apply NoDup_app; [exact Hid|repeat constructor; intros []|].
      intros x Hx [E|[]]. apply in_map_iff in Hx as [m [Em Hin]].
      apply (proj1 (Hall m Hin)). congruence.
    + apply NoDup_app; [exact Htitle|repeat constructor; intros []|].
      intros x Hx [E|[]]. apply in_map_iff in Hx as [m [Em Hin]].
      apply (proj2 (Hall m Hin)). congruence.
Qed.

Lemma save_meeting_rejects_duplicates_witness :
  save_meeting (lit "2025-01-02 09:00:00") (lit "m2") (lit "Standup") None
    (with_meetings empty_full_db
       [new_meeting (lit "2025-01-01 09:00:00") (lit "m1") (lit "Standup")
                    None])
  = (with_meetings empty_full_db
       [new_meeting (lit "2025-01-01 09:00:00") (lit "m1") (lit "Standup")
                    None],
     Raised (PlainException (lit "Meeting with ID " ++ lit "m2"
                             ++ lit " already exists"))).
Proof.
  apply (proj1 (save_meeting_rejects_duplicates
                  (lit "2025-01-02 09:00:00") (lit "m2") (lit "Standup") None
                  (with_meetings empty_full_db
                     [new_meeting (lit "2025-01-01 09:00:00") (lit "m1")
                                  (lit "Standup") None]))).
  constructor. right. reflexivity.
Defined.

(** X18: [save_meeting_transcript] always returns [True] and does not look
    at the meetings.  Afterwards [get_meeting] shows, for the meeting of the
    call if it exists, the segments it showed before followed by the new
    one; every other meeting is shown as before, and a meeting that does
    not exist is still not found. *)
Theorem save_meeting_transcript_appends
  (meeting_id transcript timestamp summary action_items key_points : str)
  (audio_start_time audio_end_time duration : option float) (s : full_db) :
  let saved :=
    on_core (save_meeting_transcript meeting_id transcript timestamp summary
               action_items key_points audio_start_time audio_end_time
               duration) s in
  snd saved = Ok true
  /\ meetings (fst saved) = meetings s
  /\ get_meeting meeting_id (fst saved)
     = option_map
         (with_segment {| sv_id := meeting_id; sv_text := transcript;
                          sv_timestamp := timestamp;
                          sv_audio_start_time := audio_start_time;
                          sv_audio_end_time := audio_end_time;
                          sv_duration := duration |})
         (get_meeting meeting_id s)
  /\ (forall other, other <> meeting_id ->
        get_meeting other (fst saved) = get_meeting other s).
Proof.
  intros saved. subst saved. unfold on_core, save_meeting_transcript. simpl.
  split; [reflexivity|]. split; [reflexivity|]. split.
  - unfold get_meeting. simpl.
    destruct (fetchone (sql_select (meeting_is meeting_id) (meetings s)));
      [|reflexivity].
    simpl. unfold with_segment. simpl. f_equal. f_equal.
    unfold sql_select, segment_for. rewrite filter_app. simpl.
    rewrite str_eqb_refl. now rewrite map_app.
  - intros other Hne. apply get_meeting_ext; [reflexivity|]. simpl.
    unfold sql_select, segment_for.
    apply (select_other_inserted t_meeting_id other). simpl. congruence.
Qed.



Section SummaryFacts.

Lemma select_meeting_updated (id : str) (set_ : meeting_row -> meeting_row)
  (t : list meeting_row) :
  (forall r, m_id (set_ r) = m_id r) ->
  sql_select (meeting_is id)
    (fst (sql_update (meeting_is id) set_ t))
  = map set_ (sql_select (meeting_is id) t).
Proof.
  intros Hset. unfold sql_update, sql_select, meeting_is. simpl.
  apply (update_select m_id set_ id Hset).
Qed.

Lemma select_meeting_other (id other : str)
  (set_ : meeting_row -> meeting_row) (t : list meeting_row) :
  (forall r, m_id (set_ r) = m_id r) -> other <> id ->
  sql_select (meeting_is other)
    (fst (sql_update (meeting_is id) set_ t))
  = sql_select (meeting_is other) t.
Proof.
  intros Hset Hne. unfold sql_update, sql_select, meeting_is. simpl.
  apply (select_other_updated m_id id other set_ t Hset Hne).
Qed.

(** [get_meeting] after an update of the meeting's own row. *)
Lemma get_meeting_updated (id : str) (set_ : meeting_row -> meeting_row)
  (view : meeting_view -> meeting_view) (s s' : full_db) :
  (forall r, m_id (set_ r) = m_id r) ->
  (forall m segments,
      {| mv_id := m_id (set_ m); mv_title := m_title (set_ m);
         mv_created_at := m_created_at (set_ m);
         mv_updated_at := m_updated_at (set_ m);
         mv_transcripts := segments |}
      = view {| mv_id := m_id m; mv_title := m_title m;
                mv_created_at := m_created_at m;
                mv_updated_at := m_updated_at m;
                mv_transcripts := segments |}) ->
  meetings s' = fst (sql_update (meeting_is id) set_ (meetings s)) ->
  transcripts (core s') = transcripts (core s) ->
  get_meeting id s' = option_map view (get_meeting id s).
Proof.
  intros Hset Hview Hm Ht. unfold get_meeting.
  rewrite Hm, Ht, (select_meeting_updated id set_ (meetings s) Hset).
  destruct (sql_select (meeting_is id) (meetings s)) as [|m l];
    [reflexivity|].
  simpl. f_equal. apply Hview.
Qed.

End SummaryFacts.



(** X21: [update_meeting_title] and [update_meeting_name] give a stored
    meeting the new title and the call's time as modification time, keep
    its creation time and its segments, and leave every other meeting as it
    was; for a meeting that does not exist [get_meeting] still finds
    nothing.  [update_meeting_name] also writes the name into the blob of
    the meeting; apart from the blobs both leave the same store. *)
Theorem update_meeting_name_renames (now meeting_id meeting_name : str)
  (s : full_db) :
  let s' := update_meeting_name now meeting_id meeting_name s in
  get_meeting meeting_id s'
  = option_map (retitled meeting_name now) (get_meeting meeting_id s)
  /\ (forall other, other <> meeting_id ->
        get_meeting other s' = get_meeting other s)
  /\ Forall (fun r => c_meeting_name r = Some meeting_name)
            (sql_select (blob_for meeting_id) (transcript_chunks (core s')))
  /\ (forall other, other <> meeting_id ->
        sql_select (blob_for other) (transcript_chunks (core s'))
        = sql_select (blob_for other) (transcript_chunks (core s)))
  /\ update_meeting_title now meeting_id meeting_name s
     = with_core s' (core s).
Proof.
  intros s'. subst s'. unfold update_meeting_name.
  split; [|split; [|split; [|split]]].
  - apply (get_meeting_updated meeting_id (set_title meeting_name now));
      reflexivity.
  - intros other Hne. apply get_meeting_ext; [|reflexivity]. simpl.
    apply (select_meeting_other meeting_id other
             (set_title meeting_name now)); [reflexivity|exact Hne].
  - simpl. unfold sql_update, sql_select, blob_for. simpl.
    rewrite (update_select c_meeting_id (set_meeting_name meeting_name)
               meeting_id (fun r => eq_refl)).
    apply Forall_forall. intros r Hin.
    apply in_map_iff in Hin as [r0 [<- _]]. reflexivity.
  - intros other Hne. simpl. unfold sql_update, sql_select, blob_for. simpl.
    apply (select_other_updated c_meeting_id meeting_id other
             (set_meeting_name meeting_name) _ (fun r => eq_refl) Hne).
  - reflexivity.
Qed.

Section OrderFacts.

Lemma insert_by_created_at_perm (m : meeting_row) (l : list meeting_row) :
  Permutation (insert_by_created_at m l) (m :: l).
Proof.
  induction l as [|x l IH]; simpl; [apply Permutation_refl|].
  destruct (text_leb (m_created_at x) (m_created_at m));
    [apply Permutation_refl|].
  eapply perm_trans; [apply perm_skip, IH|apply perm_swap].
Qed.

Lemma insert_by_created_at_sorted (m : meeting_row) (l : list meeting_row) :
  Sorted (fun a b => text_leb (m_created_at b) (m_created_at a) = true) l ->
  Sorted (fun a b => text_leb (m_created_at b) (m_created_at a) = true)
         (insert_by_created_at m l).
Proof.
  induction l as [|x l IH]; intros Hs; simpl.
  - repeat constructor.
  - destruct (text_leb (m_created_at x) (m_created_at m)) eqn:E.
    + constructor; [exact Hs|]. constructor. exact E.
    + inversion Hs as [|? ? Hs' Hhd]; subst.
      constructor; [apply IH; exact Hs'|].
      apply text_leb_total in E.
      destruct l as [|y l]; simpl.
      * constructor. exact E.
      * destruct (text_leb (m_created_at y) (m_created_at m));
          constructor; [exact E|].
        now inversion Hhd.
Qed.

Lemma order_by_created_at_desc_perm (l : list meeting_row) :
  Permutation (order_by_created_at_desc l) l.
Proof.
  unfold order_by_created_at_desc.
  induction l as [|m l IH]; simpl; [constructor|].
  eapply perm_trans; [apply insert_by_created_at_perm|].
  now apply perm_skip.
Qed.

Lemma order_by_created_at_desc_sorted (l : list meeting_row) :
  Sorted (fun a b => text_leb (m_created_at b) (m_created_at a) = true)
         (order_by_created_at_desc l).
Proof.
  unfold order_by_created_at_desc.
  induction l as [|m l IH]; simpl; [constructor|].
  now apply insert_by_created_at_sorted.
Qed.

Lemma Sorted_map_rel {A B : Type} (f : A -> B) (R : A -> A -> Prop)
  (R' : B -> B -> Prop) (l : list A) :
  (forall a b, R a b -> R' (f a) (f b)) ->
  Sorted R l -> Sorted R' (map f l).
Proof.
  intros H. induction 1 as [|x l Hs IH Hhd]; simpl; constructor;
    [exact IH|].
  destruct Hhd; simpl; constructor. now apply H.
Qed.

End OrderFacts.

(** X22: [get_all_meetings] lists every stored meeting once, with its id,
    title and creation time, latest creation time first. *)
Theorem get_all_meetings_latest_first (s : full_db) :
  Permutation (get_all_meetings s)
              (map (fun row => (m_id row, m_title row, m_created_at row))
                   (meetings s))
  /\ Sorted latest_first (get_all_meetings s)
  /\ len (get_all_meetings s) = len (meetings s).
Proof.
  pose proof (order_by_created_at_desc_perm (meetings s)) as Hperm.
  unfold get_all_meetings. split; [|split].
  - now apply Permutation_map.
  - apply (Sorted_map_rel _
             (fun a b => text_leb (m_created_at b) (m_created_at a) = true)).
    + intros a b H. exact H.
    + apply order_by_created_at_desc_sorted.
  - unfold len. rewrite length_map.
    now rewrite (Permutation_length Hperm).
Qed.

(** ** The life of a summary process *)

Section LifecycleFacts.

Lemma create_process_other_tables (now id : str) (d d' : db) (x : str) :
  create_process now id d = (d', Ok x) ->
  transcript_chunks d' = transcript_chunks d
  /\ transcripts d' = transcripts d.
Proof.
  unfold create_process, sql_update.
  destruct (sql_count _ _ =? 0).
  - destruct (sql_insert _ _ _); intros H; [|discriminate].
    injection H as <- _. split; reflexivity.
  - intros H. injection H as <- _. split; reflexivity.
Qed.

(** A call of [save_transcript] with valid arguments, on a table that
    respects its key: the one row of the meeting holds the text. *)
Lemma save_transcript_row (now id text model model_name : str)
  (chunk_size overlap : Z) (d : db) :
  blank id = false -> blank text = false -> 0 < chunk_size ->
  0 <= overlap -> len text <= 10000000 ->
  NoDup (map c_meeting_id (transcript_chunks d)) ->
  exists t' row,
    save_transcript now id text model model_name chunk_size overlap d
    = (with_transcript_chunks d t', Ok tt)
    /\ sql_select (blob_for id) t' = [row]
    /\ c_transcript_text row = text /\ c_model row = model
    /\ c_model_name row = model_name.
Proof.
  intros Hid Htext Hc Ho Hl Hnd.
  unfold save_transcript. rewrite !empty_or_blank, Hid, Htext.
  destruct (chunk_size <=? 0) eqn:E1; [zbool; lia|].
  destruct (overlap <? 0) eqn:E2; [zbool; lia|]. simpl.
  destruct (10000000 <? len text) eqn:E3; [zbool; lia|].
  unfold sql_update, sql_select, blob_for.
  destruct (upsert_outcome c_meeting_id
              (set_transcript text model model_name chunk_size overlap now)
              id
              (new_transcript id text model model_name chunk_size overlap now)
              (transcript_chunks d) (fun r => eq_refl) eq_refl Hnd)
    as [t' [Hup [_ [_ Hrow]]]].
  exists t'.
  assert (Hsel : exists row,
             filter (fun r => str_eqb (c_meeting_id r) id) t' = [row]
             /\ c_transcript_text row = text /\ c_model row = model
             /\ c_model_name row = model_name).
  { destruct Hrow as [[_ [_ Hsel]]|[r [_ [_ Hsel]]]];
      eexists; (split; [exact Hsel|]); repeat split. }
  destruct Hsel as [row [Hsel Hfields]]. exists row.
  split; [|split; [exact Hsel|exact Hfields]].
  destruct (sql_count _ _ =? 0).
  - now rewrite Hup.
  - now injection Hup as ->.
Qed.

Lemma blank_false_nonempty (s : str) : blank s = false -> s <> [].
Proof. intros H ->. discriminate. Qed.

End LifecycleFacts.

(** X23: a call of [update_process] that returns never adds, removes or
    reorders rows.  Every row keeps its meeting id, its creation time and
    its start time; the rows of other meetings are untouched; and in the
    rows of the meeting the end time is the call's time when the status,
    in upper case, is COMPLETED or FAILED, and is left alone otherwise.  The
    other tables are untouched, and when the meeting has no process row the
    call returns and changes nothing at all. *)
Theorem update_process_touches_own_rows (now id status : str)
  (result : option pydict) (error : option str) (chunk_count : option Z)
  (processing_time : option float) (metadata : option pydict) (d d' : db) :
  update_process now id status result error chunk_count processing_time
                 metadata d = (d', Ok tt) ->
  Forall2 (process_step now id status)
          (summary_processes d) (summary_processes d')
  /\ transcript_chunks d' = transcript_chunks d
  /\ transcripts d' = transcripts d
  /\ settings d' = settings d
  /\ jira_settings d' = jira_settings d
  /\ (sql_select (for_meeting id) (summary_processes d) = [] -> d' = d).
Proof.
  intros H. apply update_process_ok in H. subst d'. simpl.
  split; [|repeat split].
  - apply Forall2_map_self. intros r. unfold process_step, for_meeting.
    destruct (str_eqb (p_meeting_id r) id) eqn:E.
    + apply str_eqb_eq in E. repeat split; try reflexivity.
      intros Hne. contradiction.
    + apply str_eqb_neq in E. repeat split; try reflexivity.
      intros Heq. contradiction.
  - intros Hnone. unfold sql_select, for_meeting in *.
    rewrite (update_no_match p_meeting_id _ id _ Hnone).
    apply with_summary_processes_same.
Qed.

Lemma update_process_touches_own_rows_witness :
  Forall2 (process_step (lit "2025-01-01T10:05:00") (lit "m1")
                        (lit "completed"))
          (summary_processes one_process)
          (summary_processes
             (fst (update_process (lit "2025-01-01T10:05:00") (lit "m1")
                                  (lit "completed") None None (Some 3) None
                                  None one_process))).
Proof.
  apply (update_process_touches_own_rows
           (lit "2025-01-01T10:05:00") (lit "m1") (lit "completed")
           None None (Some 3) None None one_process
           (fst (update_process (lit "2025-01-01T10:05:00") (lit "m1")
                                (lit "completed") None None (Some 3) None
                                None one_process))).
  reflexivity.
Defined.

(** X24: the summary pipeline, end to end.  On a store whose process and
    blob tables respect their keys, [create_process], then [save_transcript]
    with valid arguments, then [update_process] with status COMPLETED and a
    serializable, non-empty result all return, and [get_transcript_data]
    then returns the blob of the meeting with the saved text, model and
    model name, the status COMPLETED, the JSON text of the result and no
    error, whatever the meeting's rows held before. *)
Theorem summary_pipeline_round_trip (now1 now2 now3 id text model : str)
  (model_name : str) (chunk_size overlap : Z) (result : pydict)
  (result_json : str) (d : db) :
  blank id = false -> blank text = false -> 0 < chunk_size ->
  0 <= overlap -> len text <= 10000000 ->
  NoDup (map p_meeting_id (summary_processes d)) ->
  NoDup (map c_meeting_id (transcript_chunks d)) ->
  result <> [] -> dumps (PyDict result) = Ok result_json ->
  exists d1 d2 d3 data,
    create_process now1 id d = (d1, Ok id)
    /\ save_transcript now2 id text model model_name chunk_size overlap d1
       = (d2, Ok tt)
    /\ update_process now3 id (lit "COMPLETED") (Some result) None None None
                      None d2 = (d3, Ok tt)
    /\ get_transcript_data id d3 = Some data
    /\ dict_get data (lit "transcript_text") = SqlText text
    /\ dict_get data (lit "model") = SqlText model
    /\ dict_get data (lit "model_name") = SqlText model_name
    /\ dict_get data (lit "status") = SqlText (lit "COMPLETED")
    /\ dict_get data (lit "result") = SqlText result_json
    /\ dict_get data (lit "error") = SqlNull.
Proof.
  intros Hid Htext Hc Ho Hl Hndp Hndc Hres Hjson.
  destruct (create_process_spec now1 id d Hndp)
    as [d1 [H1 [_ [_ Hrow1]]]].
  destruct (create_process_other_tables now1 id d d1 id H1) as [Hchunks _].
  assert (Hp1 : exists prow,
             sql_select (for_meeting id) (summary_processes d1) = [prow]
             /\ p_error prow = None).
  { destruct Hrow1 as [[_ Hs]|[r [_ [_ Hs]]]]; eexists;
      (split; [exact Hs|reflexivity]). }
  destruct Hp1 as [prow [Hp1 Herr]].
  rewrite <- Hchunks in Hndc.
  destruct (save_transcript_row now2 id text model model_name chunk_size
              overlap d1 Hid Htext Hc Ho Hl Hndc)
    as [t' [row [H2 [Hsel [Ft [Fm Fn]]]]]].
  assert (Hfields : update_fields now3 (lit "COMPLETED") (Some result) None
                                  None None None
                    = Ok [SetStatus (lit "COMPLETED"); SetUpdatedAt now3;
                          SetResult result_json; SetEndTime now3]).
  { unfold update_fields. destruct result as [|kv result]; [congruence|].
    simpl truthy_dict. cbv iota. rewrite Hjson. reflexivity. }
  exists d1, (with_transcript_chunks d1 t').
  eexists. eexists.
  split; [exact H1|]. split; [exact H2|].
  split; [unfold update_process; rewrite Hfields; reflexivity|].
  assert (Hget :
            get_transcript_data id
              (with_summary_processes (with_transcript_chunks d1 t')
                 (fst (sql_update (for_meeting id)
                         (assign_all [SetStatus (lit "COMPLETED");
                                      SetUpdatedAt now3;
                                      SetResult result_json;
                                      SetEndTime now3])
                         (summary_processes (with_transcript_chunks d1 t')))))
            = Some (blob_dict row
                      (Some (assign_all [SetStatus (lit "COMPLETED");
                                         SetUpdatedAt now3;
                                         SetResult result_json;
                                         SetEndTime now3] prow)))).
  { unfold get_transcript_data.
    rewrite (blob_left_join_first id
               (with_summary_processes (with_transcript_chunks d1 t')
                  (fst (sql_update (for_meeting id)
                          (assign_all [SetStatus (lit "COMPLETED");
                                       SetUpdatedAt now3;
                                       SetResult result_json;
                                       SetEndTime now3])
                          (summary_processes
                             (with_transcript_chunks d1 t')))))
               row [] Hsel).
    simpl summary_processes.
    unfold sql_update, sql_select, for_meeting in *. simpl fst.
    rewrite (update_select p_meeting_id
               (assign_all [SetStatus (lit "COMPLETED"); SetUpdatedAt now3;
                            SetResult result_json; SetEndTime now3])
               id (fun r => eq_refl)).
    rewrite Hp1. unfold fetchone. cbn [map hd_error].
    assert (Ht : truthy_val (dict_get (blob_dict row (Some
                   (assign_all [SetStatus (lit "COMPLETED");
                                SetUpdatedAt now3; SetResult result_json;
                                SetEndTime now3] prow)))
                   (lit "transcript_text")) = true).
    { change (truthy (c_transcript_text row) = true). rewrite Ft.
      apply truthy_true. now apply blank_false_nonempty. }
    now rewrite Ht. }
  split; [exact Hget|].
  repeat split.
  - change (SqlText (c_transcript_text row) = SqlText text). now rewrite Ft.
  - change (SqlText (c_model row) = SqlText model). now rewrite Fm.
  - change (SqlText (c_model_name row) = SqlText model_name). now rewrite Fn.
  - change (text_or_null (p_error prow) = SqlNull). now rewrite Herr.
Qed.

Lemma summary_pipeline_round_trip_witness :
  exists d1 d2 d3 data,
    create_process (lit "2025-01-01T10:00:00") (lit "m1") empty_db
    = (d1, Ok (lit "m1"))
    /\ save_transcript (lit "2025-01-01T10:01:00") (lit "m1")
         (lit "we agreed to ship on friday") (lit "ollama")
         (lit "llama3.2:3b") 5000 1000 d1
       = (d2, Ok tt)
    /\ update_process (lit "2025-01-01T10:02:00") (lit "m1")
         (lit "COMPLETED") (Some [(PyStr (lit "k"), PyStr (lit "v"))])
         None None None None d2 = (d3, Ok tt)
    /\ get_transcript_data (lit "m1") d3 = Some data
    /\ dict_get data (lit "transcript_text")
       = SqlText (lit "we agreed to ship on friday")
    /\ dict_get data (lit "model") = SqlText (lit "ollama")
    /\ dict_get data (lit "model_name") = SqlText (lit "llama3.2:3b")
    /\ dict_get data (lit "status") = SqlText (lit "COMPLETED")
    /\ dict_get data (lit "result")
       = SqlText (match dumps (PyDict [(PyStr (lit "k"), PyStr (lit "v"))])
                  with Ok j => j | Raise _ => [] end)
    /\ dict_get data (lit "error") = SqlNull.
Proof.
  apply (summary_pipeline_round_trip
           (lit "2025-01-01T10:00:00") (lit "2025-01-01T10:01:00")
           (lit "2025-01-01T10:02:00") (lit "m1")
           (lit "we agreed to ship on friday") (lit "ollama")
           (lit "llama3.2:3b") 5000 1000
           [(PyStr (lit "k"), PyStr (lit "v"))]);
    try reflexivity; try discriminate; try lia; constructor.
Defined.

(** ** Transcription settings *)

Section TranscriptSettingsFacts.

Lemma transcript_api_key_name_cases (provider : str)
  (c : transcript_key_column) :
  transcript_api_key_name provider = Ok c ->
  (provider = lit "localWhisper" /\ c = whisperApiKey)
  \/ (provider = lit "deepgram" /\ c = deepgramApiKey)
  \/ (provider = lit "elevenLabs" /\ c = elevenLabsApiKey)
  \/ (provider = lit "groq" /\ c = ts_groq)
  \/ (provider = lit "openai" /\ c = ts_openai).
Proof.
  unfold transcript_api_key_name, mem, transcript_provider_list.
  cbn [existsb].
  destruct (str_eqb provider (lit "localWhisper")) eqn:E1.
  { apply str_eqb_eq in E1. cbn [orb negb]. intros [= <-]. tauto. }
  destruct (str_eqb provider (lit "deepgram")) eqn:E2.
  { apply str_eqb_eq in E2. cbn [orb negb]. intros [= <-]. tauto. }
  destruct (str_eqb provider (lit "elevenLabs")) eqn:E3.
  { apply str_eqb_eq in E3. cbn [orb negb]. intros [= <-]. tauto. }
  destruct (str_eqb provider (lit "groq")) eqn:E4.
  { apply str_eqb_eq in E4. cbn [orb negb]. intros [= <-]. tauto. }
  destruct (str_eqb provider (lit "openai")) eqn:E5.
  { apply str_eqb_eq in E5. cbn [orb negb]. intros [= <-]. tauto. }
  cbn [orb negb]. discriminate.
Qed.

Lemma transcript_api_key_name_injective (p q : str)
  (c : transcript_key_column) :
  transcript_api_key_name p = Ok c -> transcript_api_key_name q = Ok c ->
  p = q.
Proof.
  intros Hp Hq. apply transcript_api_key_name_cases in Hp, Hq.
  destruct Hp as [[-> ->]|[[-> ->]|[[-> ->]|[[-> ->]|[-> ->]]]]];
    destruct Hq as [[-> E]|[[-> E]|[[-> E]|[[-> E]|[-> E]]]]];
    try reflexivity; discriminate E.
Qed.

Lemma get_set_transcript_key (c c' : transcript_key_column) (v : option str)
  (r : transcript_settings_row) :
  get_transcript_key c (set_transcript_key c v r) = v
  /\ (c' <> c ->
      get_transcript_key c' (set_transcript_key c v r)
      = get_transcript_key c' r).
Proof.
  split; [now destruct c|].
  intros H. destruct c, c'; try reflexivity; congruence.
Qed.

Lemma get_transcript_api_key_stored (provider : str)
  (c : transcript_key_column) (s : full_db) :
  transcript_api_key_name provider = Ok c ->
  get_transcript_api_key provider s = Ok (stored_transcript_key c s).
Proof.
  intros H. unfold get_transcript_api_key, stored_transcript_key, bind.
  rewrite H.
  destruct (fetchone _) as [r|]; [|reflexivity].
  destruct (get_transcript_key c r) as [[|x k]|]; reflexivity.
Qed.

Lemma get_transcript_api_key_frame (q : str) (s s' : full_db) :
  (forall c, transcript_api_key_name q = Ok c ->
             stored_transcript_key c s' = stored_transcript_key c s) ->
  get_transcript_api_key q s' = get_transcript_api_key q s.
Proof.
  intros H. destruct (transcript_api_key_name q) as [c|e] eqn:E.
  - rewrite (get_transcript_api_key_stored q c s' E),
            (get_transcript_api_key_stored q c s E).
    now rewrite (H c eq_refl).
  - unfold get_transcript_api_key. now rewrite E.
Qed.

(** The keys read after [save_transcript_api_key]. *)
Lemma stored_transcript_key_saved (api_key : option str) (provider : str)
  (c : transcript_key_column) (s : full_db) :
  transcript_api_key_name provider = Ok c ->
  stored_transcript_key c (fst (save_transcript_api_key api_key provider s))
  = key_text api_key
  /\ (forall c', c' <> c ->
        stored_transcript_key c'
          (fst (save_transcript_api_key api_key provider s))
        = stored_transcript_key c' s).
Proof.
  intros Hc. unfold save_transcript_api_key. rewrite Hc.
  destruct (fetchone (sql_select transcript_settings_1
                                 (transcript_settings s))) as [r|] eqn:Hr.
  - unfold stored_transcript_key, sql_update. simpl.
    unfold sql_select, transcript_settings_1 in *.
    rewrite (update_select ts_id (set_transcript_key c api_key) (lit "1")
               (fun r => eq_refl)).
    unfold fetchone in *.
    destruct (filter _ (transcript_settings s)) as [|x l]; [discriminate|].
    simpl. split.
    + now rewrite (proj1 (get_set_transcript_key c c api_key x)).
    + intros c' Hc'.
      now rewrite (proj2 (get_set_transcript_key c c' api_key x) Hc').
  - unfold sql_insert.
    rewrite (fetchone_no_key ts_id (lit "1")
               (set_transcript_key c api_key
                  (new_transcript_settings (lit "localWhisper")
                                           (lit "large-v3")))
               (transcript_settings s) eq_refl Hr).
    unfold stored_transcript_key.
    cbn [fst transcript_settings with_transcript_settings]. rewrite Hr.
    unfold sql_select, transcript_settings_1 in *.
    rewrite (select_app ts_id (lit "1") (transcript_settings s)
               (set_transcript_key c api_key
                  (new_transcript_settings (lit "localWhisper")
                                           (lit "large-v3"))) eq_refl).
    unfold fetchone in *.
    destruct (filter _ (transcript_settings s)) as [|x l]; [|discriminate].
    simpl. split.
    + now rewrite (proj1 (get_set_transcript_key c c api_key _)).
    + intros c' Hc'.
      rewrite (proj2 (get_set_transcript_key c c' api_key _) Hc').
      now destruct c'.
Qed.

End TranscriptSettingsFacts.

(** X25: after [save_transcript_api_key] for a valid transcription
    provider, [get_transcript_api_key] returns the saved key for that
    provider and, for every other provider, what it returned before; the
    meetings and the tables of the summaries are untouched.  When no
    transcription settings were stored, the call creates them with the
    defaults, so [get_transcript_config] answers "localWhisper" and
    "large-v3" before and after. *)
Theorem transcript_api_keys_are_independent (api_key : option str)
  (provider : str) (c : transcript_key_column) (s : full_db) :
  transcript_api_key_name provider = Ok c ->
  let s' := fst (save_transcript_api_key api_key provider s) in
  get_transcript_api_key provider s' = Ok (key_text api_key)
  /\ (forall other, other <> provider ->
        get_transcript_api_key other s' = get_transcript_api_key other s)
  /\ core s' = core s /\ meetings s' = meetings s
  /\ (transcript_settings s = [] ->
      get_transcript_config s' = get_transcript_config s
      /\ get_transcript_config s
         = [ (lit "provider", SqlText (lit "localWhisper"));
             (lit "model", SqlText (lit "large-v3")) ]).
Proof.
  intros Hc s'. subst s'.
  destruct (stored_transcript_key_saved api_key provider c s Hc) as [H1 H2].
  split; [|split; [|split; [|split]]].
  - rewrite (get_transcript_api_key_stored provider c _ Hc). now rewrite H1.
  - intros other Hne. apply get_transcript_api_key_frame. intros c' Hc'.
    apply H2. intros ->. apply Hne.
    exact (transcript_api_key_name_injective other provider c Hc' Hc).
  - unfold save_transcript_api_key. rewrite Hc.
    destruct (fetchone _); [reflexivity|].
    destruct (sql_insert _ _ _); reflexivity.
  - unfold save_transcript_api_key. rewrite Hc.
    destruct (fetchone _); [|destruct (sql_insert _ _ _)].
    + (* the update keeps the table of the meetings *)
      reflexivity.
    + reflexivity.
    + reflexivity.
  - intros E. unfold save_transcript_api_key. rewrite Hc, E. simpl.
    unfold get_transcript_config. simpl. rewrite E. simpl.
    split; [now destruct c|reflexivity].
Qed.

Lemma transcript_api_keys_are_independent_witness :
  get_transcript_api_key (lit "deepgram")
    (fst (save_transcript_api_key (Some (lit "dg-1")) (lit "deepgram")
                                  empty_full_db))
  = Ok (key_text (Some (lit "dg-1")))
  /\ get_transcript_config
       (fst (save_transcript_api_key (Some (lit "dg-1")) (lit "deepgram")
                                     empty_full_db))
     = get_transcript_config empty_full_db.
Proof.
  destruct (transcript_api_keys_are_independent (Some (lit "dg-1"))
              (lit "deepgram") deepgramApiKey empty_full_db eq_refl)
    as [H1 [_ [_ [_ H5]]]].
  split; [exact H1|]. apply (proj1 (H5 eq_refl)).
Defined.

(** X26: [save_transcript_config] raises a [ValueError] and changes nothing
    when the provider or the model is empty or whitespace only.  Otherwise,
    on a table with no row or with the row "1" first, it returns,
    [get_transcript_config] then returns the two values, and the stored
    transcription keys are the ones stored before. *)
Theorem save_transcript_config_round_trip (provider model : str)
  (s : full_db) :
  (blank provider = true \/ blank model = true ->
   exists msg,
     save_transcript_config provider model s = (s, Raise (ValueError msg)))
  /\ (blank provider = false -> blank model = false ->
      (transcript_settings s = []
       \/ exists r rest, transcript_settings s = r :: rest
                         /\ ts_id r = lit "1") ->
      exists s',
        save_transcript_config provider model s = (s', Ok tt)
        /\ get_transcript_config s'
           = [ (lit "provider", SqlText provider);
               (lit "model", SqlText model) ]
        /\ (forall c, stored_transcript_key c s' = stored_transcript_key c s)
        /\ core s' = core s /\ meetings s' = meetings s).
Proof.
  unfold save_transcript_config. rewrite !empty_or_blank. split.
  - intros H.
    destruct (blank provider); [eexists; reflexivity|].
    destruct (blank model); [eexists; reflexivity|].
    destruct H as [H|H]; discriminate H.
  - intros -> -> [E|[r [rest [E Hr]]]]; rewrite E; simpl.
    + eexists. split; [reflexivity|]. split; [reflexivity|].
      split; [|split; reflexivity].
      intros c. unfold stored_transcript_key. simpl. rewrite E. simpl.
      now destruct c.
    + unfold transcript_settings_1 at 1. rewrite Hr. simpl.
      eexists. split; [reflexivity|]. split; [reflexivity|].
      split; [|split; reflexivity].
      intros c. unfold stored_transcript_key, sql_select. simpl.
      rewrite E. simpl. unfold transcript_settings_1 at 1 3.
      simpl. rewrite Hr. simpl.
      unfold transcript_settings_1 at 1. rewrite Hr. simpl.
      now destruct c.
Qed.

Lemma save_transcript_config_round_trip_witness :
  exists s',
    save_transcript_config (lit "deepgram") (lit "nova-2") empty_full_db
    = (s', Ok tt)
    /\ get_transcript_config s'
       = [ (lit "provider", SqlText (lit "deepgram"));
           (lit "model", SqlText (lit "nova-2")) ].
Proof.
  destruct (proj2 (save_transcript_config_round_trip (lit "deepgram")
                     (lit "nova-2") empty_full_db))
    as [s' [H1 [H2 _]]]; try reflexivity.
  - now left.
  - exists s'. split; assumption.
Defined.

(** ** Construction of a task suggestion *)

Section ConstructorFacts.

Lemma validate_summary_accepts (v : str) :
  good_summary (strip v) -> validate_summary v = Ok (strip v).
Proof.
  intros [_ [Hlen [Hw Hv]]]. rewrite split_strip in Hw, Hv.
  unfold validate_summary.
  assert (Ht : truthy v = true).
  { destruct v; [exfalso; revert Hlen; vm_compute; intros H; now apply H
                |reflexivity]. }
  rewrite Ht. cbn [negb orb].
  destruct (len (strip v) <? 10) eqn:E1; [zbool; lia|].
  destruct (len (split v) <? 2) eqn:E2; [zbool; lia|].
  destruct (2 * len (filter valid_word (split v)) <? len (split v)) eqn:E3;
    [zbool; lia|].
  reflexivity.
Qed.

Lemma validate_summary_outcome (v : str) :
  (good_summary (strip v) /\ validate_summary v = Ok (strip v))
  \/ (~ good_summary (strip v)
      /\ exists msg, validate_summary v = Raise (ValueError msg)).
Proof.
  destruct (validate_summary v) as [s|e] eqn:E.
  - left. pose proof (validate_summary_good v s E) as Hg.
    assert (Hs : s = strip v).
    { unfold validate_summary in E.
      destruct (negb (truthy v) || _); [discriminate|].
      destruct (len (split v) <? 2); [discriminate|].
      destruct (2 * _ <? _); [discriminate|]. now injection E as <-. }
    subst s. split; [exact Hg|reflexivity].
  - right. split.
    + intros Hg. rewrite (validate_summary_accepts v Hg) in E. discriminate.
    + unfold validate_summary in E.
      destruct (negb (truthy v) || _);
        [injection E as <-; eexists; reflexivity|].
      destruct (len (split v) <? 2);
        [injection E as <-; eexists; reflexivity|].
      destruct (2 * _ <? _); [|discriminate].
      injection E as <-. eexists. reflexivity.
Qed.

Lemma validate_description_outcome (v : str) :
  (good_description (strip v) /\ validate_description v = Ok (strip v))
  \/ (~ good_description (strip v)
      /\ exists msg, validate_description v = Raise (ValueError msg)).
Proof.
  unfold validate_description.
  destruct (negb (truthy v) || (len (strip v) <? 20)) eqn:E.
  - right. split; [|eexists; reflexivity].
    intros [_ Hlen]. apply orb_true_iff in E as [E|E].
    + destruct v; [|discriminate]. revert Hlen. vm_compute.
      intros H. now apply H.
    + zbool. lia.
  - left. split; [|reflexivity].
    apply orb_false_iff in E as [_ E]. zbool.
    split; [apply strip_stripped|lia].
Qed.

End ConstructorFacts.

(** X27: the construction of a [JiraTaskSuggestion] succeeds exactly when
    the trimmed summary has at least ten characters and two words, at least
    half of them longer than one character and starting with a letter, and
    the trimmed description has at least twenty characters.  The task then
    holds the trimmed summary and description and the normalized priority
    and type.  Otherwise it raises one [ValidationError] that reports every
    failing field: one or two messages. *)
Theorem constructor_accepts_good_fields
  (summary description priority type assignee : str)
  (assignee_account_id : option str)
  (labels related_issues : option (list str)) :
  (good_summary (strip summary) /\ good_description (strip description)
   /\ new_JiraTaskSuggestion summary description priority type assignee
        assignee_account_id labels related_issues
      = Ok {| TranscriptProcessor.summary := strip summary;
              TranscriptProcessor.description := strip description;
              TranscriptProcessor.priority := validate_priority priority;
              TranscriptProcessor.type := validate_type type;
              TranscriptProcessor.assignee := assignee;
              TranscriptProcessor.assignee_account_id := assignee_account_id;
              TranscriptProcessor.labels := labels;
              TranscriptProcessor.related_issues := related_issues |})
  \/ (~ (good_summary (strip summary)
         /\ good_description (strip description))
      /\ exists errors,
           new_JiraTaskSuggestion summary description priority type assignee
             assignee_account_id labels related_issues
           = Raise (ValidationError errors)
           /\ 1 <= len errors <= 2).
Proof.
  unfold new_JiraTaskSuggestion.
  destruct (validate_summary_outcome summary) as [[Gs Es]|[Gs [ms Es]]];
    destruct (validate_description_outcome description)
      as [[Gd Ed]|[Gd [md Ed]]];
    rewrite Es, Ed.
  - left. split; [exact Gs|]. split; [exact Gd|reflexivity].
  - right. split; [tauto|]. eexists. split; [reflexivity|].
    vm_compute. split; discriminate.
  - right. split; [tauto|]. eexists. split; [reflexivity|].
    vm_compute. split; discriminate.
  - right. split; [tauto|]. eexists. split; [reflexivity|].
    vm_compute. split; discriminate.
Qed.

(** X28: [_is_valid_english] rejects every text of fewer than five
    characters or fewer than two words, and accepts every longer text in
    which some word is, in whatever case, one of the common words: the
    letter and vowel statistics are consulted only when no common word
    occurs. *)
Theorem is_valid_english_by_common_word (text : str) :
  (len text < 5 \/ len (split text) < 2 -> _is_valid_english text = false)
  /\ (5 <= len text -> 2 <= len (split text) ->
      (exists word, In word (split text) /\ In (lower word) common_words) ->
      _is_valid_english text = true).
Proof.
  unfold _is_valid_english. split.
  - intros [H|H].
    + destruct (len text <? 5) eqn:E; [|zbool; lia].
      now rewrite orb_true_r.
    + destruct (negb (truthy text) || (len text <? 5)); [reflexivity|].
      destruct (len (split text) <? 2) eqn:E; [reflexivity|zbool; lia].
  - intros H5 H2 [word [Hin Hcommon]].
    assert (Ht : truthy text = true).
    { destruct text; [exfalso; revert H5; vm_compute; intros H; now apply H
                     |reflexivity]. }
    rewrite Ht. cbn [negb orb].
    destruct (len text <? 5) eqn:E5; [zbool; lia|].
    destruct (len (split text) <? 2) eqn:E2; [zbool; lia|].
    assert (Hex : existsb (fun w => mem w common_words)
                          (map lower (split text)) = true).
    { apply existsb_exists. exists (lower word). split.
      - apply in_map_iff. now exists word.
      - now apply mem_In. }
    now rewrite Hex.
Qed.

Lemma is_valid_english_by_common_word_witness :
  _is_valid_english (lit "Resolve the login outage") = true.
Proof.
  apply (proj2 (is_valid_english_by_common_word
                  (lit "Resolve the login outage"))).
  - vm_compute. discriminate.
  - vm_compute. discriminate.
  - exists (lit "the"). split; vm_compute; tauto.
Defined.
